(** * DataCleanAI: the analysis engine and the cleaning engine

    A shallow embedding of [backend/app/ml/data_analyzer.py]
    ([DataQualityAnalyzer]) and [backend/app/ml/data_cleaner.py]
    ([AutoDataCleaner]), and the properties of the specification proved
    about it.

    Modelling conventions.
    - Python floats are rationals ([Q]) extended with the IEEE special
      values that numpy produces instead of raising ([np_float]). The
      arithmetic of the engines is written twice where a property depends on
      rounding: on the exact values, and as the machine evaluates it, every
      operation rounded to binary64 ([Binary64], the definitions named
      [..._binary64]).
    - A pandas [DataFrame] is a mutable object: the cleaner works on
      references into a [store], so that in-place updates and copies can be
      told apart.
    - Functions of pandas, numpy and scikit-learn whose result is not
      arithmetic over the cells (parsing, string normalisation, KNN, scaling,
      encoding, the two ensemble detectors) are fields of a [Library] record.
    - The step log and the fitted imputers ([self.cleaning_results],
      [self.imputers]) are write-only in the source and are left out. *)

From Stdlib Require Import QArith Qround Qminmax Qabs Qpower Lqa.
From stdpp Require Import base option list sorting gmap strings.

Local Open Scope Q_scope.

(** Order and equality of rationals are decidable by integer arithmetic. *)
#[global] Instance Qlt_dec : RelDecision Qlt :=
  fun x y => decide (Qnum x * QDen y < Qnum y * QDen x)%Z.
#[global] Instance Qle_dec : RelDecision Qle :=
  fun x y => decide (Qnum x * QDen y <= Qnum y * QDen x)%Z.
#[global] Instance Qeq_dec' : RelDecision Qeq :=
  fun x y => decide (Qnum x * QDen y = Qnum y * QDen x)%Z.

(** ** Floats with the IEEE special values *)

Module NpFloat.

Inductive np_float : Type :=
| Fin (q : Q)
| PInf
| NInf
| NaN.

(** Sign of a rational, as a comparison with zero. *)
Definition Qsign (q : Q) : comparison := q ?= 0.

(** [a / b] on numpy scalars and arrays: never raises. *)
Definition np_div (a b : Q) : np_float :=
  match Qsign b with
  | Eq => match Qsign a with
          | Eq => NaN
          | Gt => PInf
          | Lt => NInf
          end
  | _ => Fin (a / b)
  end.

Definition np_neg (x : np_float) : np_float :=
  match x with
  | Fin q => Fin (- q)
  | PInf => NInf
  | NInf => PInf
  | NaN => NaN
  end.

Definition np_add (x y : np_float) : np_float :=
  match x, y with
  | NaN, _ | _, NaN => NaN
  | Fin a, Fin b => Fin (a + b)
  | PInf, NInf | NInf, PInf => NaN
  | PInf, _ | _, PInf => PInf
  | NInf, _ | _, NInf => NInf
  end.

Definition np_sub (x y : np_float) : np_float := np_add x (np_neg y).

Definition inf_of_sign (c : comparison) : np_float :=
  match c with
  | Eq => NaN
  | Gt => PInf
  | Lt => NInf
  end.

Definition np_mul (x y : np_float) : np_float :=
  match x, y with
  | NaN, _ | _, NaN => NaN
  | Fin a, Fin b => Fin (a * b)
  | Fin a, PInf | PInf, Fin a => inf_of_sign (Qsign a)
  | Fin a, NInf | NInf, Fin a => inf_of_sign (CompOpp (Qsign a))
  | PInf, PInf | NInf, NInf => PInf
  | PInf, NInf | NInf, PInf => NInf
  end.

Definition np_abs (x : np_float) : np_float :=
  match x with
  | Fin q => Fin (Qabs q)
  | PInf | NInf => PInf
  | NaN => NaN
  end.

(** [x < y]; every comparison with NaN is false. *)
Definition np_lt (x y : np_float) : bool :=
  match x, y with
  | NaN, _ | _, NaN => false
  | Fin a, Fin b => bool_decide (a < b)
  | NInf, NInf | PInf, _ | _, NInf => false
  | NInf, _ | _, PInf => true
  end.

Definition np_gt (x y : np_float) : bool := np_lt y x.

(** [x <= y] and [x >= y]; false on NaN. *)
Definition np_le (x y : np_float) : bool :=
  match x, y with
  | NaN, _ | _, NaN => false
  | Fin a, Fin b => bool_decide (a <= b)
  | NInf, _ | _, PInf => true
  | PInf, _ | _, NInf => false
  end.

Definition np_ge (x y : np_float) : bool := np_le y x.

(** Python's builtin [min(a, b)] and [max(a, b)]: the first argument is kept
    unless the second compares strictly smaller (greater). *)
Definition py_min (a b : np_float) : np_float := if np_lt b a then b else a.
Definition py_max (a b : np_float) : np_float := if np_gt b a then b else a.

End NpFloat.
Export NpFloat.

(** ** Binary64: the rounding of Python's and numpy's floats *)

Module Binary64.

Definition pow2 (e : Z) : Q := 2 ^ e.
Arguments pow2 : simpl never.

(** The binade of a positive rational: [floor (log2 x)]. *)
Definition Qlog2 (x : Q) : Z :=
  let k := (Z.log2 (Qnum x) - Z.log2 (QDen x))%Z in
  if decide (pow2 k <= x) then k else (k - 1)%Z.

(** The nearest integer, the even one of two that are equally near. *)
Definition rne (y : Q) : Z :=
  let f := Qfloor y in
  match Qcompare (y - inject_Z f) (1 # 2) with
  | Lt => f
  | Gt => (f + 1)%Z
  | Eq => if Z.even f then f else (f + 1)%Z
  end.

(** The exponent of the unit in the last place of a positive rational: 53
    significant bits, and no unit below [2^-1074] (subnormal numbers). *)
Definition exponent (x : Q) : Z := Z.max (Qlog2 x - 52) (-1074).

Definition round_pos (x : Q) : Q :=
  let e := exponent x in inject_Z (rne (x / pow2 e)) * pow2 e.

(** Round to nearest, ties to even, before the test for overflow. *)
Definition round_finite (x : Q) : Q :=
  match Qcompare x 0 with
  | Eq => 0
  | Gt => round_pos x
  | Lt => - round_pos (- x)
  end.

(** The value of a real result as a binary64 number. *)
Definition round64 (x : Q) : np_float :=
  let r := round_finite x in
  if decide (pow2 1024 <= r) then PInf
  else if decide (r <= - pow2 1024) then NInf
  else Fin r.

Definition b64 (x : np_float) : np_float :=
  match x with
  | Fin q => round64 q
  | _ => x
  end.

(** [x * y], [x - y] and [a / b] on floats: the exact result, rounded. *)
Definition b64_mul (x y : np_float) : np_float := b64 (np_mul x y).
Definition b64_sub (x y : np_float) : np_float := b64 (np_sub x y).
Definition b64_div (a b : Q) : np_float := b64 (np_div a b).

(** The conversion of a numpy integer to a float, for a division. *)
Definition float_of_int (z : Z) : Q := round_finite (inject_Z z).

(** Half the distance from 1 to the next float. *)
Definition unit_roundoff : Q := pow2 (-53).

End Binary64.
Export Binary64.

(** ** Descriptive statistics on the non-null values of a column *)

Module Stats.

Definition Qsum (l : list Q) : Q := foldr Qplus 0 l.

Definition Qlen (l : list Q) : Q := inject_Z (Z.of_nat (length l)).

(** [Series.mean()], [np.nanmean], on data that is not empty. *)
Definition average (l : list Q) : Q := Qsum l / Qlen l.

Definition sorted (l : list Q) : list Q := merge_sort Qle l.

Definition at_rank (a : list Q) (i : nat) : Q := nth i a 0.

(** Linear interpolation between the two order statistics around the virtual
    index [pos] (pandas' and numpy's default [interpolation='linear']). *)
Definition lerp_rank (a : list Q) (pos : Q) : Q :=
  let lo := Z.to_nat (Qfloor pos) in
  let hi := Z.to_nat (Qceiling pos) in
  at_rank a lo + (pos - inject_Z (Qfloor pos)) * (at_rank a hi - at_rank a lo).

(** [Series.quantile(q)] on data without nulls. The callers skip empty
    columns before they ask for a quantile. *)
Definition quantile (q : Q) (data : list Q) : Q :=
  lerp_rank (sorted data) (q * (Qlen data - 1)).

(** The IQR fences [(lower_bound, upper_bound)], computed by the same five
    lines in the analyzer and in the cleaner. *)
Definition iqr_fences (vals : list Q) : Q * Q :=
  let Q1 := quantile (1 # 4) vals in
  let Q3 := quantile (3 # 4) vals in
  let IQR := Q3 - Q1 in
  (Q1 - (3 # 2) * IQR, Q3 + (3 # 2) * IQR).

(** [Series.median()] and [np.median]: the middle value, or the mean of the two
    middle values. *)
Definition median (data : list Q) : Q :=
  let a := sorted data in
  let n := length data in
  if Nat.even n
  then (at_rank a (n / 2 - 1) + at_rank a (n / 2)) / 2
  else at_rank a (n / 2).

(** Population variance, [np.var] with [ddof=0]; [scipy.stats.zscore] divides
    by its square root. *)
Definition variance (l : list Q) : Q :=
  let m := average l in
  Qsum (map (fun x => (x - m) * (x - m)) l) / Qlen l.

End Stats.
Export Stats.

(** ** The Table: a pandas DataFrame *)

Module Frame.

(** A Python object held by an [object] column: a string, a number, or a
    [Timestamp] (an [object] column gets one when a datetime column is filled
    with a value that is not a date). *)
Inductive pyobj : Type :=
| PStr (s : string)
| PNum (q : Q)
| PTime (t : Z).

(** A column with its dtype. [None] is the null marker (NaN, None, NaT). *)
Inductive Series : Type :=
| NumericS (v : list (option Q))
| ObjectS (v : list (option pyobj))
| DatetimeS (v : list (option Z))
| CategoryS (v : list (option pyobj)).

(** [str(series.dtype)] *)
Definition dtype_name (s : Series) : string :=
  match s with
  | NumericS _ => "float64"
  | ObjectS _ => "object"
  | DatetimeS _ => "datetime64[ns]"
  | CategoryS _ => "category"
  end.

Definition is_numeric_dtype (s : Series) : bool :=
  match s with NumericS _ => true | _ => false end.

Definition is_datetime64_any_dtype (s : Series) : bool :=
  match s with DatetimeS _ => true | _ => false end.

Definition is_null {A} (c : option A) : bool :=
  match c with None => true | Some _ => false end.

Definition series_len (s : Series) : nat :=
  match s with
  | NumericS v => length v
  | ObjectS v | CategoryS v => length v
  | DatetimeS v => length v
  end.

(** [series.isnull()] *)
Definition isnull (s : Series) : list bool :=
  match s with
  | NumericS v => map is_null v
  | ObjectS v | CategoryS v => map is_null v
  | DatetimeS v => map is_null v
  end.

Definition count_true (m : list bool) : nat := length (filter (fun b => b = true) m).

(** [series.isnull().sum()] *)
Definition null_count (s : Series) : nat := count_true (isnull s).

(** Keep the positions where the mask holds (boolean indexing). *)
Fixpoint select {A} (mask : list bool) (l : list A) : list A :=
  match mask, l with
  | b :: mask', x :: l' => if b then x :: select mask' l' else select mask' l'
  | _, _ => []
  end.

Definition series_select (mask : list bool) (s : Series) : Series :=
  match s with
  | NumericS v => NumericS (select mask v)
  | ObjectS v => ObjectS (select mask v)
  | DatetimeS v => DatetimeS (select mask v)
  | CategoryS v => CategoryS (select mask v)
  end.

(** Cells of any dtype, for comparing whole rows. *)
Inductive cell : Type :=
| CNull
| CNum (q : Q)
| CStr (s : string)
| CTime (t : Z).

Definition obj_cell (o : option pyobj) : cell :=
  match o with
  | None => CNull
  | Some (PStr s) => CStr s
  | Some (PNum q) => CNum q
  | Some (PTime t) => CTime t
  end.

Definition series_cells (s : Series) : list cell :=
  match s with
  | NumericS v => map (fun c => match c with Some q => CNum q | None => CNull end) v
  | ObjectS v | CategoryS v => map obj_cell v
  | DatetimeS v => map (fun c => match c with Some t => CTime t | None => CNull end) v
  end.

(** Equality of cells as [duplicated] and [nunique] see it: numbers by value,
    nulls equal to each other. A column holds one kind of null marker, as a
    column read from a file does; [None] next to [NaN] in one [object]
    column, which pandas tells apart, is outside the model. *)
Definition cell_eqb (a b : cell) : bool :=
  match a, b with
  | CNull, CNull => true
  | CNum x, CNum y => bool_decide (x == y)
  | CStr x, CStr y => bool_decide (x = y)
  | CTime x, CTime y => bool_decide (x = y)
  | _, _ => false
  end.

Fixpoint row_eqb (r1 r2 : list cell) : bool :=
  match r1, r2 with
  | [], [] => true
  | a :: r1', b :: r2' => cell_eqb a b && row_eqb r1' r2'
  | _, _ => false
  end.

(** A DataFrame: the row labels and the named columns, in order. *)
Record DataFrame : Type := mkDataFrame {
  index : list nat;
  columns : list (string * Series)
}.

(** [len(df)], [df.shape], [df.size] *)
Definition nrows (df : DataFrame) : nat := length (index df).
Definition ncols (df : DataFrame) : nat := length (columns df).
Definition shape (df : DataFrame) : nat * nat := (nrows df, ncols df).
Definition df_size (df : DataFrame) : nat := (nrows df * ncols df)%nat.

Definition column_names (df : DataFrame) : list string := map fst (columns df).

Fixpoint assoc {V} (k : string) (d : list (string * V)) : option V :=
  match d with
  | [] => None
  | (k', v) :: d' => if bool_decide (k = k') then Some v else assoc k d'
  end.

(** [df[col]] *)
Definition get_column (df : DataFrame) (col : string) : option Series :=
  assoc col (columns df).

Fixpoint replace_assoc {V} (k : string) (v : V) (d : list (string * V)) : list (string * V) :=
  match d with
  | [] => []
  | (k', v') :: d' =>
      if bool_decide (k = k') then (k', v) :: d' else (k', v') :: replace_assoc k v d'
  end.

(** [df[col] = s]: an existing column keeps its place, a new one goes last. *)
Definition set_column (df : DataFrame) (col : string) (s : Series) : DataFrame :=
  match get_column df col with
  | Some _ => mkDataFrame (index df) (replace_assoc col s (columns df))
  | None => mkDataFrame (index df) (columns df ++ [(col, s)])
  end.

(** [df.drop(columns=[col])]: [None] is the [KeyError] on an unknown name. *)
Definition drop_column (df : DataFrame) (col : string) : option DataFrame :=
  match get_column df col with
  | Some _ =>
      Some (mkDataFrame (index df)
              (filter (fun kv => negb (bool_decide (kv.1 = col))) (columns df)))
  | None => None
  end.

Definition select_rows (mask : list bool) (df : DataFrame) : DataFrame :=
  mkDataFrame (select mask (index df))
              (map (fun kv => (kv.1, series_select mask kv.2)) (columns df)).

(** [df.drop(index=labels)]: [None] is the [KeyError] on a label that is not
    in the index. *)
Definition drop_index (df : DataFrame) (labels : list nat) : option DataFrame :=
  if forallb (fun l => bool_decide (l ∈ index df)) labels
  then Some (select_rows (map (fun l => negb (bool_decide (l ∈ labels))) (index df)) df)
  else None.

(** [df.select_dtypes(include=[np.number]).columns] *)
Definition numeric_columns (df : DataFrame) : list string :=
  map fst (filter (fun kv => is_numeric_dtype kv.2 = true) (columns df)).

(** The rows, each as the list of its cells in column order. *)
Definition row_at (df : DataFrame) (i : nat) : list cell :=
  map (fun kv => nth i (series_cells kv.2) CNull) (columns df).

Definition rows (df : DataFrame) : list (list cell) :=
  map (row_at df) (seq 0 (nrows df)).

(** [df.duplicated()]: a row is marked when an earlier row equals it. *)
Fixpoint duplicated_from (seen rs : list (list cell)) : list bool :=
  match rs with
  | [] => []
  | r :: rs' => existsb (row_eqb r) seen :: duplicated_from (r :: seen) rs'
  end.

Definition duplicated (df : DataFrame) : list bool := duplicated_from [] (rows df).

(** [df.duplicated(keep=False)]: every row that has a twin. *)
Definition duplicated_all (df : DataFrame) : list bool :=
  let rs := rows df in
  imap (fun i r => existsb (fun jr => negb (bool_decide (jr.1 = i)) && row_eqb r jr.2)
                     (imap (fun j r' => (j, r')) rs)) rs.

(** [df.drop_duplicates()] *)
Definition drop_duplicates (df : DataFrame) : DataFrame :=
  select_rows (map negb (duplicated df)) df.

(** The non-null values of a numeric column with their row labels:
    [df[col].dropna()]. *)
Fixpoint dropna (labels : list nat) (v : list (option Q)) : list (nat * Q) :=
  match labels, v with
  | l :: labels', c :: v' =>
      match c with
      | Some q => (l, q) :: dropna labels' v'
      | None => dropna labels' v'
      end
  | _, _ => []
  end.

End Frame.
Export Frame.

(** ** Library functions taken as given *)

(** What pandas and scikit-learn compute that is not arithmetic over the
    cells. [None] stands for a raised exception. *)
Record Library : Type := mkLibrary {
  (** [pd.to_numeric] on one string, [errors='coerce']: [None] is NaN. *)
  str_to_numeric : string -> option Q;
  (** whether [pd.to_datetime(series)] returns without raising *)
  to_datetime_ok : Series -> bool;
  (** [pd.to_datetime(series, errors='coerce')] *)
  to_datetime_coerce : Series -> option Series;
  (** [series.astype('category')] *)
  astype_category : Series -> option Series;
  (** [fit_predict(X) == -1] for the two ensemble detectors, on the
      median-filled numeric columns *)
  isolation_forest : list (list np_float) -> option (list bool);
  local_outlier_factor : list (list np_float) -> option (list bool);
  (** [SimpleImputer(strategy='most_frequent').fit_transform] on one column *)
  impute_most_frequent : Series -> option Series;
  (** [KNNImputer(n_neighbors=k).fit_transform] on numeric columns: the
      imputed columns, in the order given *)
  knn_impute : nat -> list (list (option Q)) -> option (list (list Q));
  (** [str.strip], [re.sub(r'\s+', ' ', _)], case-insensitive literal
      replacement, [str.title], [str.capitalize], [str.lower] *)
  str_strip : string -> string;
  str_collapse_spaces : string -> string;
  str_replace_nocase : string -> string -> string -> string;
  str_title : string -> string;
  str_capitalize : string -> string;
  str_lower : string -> string;
  str_contains : string -> string -> bool;
  (** [StandardScaler().fit_transform] on the numeric columns *)
  standard_scale : list (list (option Q)) -> option (list (list (option Q)));
  (** [LabelEncoder().fit_transform(series.astype(str))] *)
  label_encode : Series -> option (list Q)
}.

(** ** The analysis report *)

Module Report.

Record MissingData : Type := mkMissingData {
  total_missing : nat;
  total_cells : nat;
  missing_percentage : np_float;
  column_missing : list (string * nat);
  column_missing_pct : list (string * np_float);
  missing_severity : option string
}.

Record Duplicates : Type := mkDuplicates {
  exact_duplicates : nat;
  exact_duplicate_pct : np_float;
  duplicate_rows : nat;
  duplicate_severity : string
}.

(** The per-column entry of ["statistical"]; [outlier_indices] maps a method
    name to the row labels it flagged. *)
Record ColumnOutliers : Type := mkColumnOutliers {
  iqr_outliers : nat;
  zscore_outliers : nat;
  modified_zscore_outliers : nat;
  iqr_bounds : Q * Q;
  outlier_indices : list (string * list nat)
}.

(** A value of the ["ml_based"] dict: the text of ["message"], a detector's
    result, or a detector's error. Only [MLFound] is a dict with
    ["outlier_indices"]. *)
Inductive MLEntry : Type :=
| MLText (msg : string)
| MLFound (outlier_count : nat) (ml_outlier_indices : list nat)
| MLError.

Record Combined : Type := mkCombined {
  total_outliers : nat;
  high_confidence_outliers : list nat;
  all_outlier_indices : list nat
}.

(** The ["outliers"] section: only a message when there is no numeric column,
    else the three sub-sections. *)
Inductive Outliers : Type :=
| OutliersMessage (msg : string)
| OutliersFound (statistical : list (string * ColumnOutliers))
                (ml_based : list (string * MLEntry))
                (combined : Combined).

(** [outliers.get("combined", {})] / ["combined" in outliers] *)
Definition get_combined (o : Outliers) : option Combined :=
  match o with
  | OutliersMessage _ => None
  | OutliersFound _ _ c => Some c
  end.

(** [self.analysis_results] when the score is computed. *)
Record AnalysisResults : Type := mkAnalysisResults {
  basic_info_shape : nat * nat;
  missing_data : MissingData;
  duplicates : Duplicates;
  outliers : Outliers;
  quality_score : np_float
}.

(** The optional [analysis_results] argument of the cleaner, as far as the
    cleaner reads it: the keys ["missing_data"] and ["outliers"], each
    possibly absent. A dict with neither key behaves as an empty one. *)
Record AnalysisDict : Type := mkAnalysisDict {
  dict_missing_data : option MissingData;
  dict_outliers : option Outliers
}.

Definition as_dict (r : AnalysisResults) : AnalysisDict :=
  mkAnalysisDict (Some (missing_data r)) (Some (outliers r)).

End Report.
Export Report.

(** ** [DataQualityAnalyzer] (data_analyzer.py) *)

Module DataQualityAnalyzer.

Definition Qnat (n : nat) : Q := inject_Z (Z.of_nat n).

(** [(count / total) * 100] on numpy integers, in exact arithmetic: the value
    the two roundings of [percentage_binary64] approximate. *)
Definition percentage (count total : nat) : np_float :=
  np_mul (np_div (Qnat count) (Qnat total)) (Fin 100).

Definition _assess_missing_severity (missing_percentage : np_float) : string :=
  if np_lt missing_percentage (Fin 5) then "low"
  else if np_lt missing_percentage (Fin 20) then "medium"
  else "high".

(** The ["missing_patterns"] entry (clusters of consecutive nulls) is not
    modelled. *)
Definition _analyze_missing_data (df : DataFrame) : MissingData :=
  let total_missing := sum_list (map (fun kv => null_count kv.2) (columns df)) in
  let total_cells := df_size df in
  let missing_percentage := percentage total_missing total_cells in
  let column_missing := map (fun kv => (kv.1, null_count kv.2)) (columns df) in
  let column_missing_pct :=
    map (fun kv => (kv.1, percentage (null_count kv.2) (nrows df))) (columns df) in
  mkMissingData total_missing total_cells missing_percentage
                column_missing column_missing_pct
                (Some (_assess_missing_severity missing_percentage)).

(** [(count / total) * 100] as the machine evaluates it on a numpy integer:
    both integers are converted to floats, the quotient is rounded and so is
    the product. *)
Definition percentage_binary64 (count total : nat) : np_float :=
  b64_mul (b64_div (float_of_int (Z.of_nat count)) (float_of_int (Z.of_nat total)))
          (Fin 100).

(** [_analyze_missing_data] as the machine evaluates it: the same report, its
    percentages rounded. *)
Definition _analyze_missing_data_binary64 (df : DataFrame) : MissingData :=
  let total_missing := sum_list (map (fun kv => null_count kv.2) (columns df)) in
  let total_cells := df_size df in
  let missing_percentage := percentage_binary64 total_missing total_cells in
  let column_missing := map (fun kv => (kv.1, null_count kv.2)) (columns df) in
  let column_missing_pct :=
    map (fun kv => (kv.1, percentage_binary64 (null_count kv.2) (nrows df)))
        (columns df) in
  mkMissingData total_missing total_cells missing_percentage
                column_missing column_missing_pct
                (Some (_assess_missing_severity missing_percentage)).

Definition _assess_duplicate_severity (duplicate_pct : np_float) : string :=
  if np_lt duplicate_pct (Fin 1) then "low"
  else if np_lt duplicate_pct (Fin 10) then "medium"
  else "high".

(** The ["near_duplicates"] entry (pairwise correlation of rows) is not
    modelled. *)
Definition _analyze_duplicates (df : DataFrame) : Duplicates :=
  let exact_duplicates := count_true (duplicated df) in
  let exact_duplicate_pct := percentage exact_duplicates (nrows df) in
  mkDuplicates exact_duplicates exact_duplicate_pct
               (count_true (duplicated_all df))
               (_assess_duplicate_severity exact_duplicate_pct).

(** [(x < lower_bound) | (x > upper_bound)] *)
Definition out_of_fences (bounds : Q * Q) (x : Q) : bool :=
  bool_decide (x < bounds.1) || bool_decide (bounds.2 < x).

(** [np.abs(stats.zscore(col_data)) > 3]. The score divides by the population
    standard deviation; [|x - m| / sd > 3] is compared in squared form, which
    is also false on a constant column, where the score is NaN. *)
Definition zscore_flag (vals : list Q) (x : Q) : bool :=
  let m := average vals in
  bool_decide (9 * variance vals < (x - m) * (x - m)).

Definition mad (vals : list Q) : Q :=
  let median := median vals in
  Stats.median (map (fun x => Qabs (x - median)) vals).

(** [0.6745 * (col_data - median) / mad] *)
Definition modified_z_score (vals : list Q) (x : Q) : np_float :=
  np_div ((6745 # 10000) * (x - median vals)) (mad vals).

Definition modified_zscore_flag (vals : list Q) (x : Q) : bool :=
  np_gt (np_abs (modified_z_score vals x)) (Fin (7 # 2)).

Definition flagged (f : Q -> bool) (col_data : list (nat * Q)) : list nat :=
  map fst (filter (fun lx => f lx.2 = true) col_data).

(** The three statistical detectors on the non-null values [col_data] of one
    column, with their row labels: the body of the loop of
    [_statistical_outlier_detection]. *)
Definition column_outliers (col_data : list (nat * Q)) : ColumnOutliers :=
  let vals := map snd col_data in
  let bounds := iqr_fences vals in
  let iqr := flagged (out_of_fences bounds) col_data in
  let zscore := flagged (zscore_flag vals) col_data in
  let modified_zscore := flagged (modified_zscore_flag vals) col_data in
  mkColumnOutliers (length iqr) (length zscore) (length modified_zscore) bounds
    [("iqr", iqr); ("zscore", zscore); ("modified_zscore", modified_zscore)].

Definition _statistical_outlier_detection (df : DataFrame) (numeric_cols : list string)
  : list (string * ColumnOutliers) :=
  flat_map (fun col =>
    match get_column df col with
    | Some (NumericS v) =>
        let col_data := dropna (index df) v in
        match col_data with
        | [] => []
        | _ => [(col, column_outliers col_data)]
        end
    | _ => []
    end) numeric_cols.

(** [df[numeric_cols].fillna(df[numeric_cols].median())]: a column without
    any value keeps its NaNs. *)
Definition fill_with_median (v : list (option Q)) : list np_float :=
  let data := omap id v in
  map (fun c => match c with
                | Some q => Fin q
                | None => match data with [] => NaN | _ => Fin (median data) end
                end) v.

Section WithLibrary.
Context (lib : Library).

Definition ml_entry (index : list nat) (prediction : option (list bool)) : MLEntry :=
  match prediction with
  | Some is_outlier =>
      let found := select is_outlier index in
      MLFound (length found) found
  | None => MLError
  end.

Definition _ml_outlier_detection (df : DataFrame) (numeric_cols : list string)
  : list (string * MLEntry) :=
  let numeric_df :=
    flat_map (fun col => match get_column df col with
                         | Some (NumericS v) => [fill_with_median v]
                         | _ => []
                         end) numeric_cols in
  if bool_decide (nrows df < 10)%nat
  then [("message", MLText "Insufficient data for ML outlier detection")]
  else [("isolation_forest", ml_entry (index df) (isolation_forest lib numeric_df));
        ("local_outlier_factor", ml_entry (index df) (local_outlier_factor lib numeric_df))].

(** The set [all_outlier_indices] after the two loops. *)
Definition statistical_indices (statistical : list (string * ColumnOutliers)) : gset nat :=
  foldl (fun acc cr =>
           foldl (fun acc' mi => acc' ∪ list_to_set mi.2) acc (outlier_indices cr.2))
        ∅ statistical.

Definition ml_indices (acc : gset nat) (ml_based : list (string * MLEntry)) : gset nat :=
  foldl (fun acc' mr =>
           match mr.2 with
           | MLFound _ indices => acc' ∪ list_to_set indices
           | _ => acc'
           end) acc ml_based.

(** [list(all_outlier_indices)] lists the set in some order; here in the
    order of [elements]. *)
Definition _combine_outlier_results (statistical : list (string * ColumnOutliers))
    (ml_based : list (string * MLEntry)) : Combined :=
  let all_outlier_indices := ml_indices (statistical_indices statistical) ml_based in
  mkCombined (size all_outlier_indices) [] (elements all_outlier_indices).

Definition _analyze_outliers (df : DataFrame) : Outliers :=
  let numeric_cols := numeric_columns df in
  match numeric_cols with
  | [] => OutliersMessage "No numeric columns found for outlier analysis"
  | _ =>
      let statistical := _statistical_outlier_detection df numeric_cols in
      let ml_based := _ml_outlier_detection df numeric_cols in
      OutliersFound statistical ml_based (_combine_outlier_results statistical ml_based)
  end.

End WithLibrary.

(** [pd.to_numeric(series, errors='coerce').notna().sum()]: numbers convert, a
    string converts when the library parses it, a timestamp converts to its
    integer value. A categorical column is read through its values. *)
Definition obj_converts (lib : Library) (c : option pyobj) : bool :=
  match c with
  | None => false
  | Some (PNum _) => true
  | Some (PStr s) => negb (is_null (str_to_numeric lib s))
  | Some (PTime _) => false
  end.

Definition numeric_count (lib : Library) (series : Series) : nat :=
  match series with
  | NumericS v => count_true (map (fun c => negb (is_null c)) v)
  | ObjectS v | CategoryS v => count_true (map (obj_converts lib) v)
  | DatetimeS v => length v
  end.

(** [series.nunique()]: the number of distinct non-null values. *)
Fixpoint distinct (seen l : list cell) : list cell :=
  match l with
  | [] => []
  | c :: l' =>
      if existsb (cell_eqb c) seen then distinct seen l'
      else c :: distinct (c :: seen) l'
  end.

Definition nunique (series : Series) : nat :=
  length (distinct [CNull] (series_cells series)).

(** The last two tests of [_suggest_dtype]. [series.nunique() / len(series)]
    divides Python integers: [None] is the [ZeroDivisionError] on an empty
    series. *)
Definition categorical_or_object (series : Series) : option string :=
  match series_len series with
  | O => None
  | _ =>
      let unique_ratio := Qnat (nunique series) / Qnat (series_len series) in
      if bool_decide (unique_ratio < 1 # 2) then Some "categorical" else Some "object"
  end.

(** [numeric_series.notna().sum() / len(series) > 0.8] *)
Definition mostly_numeric (lib : Library) (series : Series) : bool :=
  np_gt (np_div (Qnat (numeric_count lib series)) (Qnat (series_len series)))
        (Fin (8 # 10)).

Definition _suggest_dtype (lib : Library) (series : Series) : option string :=
  if mostly_numeric lib series then Some "numeric"
  else if to_datetime_ok lib series then Some "datetime"
  else categorical_or_object series.

(** [score -= x * w] and the final clamp. *)
Definition _calculate_quality_score (analysis_results : AnalysisResults) : np_float :=
  let score := Fin 100 in
  let missing_pct := missing_percentage (missing_data analysis_results) in
  let score := np_sub score (np_mul missing_pct (Fin 2)) in
  let duplicate_pct := exact_duplicate_pct (duplicates analysis_results) in
  let score := np_sub score (np_mul duplicate_pct (Fin (3 # 2))) in
  let total_outliers :=
    match get_combined (outliers analysis_results) with
    | Some outlier_info => total_outliers outlier_info
    | None => 0%nat
    end in
  let total_rows := (basic_info_shape analysis_results).1 in
  let outlier_pct :=
    if bool_decide (0 < total_rows)%nat
    then Fin (Qnat total_outliers / Qnat total_rows * 100)
    else Fin 0 in
  let score := np_sub score (np_mul outlier_pct (Fin (1 # 2))) in
  py_max (Fin 0) (py_min (Fin 100) score).

(** [_calculate_quality_score] as the machine evaluates it: every product and
    every subtraction is rounded; the quotient of the two Python integers is
    the rounded exact quotient. *)
Definition _calculate_quality_score_binary64 (analysis_results : AnalysisResults)
  : np_float :=
  let score := Fin 100 in
  let missing_pct := missing_percentage (missing_data analysis_results) in
  let score := b64_sub score (b64_mul missing_pct (Fin 2)) in
  let duplicate_pct := exact_duplicate_pct (duplicates analysis_results) in
  let score := b64_sub score (b64_mul duplicate_pct (Fin (3 # 2))) in
  let total_outliers :=
    match get_combined (outliers analysis_results) with
    | Some outlier_info => total_outliers outlier_info
    | None => 0%nat
    end in
  let total_rows := (basic_info_shape analysis_results).1 in
  let outlier_pct :=
    if bool_decide (0 < total_rows)%nat
    then b64_mul (b64_div (Qnat total_outliers) (Qnat total_rows)) (Fin 100)
    else Fin 0 in
  let score := b64_sub score (b64_mul outlier_pct (Fin (1 # 2))) in
  py_max (Fin 0) (py_min (Fin 100) score).

(** [analyze_dataset], restricted to the sections the score reads. *)
Definition analyze_dataset (lib : Library) (df : DataFrame) : AnalysisResults :=
  let analysis_results :=
    mkAnalysisResults (shape df) (_analyze_missing_data df) (_analyze_duplicates df)
                      (_analyze_outliers lib df) (Fin 0) in
  mkAnalysisResults (basic_info_shape analysis_results) (missing_data analysis_results)
                    (duplicates analysis_results) (outliers analysis_results)
                    (_calculate_quality_score analysis_results).

(** *** Missing patterns *)

(** An entry of ["missing_clusters"]. *)
Record MissingCluster : Type := mkMissingCluster {
  cluster_column : string;
  start_index : nat;
  end_index : nat;
  cluster_length : nat;
  cluster_type : string
}.

(** The groups of [missing_series.groupby(missing_starts)] are the maximal
    runs of equal consecutive values, in order; a cluster is recorded for
    each run of missing values, with its first label, its last label and its
    length. The scan keeps the run of missing values that is still open. *)
Fixpoint missing_runs (col : string) (open : option (nat * nat * nat))
    (labelled : list (nat * bool)) : list MissingCluster :=
  match labelled with
  | [] =>
      match open with
      | Some (s, e, n) => [mkMissingCluster col s e n "consecutive"]
      | None => []
      end
  | (label, true) :: rest =>
      match open with
      | Some (s, e, n) => missing_runs col (Some (s, label, S n)) rest
      | None => missing_runs col (Some (label, label, 1%nat)) rest
      end
  | (label, false) :: rest =>
      match open with
      | Some (s, e, n) =>
          mkMissingCluster col s e n "consecutive" :: missing_runs col None rest
      | None => missing_runs col None rest
      end
  end.

(** [missing_matrix] is [df.isnull()]: the index and a mask per column. *)
Definition _find_missing_clusters (index : list nat)
    (missing_matrix : list (string * list bool)) : list MissingCluster :=
  flat_map (fun cm =>
              if existsb (fun b => b) cm.2
              then missing_runs cm.1 None (zip index cm.2)
              else []) missing_matrix.

Record MissingPatterns : Type := mkMissingPatterns {
  completely_missing_columns : list string;
  completely_missing_rows : nat;
  missing_clusters : list MissingCluster
}.

Definition is_cnull (c : cell) : bool :=
  match c with CNull => true | _ => false end.

Definition _identify_missing_patterns (df : DataFrame) : MissingPatterns :=
  let completely_missing :=
    map fst (filter (fun kv => forallb (fun b => b) (isnull kv.2) = true) (columns df)) in
  let completely_missing_rows :=
    count_true (map (forallb is_cnull) (rows df)) in
  let missing_matrix := map (fun kv => (kv.1, isnull kv.2)) (columns df) in
  mkMissingPatterns completely_missing completely_missing_rows
                    (_find_missing_clusters (index df) missing_matrix).

(** *** Mixed types *)

Section WithDateParser.

(** Whether [pd.to_datetime(value)] accepts one string. *)
Context (str_is_datetime : string -> bool).

Definition date_formats_of (values : list (option pyobj)) : gset string :=
  foldl (fun date_formats value =>
           match value with
           | Some (PStr v) =>
               if str_is_datetime v then date_formats ∪ {["detected"]}
               else date_formats
           | _ => date_formats
           end) ∅ values.

(** Only the strings of a column are tried. *)
Definition _detect_date_formats (series : Series) : list string :=
  match series with
  | ObjectS v | CategoryS v => elements (date_formats_of v)
  | _ => []
  end.

Definition _check_mixed_types (lib : Library) (series : Series) : list string :=
  let numeric_count := numeric_count lib series in
  let string_count := (series_len series - numeric_count)%nat in
  let issues :=
    if bool_decide (0 < numeric_count)%nat && bool_decide (0 < string_count)%nat
    then ["mixed_numeric_string"] else [] in
  let date_formats := _detect_date_formats series in
  if bool_decide (1 < length date_formats)%nat
  then issues ++ ["mixed_date_formats"] else issues.

(** An entry of ["data_types"], without ["format_issues"]. *)
Record TypeAnalysis : Type := mkTypeAnalysis {
  dtype : string;
  mixed_types : list string;
  suggested_dtype : string
}.

End WithDateParser.

(** *** Distributions and correlations *)

(** [_assess_distribution_type] on the two statistics [data.skew()] and
    [data.kurtosis()]. *)
Definition _assess_distribution_type (skewness kurtosis : np_float) : string :=
  if np_lt (np_abs skewness) (Fin (1 # 2)) && np_lt (np_abs kurtosis) (Fin (1 # 2))
  then "normal"
  else if np_gt skewness (Fin 1) then "right_skewed"
  else if np_lt skewness (Fin (- (1))) then "left_skewed"
  else "approximately_normal".

Record HighCorrelation : Type := mkHighCorrelation {
  variable1 : string;
  variable2 : string;
  correlation : np_float;
  correlation_type : string
}.

(** The correlation matrix is square: its column names and
    [corr_matrix.iloc[i, j]]. *)
Definition _find_high_correlations (names : list string)
    (corr_matrix : nat -> nat -> np_float) (threshold : Q) : list HighCorrelation :=
  let n := length names in
  flat_map (fun i =>
    flat_map (fun j =>
      let corr_value := corr_matrix i j in
      if np_ge (np_abs corr_value) (Fin threshold)
      then [mkHighCorrelation (nth i names "") (nth j names "") corr_value
              (if np_gt corr_value (Fin 0) then "positive" else "negative")]
      else []) (seq (i + 1) (n - (i + 1)))) (seq 0 n).

(** *** Recommendations *)

Section WithFormat.

(** [f"{x:.1f}"] and [str(n)]. *)
Context (format_1f : np_float -> string) (str_of_nat : nat -> string).

Definition _generate_recommendations (analysis_results : AnalysisResults)
    (data_types : list (string * TypeAnalysis)) : list string :=
  let missing_data := missing_data analysis_results in
  let missing :=
    if np_gt (missing_percentage missing_data) (Fin 5)
    then ["High missing data (" +:+ format_1f (missing_percentage missing_data)
          +:+ "%). Consider imputation strategies or data collection improvements."]
    else [] in
  let duplicates := duplicates analysis_results in
  let duplicate :=
    if np_gt (exact_duplicate_pct duplicates) (Fin 1)
    then ["Duplicate data detected (" +:+ format_1f (exact_duplicate_pct duplicates)
          +:+ "%). Remove duplicates to improve data quality."]
    else [] in
  let outlier :=
    match get_combined (outliers analysis_results) with
    | Some combined =>
        if bool_decide (0 < total_outliers combined)%nat
        then ["Outliers detected (" +:+ str_of_nat (total_outliers combined)
              +:+ " points). Review and handle outliers appropriately."]
        else []
    | None => []
    end in
  let types :=
    flat_map (fun ca =>
                match mixed_types ca.2 with
                | [] => []
                | _ => ["Column '" +:+ ca.1
                        +:+ "' has mixed data types. Standardize data format."]
                end) data_types in
  missing ++ duplicate ++ outlier ++ types.

End WithFormat.

End DataQualityAnalyzer.

(** ** Mutable DataFrames: references into a store *)

Module Heap.

Abbreviation loc := nat (only parsing).
Abbreviation store := (list DataFrame) (only parsing).

Inductive exn : Type :=
| KeyError
| ValueError
| TypeError
| ZeroDivisionError
| InvalidReference.

Inductive outcome (A : Type) : Type :=
| Ok (a : A)
| Raise (e : exn).
Arguments Ok {A} a.
Arguments Raise {A} e.

(** A computation that may update the store and may raise. *)
Definition M (A : Type) : Type := store -> outcome A * store.

#[global] Instance M_ret : MRet M := fun A a s => (Ok a, s).
#[global] Instance M_bind : MBind M := fun A B k m s =>
  match m s with
  | (Ok a, s') => k a s'
  | (Raise e, s') => (Raise e, s')
  end.

Definition raise {A} (e : exn) : M A := fun s => (Raise e, s).

Definition or_raise {A} (e : exn) (o : option A) : M A :=
  match o with
  | Some a => mret a
  | None => raise e
  end.

(** Dereference, update in place, and create a new object. *)
Definition read (r : loc) : M DataFrame := fun s =>
  match s !! r with
  | Some df => (Ok df, s)
  | None => (Raise InvalidReference, s)
  end.

Definition write (r : loc) (df : DataFrame) : M unit := fun s =>
  match s !! r with
  | Some _ => (Ok tt, <[r := df]> s)
  | None => (Raise InvalidReference, s)
  end.

Definition alloc (df : DataFrame) : M loc := fun s => (Ok (length s), s ++ [df]).

(** [df.copy()] *)
Definition copy (r : loc) : M loc := df ← read r; alloc df.

(** [for x in l: body(x)] *)
Fixpoint for_each {A} (l : list A) (body : A -> M unit) : M unit :=
  match l with
  | [] => mret tt
  | x :: l' => body x ≫= fun _ => for_each l' body
  end.

(** [try: m  except Exception: pass] *)
Definition try_pass (m : M unit) : M unit := fun s =>
  match m s with
  | (Ok _, s') => (Ok tt, s')
  | (Raise _, s') => (Ok tt, s')
  end.

End Heap.
Export Heap.

(** ** [AutoDataCleaner] (data_cleaner.py) *)

Module AutoDataCleaner.

Import DataQualityAnalyzer.

(** The cleaner's own [_analyze_missing_data]: the analyzer's without the
    patterns and the severity. *)
Definition _analyze_missing_data (df : DataFrame) : MissingData :=
  let total_missing := sum_list (map (fun kv => null_count kv.2) (columns df)) in
  let total_cells := df_size df in
  let missing_percentage := percentage total_missing total_cells in
  let column_missing := map (fun kv => (kv.1, null_count kv.2)) (columns df) in
  let column_missing_pct :=
    map (fun kv => (kv.1, percentage (null_count kv.2) (nrows df))) (columns df) in
  mkMissingData total_missing total_cells missing_percentage
                column_missing column_missing_pct None.

(** [None] is the [KeyError] of [missing_data["column_missing_pct"][col]] or
    of [df[col]]. *)
Definition _select_imputation_method (df : DataFrame) (col : string)
    (missing_count : nat) (missing_data : MissingData) : option string :=
  missing_pct ← assoc col (column_missing_pct missing_data);
  if np_gt missing_pct (Fin 50) then Some "drop_column"
  else
    series ← get_column df col;
    if is_numeric_dtype series then
      if np_lt missing_pct (Fin 5) then Some "mean"
      else if np_lt missing_pct (Fin 20) then Some "median"
      else Some "knn"
    else
      if np_lt missing_pct (Fin 10) then Some "mode"
      else Some "constant".

(** [series.fillna(x)] *)
Definition fillna {A} (x : A) (v : list (option A)) : list (option A) :=
  map (fun c => match c with Some a => Some a | None => Some x end) v.

(** [SimpleImputer(strategy=...).fit_transform(df[[col]]).flatten()] on a
    numeric column: the statistic of the non-null values fills the nulls; a
    column without any value is dropped from the output, which leaves an
    empty array. *)
Definition simple_imputer (statistic : list Q -> Q) (v : list (option Q))
  : list (option Q) :=
  match omap id v with
  | [] => []
  | data => fillna (statistic data) v
  end.

(** [series.fillna(method='ffill').fillna(method='bfill')] *)
Fixpoint ffill_from {A} (last : option A) (v : list (option A)) : list (option A) :=
  match v with
  | [] => []
  | Some a :: v' => Some a :: ffill_from (Some a) v'
  | None :: v' => last :: ffill_from last v'
  end.

Definition ffill_bfill {A} (v : list (option A)) : list (option A) :=
  reverse (ffill_from None (reverse (ffill_from None v))).

Definition series_ffill_bfill (s : Series) : Series :=
  match s with
  | NumericS v => NumericS (ffill_bfill v)
  | ObjectS v => ObjectS (ffill_bfill v)
  | DatetimeS v => DatetimeS (ffill_bfill v)
  | CategoryS v => CategoryS (ffill_bfill v)
  end.

(** What [_apply_imputation] returns and the caller assigns to [df[col]]: the
    empty [pd.Series()], a Series of the frame, or a numpy array. *)
Inductive assigned : Type :=
| EmptySeries
| AsSeries (s : Series)
| AsArray (s : Series).

(** [df[col] = value], in place. An empty Series is aligned on the index,
    which gives a column of nulls; an array must have one entry per row. *)
Definition assign_column (r : loc) (col : string) (value : assigned) : M unit :=
  df ← read r;
  match value with
  | EmptySeries => write r (set_column df col (ObjectS (replicate (nrows df) None)))
  | AsSeries s => write r (set_column df col s)
  | AsArray s =>
      if bool_decide (series_len s = nrows df)
      then write r (set_column df col s)
      else raise ValueError
  end.

Section WithLibrary.
Context (lib : Library).

Definition impute_numeric (statistic : list Q -> Q) (r : loc) (col : string) : M assigned :=
  df ← read r;
  series ← or_raise KeyError (get_column df col);
  match series with
  | NumericS v => mret (AsArray (NumericS (simple_imputer statistic v)))
  | _ => raise ValueError
  end.

Definition numeric_values (df : DataFrame) (col : string) : list (list (option Q)) :=
  match get_column df col with
  | Some (NumericS v) => [v]
  | _ => []
  end.

Definition _apply_imputation (r : loc) (col : string) (method : string) : M assigned :=
  if bool_decide (method = "drop_column") then
    df ← read r;
    df' ← or_raise KeyError (drop_column df col);
    write r df';;
    match get_column df' col with
    | Some s => mret (AsSeries s)
    | None => mret EmptySeries
    end
  else if bool_decide (method = "mean") then impute_numeric average r col
  else if bool_decide (method = "median") then impute_numeric median r col
  else if bool_decide (method = "mode") then
    df ← read r;
    series ← or_raise KeyError (get_column df col);
    imputed ← or_raise ValueError (impute_most_frequent lib series);
    mret (AsArray imputed)
  else if bool_decide (method = "knn") then
    df ← read r;
    let numeric_cols := numeric_columns df in
    let feature_cols := filter (fun c => c ≠ col) numeric_cols in
    if bool_decide (col ∈ numeric_cols) && bool_decide (1 < length numeric_cols)%nat
       && negb (bool_decide (feature_cols = []))
    then
      let temp_df := flat_map (numeric_values df) (feature_cols ++ [col]) in
      imputed ← or_raise ValueError (knn_impute lib (Nat.min 5 (nrows df)) temp_df);
      if bool_decide (length imputed = length temp_df) then
        match last imputed with
        | Some v =>
            let series := NumericS (map Some v) in
            if bool_decide (length v = nrows df)
            then write r (set_column df col series);; mret (AsSeries series)
            else raise ValueError
        | None => raise ValueError
        end
      else raise ValueError
    else impute_numeric median r col
  else if bool_decide (method = "constant") then
    df ← read r;
    series ← or_raise KeyError (get_column df col);
    match series with
    | ObjectS v =>
        let filled := ObjectS (fillna (PStr "Unknown") v) in
        write r (set_column df col filled);; mret (AsSeries filled)
    | NumericS v =>
        let filled := NumericS (fillna (- (999 # 1)) v) in
        write r (set_column df col filled);; mret (AsSeries filled)
    | DatetimeS v =>
        (* the column becomes [object]: the timestamps, and -999 in the gaps *)
        let filled := ObjectS (map (fun c => match c with
                                             | Some t => Some (PTime t)
                                             | None => Some (PNum (- (999 # 1)))
                                             end) v) in
        write r (set_column df col filled);; mret (AsSeries filled)
    | CategoryS _ => raise TypeError (* -999 is not one of the categories *)
    end
  else
    df ← read r;
    series ← or_raise KeyError (get_column df col);
    let filled := series_ffill_bfill series in
    write r (set_column df col filled);; mret (AsSeries filled).

(** [analysis_results["missing_data"]] when the report has it, else the
    cleaner's own analysis. *)
Definition missing_data_for (df : DataFrame) (analysis_results : option AnalysisDict)
  : MissingData :=
  match analysis_results ≫= dict_missing_data with
  | Some missing_data => missing_data
  | None => _analyze_missing_data df
  end.

(** The body of the loop of [_handle_missing_data]. *)
Definition impute_column (r : loc) (missing_data : MissingData) (col : string) : M unit :=
  df ← read r;
  series ← or_raise KeyError (get_column df col);
  let missing_count := null_count series in
  if bool_decide (0 < missing_count)%nat then
    imputation_method ←
      or_raise KeyError (_select_imputation_method df col missing_count missing_data);
    value ← _apply_imputation r col imputation_method;
    assign_column r col value
  else mret tt.

Definition _handle_missing_data (r : loc) (analysis_results : option AnalysisDict) : M loc :=
  df ← read r;
  let missing_data := missing_data_for df analysis_results in
  for_each (column_names df) (impute_column r missing_data);;
  mret r.

(** [series.clip(lower, upper)] on one value *)
Definition clip (lower upper x : Q) : Q := Qmin (Qmax x lower) upper.

(** The capping of one column: the cells under [outliers_mask] are replaced
    by their clipped value, the others (nulls included) are kept. *)
Definition cap_values (bounds : Q * Q) (v : list (option Q)) : list (option Q) :=
  map (fun c => match c with
                | Some x =>
                    if out_of_fences bounds x then Some (clip bounds.1 bounds.2 x)
                    else Some x
                | None => None
                end) v.

Definition outliers_count (bounds : Q * Q) (v : list (option Q)) : nat :=
  count_true (map (fun c => match c with
                            | Some x => out_of_fences bounds x
                            | None => false
                            end) v).

(** The body of the capping loop of [_handle_outliers]. *)
Definition cap_column (r : loc) (col : string) : M unit :=
  df ← read r;
  match get_column df col with
  | Some (NumericS v) =>
      let col_data := omap id v in
      match col_data with
      | [] => mret tt
      | _ =>
          let bounds := iqr_fences col_data in
          if bool_decide (0 < outliers_count bounds v)%nat
          then write r (set_column df col (NumericS (cap_values bounds v)))
          else mret tt
      end
  | _ => mret tt
  end.

(** [df = df.drop(index=outlier_indices)] when the report lists any: a new
    object. *)
Definition remove_outlier_rows (r : loc) (outliers : Outliers) : M loc :=
  match get_combined outliers with
  | Some outlier_info =>
      match all_outlier_indices outlier_info with
      | [] => mret r
      | outlier_indices =>
          df ← read r;
          df' ← or_raise KeyError (drop_index df outlier_indices);
          alloc df'
      end
  | None => mret r
  end.

Definition _handle_outliers (r : loc) (analysis_results : option AnalysisDict) : M loc :=
  match analysis_results ≫= dict_outliers with
  | None => mret r
  | Some outliers =>
      r' ← remove_outlier_rows r outliers;
      df ← read r';
      for_each (numeric_columns df) (cap_column r');;
      mret r'
  end.

(** [df = df.drop_duplicates()]: a new object. *)
Definition _remove_duplicates (r : loc) : M loc :=
  df ← read r;
  alloc (drop_duplicates df).

Definition _suggest_optimal_dtype (series : Series) : option string :=
  if is_datetime64_any_dtype series then Some "datetime"
  else if mostly_numeric lib series then Some "numeric"
  else if to_datetime_ok lib series then Some "datetime"
  else categorical_or_object series.

(** [pd.to_numeric(series, errors='coerce')] *)
Definition to_numeric_coerce (series : Series) : Series :=
  match series with
  | NumericS v => NumericS v
  | ObjectS v | CategoryS v =>
      NumericS (map (fun c => match c with
                              | Some (PNum q) => Some q
                              | Some (PStr s) => str_to_numeric lib s
                              | Some (PTime _) => None
                              | None => None
                              end) v)
  | DatetimeS v => NumericS (map (fmap inject_Z) v)
  end.

(** The conversion tried for one column; [None] is an exception, which the
    caller swallows. ["object"] has no conversion. *)
Definition convert (new_dtype : string) (series : Series) : option Series :=
  if bool_decide (new_dtype = "datetime") then to_datetime_coerce lib series
  else if bool_decide (new_dtype = "numeric") then Some (to_numeric_coerce series)
  else if bool_decide (new_dtype = "categorical") then astype_category lib series
  else Some series.

Definition standardize_column (r : loc) (col : string) : M unit :=
  df ← read r;
  series ← or_raise KeyError (get_column df col);
  let original_dtype := dtype_name series in
  new_dtype ← or_raise ZeroDivisionError (_suggest_optimal_dtype series);
  if bool_decide (new_dtype ≠ original_dtype)
  then try_pass (converted ← or_raise TypeError (convert new_dtype series);
                 write r (set_column df col converted))
  else mret tt.

Definition _standardize_data_types (r : loc) : M loc :=
  df ← read r;
  for_each (column_names df) (standardize_column r);;
  mret r.

(** The [.str] methods act on the strings of a column and give null on
    anything else. *)
Definition str_map (f : string -> string) (v : list (option pyobj)) : list (option pyobj) :=
  map (fun c => match c with
                | Some (PStr s) => Some (PStr (f s))
                | _ => None
                end) v.

Definition abbreviations : list (string * string) :=
  [("usa", "United States"); ("uk", "United Kingdom");
   ("u.s.a.", "United States"); ("u.k.", "United Kingdom")].

Definition _standardize_strings (v : list (option pyobj)) : list (option pyobj) :=
  let v := str_map (str_strip lib) v in
  let v := str_map (str_collapse_spaces lib) v in
  foldl (fun v af => str_map (str_replace_nocase lib af.1 af.2) v) v abbreviations.

Definition _standardize_case (name : string) (v : list (option pyobj)) : list (option pyobj) :=
  if negb (bool_decide (name = ""))
     && existsb (fun word => str_contains lib word (str_lower lib name))
                ["name"; "title"; "category"]
  then str_map (str_title lib) v
  else str_map (str_capitalize lib) v.

Definition normalize_column (r : loc) (col : string) : M unit :=
  df ← read r;
  series ← or_raise KeyError (get_column df col);
  match series with
  | ObjectS v =>
      let v1 := _standardize_strings v in
      write r (set_column df col (ObjectS v1));;
      write r (set_column (set_column df col (ObjectS v1)) col
                          (ObjectS (_standardize_case col v1)))
  | _ => mret tt
  end.

Definition _handle_inconsistencies (r : loc) : M loc :=
  df ← read r;
  for_each (column_names df) (normalize_column r);;
  mret r.

(** [df[numeric_cols] = scaler.fit_transform(df[numeric_cols])] *)
Fixpoint set_columns (df : DataFrame) (cols : list string) (vs : list (list (option Q)))
  : DataFrame :=
  match cols, vs with
  | col :: cols', v :: vs' => set_columns (set_column df col (NumericS v)) cols' vs'
  | _, _ => df
  end.

(** [df.select_dtypes(include=['category', 'object']).columns] *)
Definition categorical_columns (df : DataFrame) : list string :=
  map fst (filter (fun kv => match kv.2 with
                             | ObjectS _ | CategoryS _ => true
                             | _ => false
                             end = true) (columns df)).

Definition encode_column (r : loc) (col : string) : M unit :=
  df ← read r;
  series ← or_raise KeyError (get_column df col);
  if bool_decide (nunique series < 50)%nat then
    codes ← or_raise ValueError (label_encode lib series);
    assign_column r col (AsArray (NumericS (map Some codes)))
  else mret tt.

Definition _apply_transformations (r : loc) : M loc :=
  df ← read r;
  let numeric_cols := numeric_columns df in
  (match numeric_cols with
   | [] => mret tt
   | _ =>
       scaled ← or_raise ValueError
                  (standard_scale lib (flat_map (numeric_values df) numeric_cols));
       if bool_decide (length scaled = length numeric_cols)
       then write r (set_columns df numeric_cols scaled)
       else raise ValueError
   end);;
  df ← read r;
  for_each (categorical_columns df) (encode_column r);;
  mret r.

(** The pipeline. [cleaned_df] is rebound to what each stage returns. *)
Definition clean_dataset (df : loc) (analysis_results : option AnalysisDict) : M loc :=
  cleaned_df ← copy df;
  cleaned_df ← _handle_missing_data cleaned_df analysis_results;
  cleaned_df ← _handle_outliers cleaned_df analysis_results;
  cleaned_df ← _remove_duplicates cleaned_df;
  cleaned_df ← _standardize_data_types cleaned_df;
  cleaned_df ← _handle_inconsistencies cleaned_df;
  cleaned_df ← _apply_transformations cleaned_df;
  mret cleaned_df.

End WithLibrary.

End AutoDataCleaner.

(** ** The vocabulary of the specification *)

Import DataQualityAnalyzer AutoDataCleaner.

(** Clamping to [0, 100], and being a number of that interval. *)
Definition clamp_0_100 (x : Q) : Q := Qmax 0 (Qmin 100 x).

Definition within_0_100 (x : np_float) : Prop :=
  exists q, x = Fin q /\ 0 <= q /\ q <= 100.

(** The number of null cells of a Table. *)
Definition null_cells (df : DataFrame) : nat :=
  count_true (flat_map (fun kv => isnull kv.2) (columns df)).

(** Row [i] is flagged by a statistical method on some column; by an
    ensemble method. *)
Definition statistical_flag (statistical : list (string * ColumnOutliers)) (i : nat) : Prop :=
  exists col result method indices,
    (col, result) ∈ statistical
    /\ (method, indices) ∈ outlier_indices result
    /\ i ∈ indices.

Definition ensemble_flag (ml_based : list (string * MLEntry)) (i : nat) : Prop :=
  exists method count indices,
    (method, MLFound count indices) ∈ ml_based /\ i ∈ indices.


(** The claimed test for [numeric]: at least 80% of the non-null values
    convert to a number. *)
Definition claimed_numeric (lib : Library) (series : Series) : bool :=
  bool_decide (80 * (series_len series - null_count series)
               <= 100 * numeric_count lib series)%nat.

(** The decision order on counts: more than 80% of all the values convert;
    the column parses as dates; fewer distinct values than half of all the
    values. *)
Definition decided_dtype (lib : Library) (series : Series) : string :=
  let n := series_len series in
  if bool_decide (4 * n < 5 * numeric_count lib series)%nat then "numeric"
  else if to_datetime_ok lib series then "datetime"
  else if bool_decide (2 * nunique series < n)%nat then "categorical"
  else "object".

(** The imputation policy as a function of (numeric?, missing%). *)
Definition imputation_policy (numeric : bool) (missing_pct : Q) : string :=
  if bool_decide (50 < missing_pct) then "drop_column"
  else if numeric then
    if bool_decide (missing_pct < 5) then "mean"
    else if bool_decide (missing_pct < 20) then "median"
    else "knn"
  else
    if bool_decide (missing_pct < 10) then "mode"
    else "constant".

(** A library for evaluating examples: strings of decimal digits are
    numbers, no column parses as dates, string functions are the identity,
    and the detectors, imputers, scaler and encoder decline. *)
Definition is_digit (c : Ascii.ascii) : bool :=
  let n := Ascii.nat_of_ascii c in bool_decide (48 <= n)%nat && bool_decide (n <= 57)%nat.

Fixpoint digits_value (acc : Z) (s : string) : option Z :=
  match s with
  | EmptyString => Some acc
  | String c s' =>
      if is_digit c
      then digits_value (10 * acc + Z.of_nat (Ascii.nat_of_ascii c - 48))%Z s'
      else None
  end.

Definition parse_digits (s : string) : option Q :=
  match s with
  | EmptyString => None
  | _ => fmap inject_Z (digits_value 0%Z s)
  end.

Definition example_library : Library :=
  mkLibrary parse_digits (fun _ => false) (fun _ => None) (fun _ => None)
            (fun _ => None) (fun _ => None) (fun _ => None) (fun _ _ => None)
            (fun s => s) (fun s => s) (fun _ _ s => s) (fun s => s) (fun s => s)
            (fun s => s) (fun _ _ => false) (fun _ => None) (fun _ => None).

(** [frames n P m]: run from a store with at least [n] objects, [m] never
    shrinks the store, leaves the objects below [n] as they are, and every
    value it returns satisfies [P]. *)
Definition frames {A} (n : nat) (P : A -> Prop) (m : M A) : Prop :=
  forall s : store,
    (n <= length s)%nat ->
    (length s <= length (m s).2)%nat
    /\ (forall l, (l < n)%nat -> (m s).2 !! l = s !! l)
    /\ (forall a, (m s).1 = Ok a -> P a).

Definition anything {A} (a : A) : Prop := True.

(** Concrete inputs. *)
Definition sample_report : AnalysisResults :=
  mkAnalysisResults (5%nat, 2%nat)
    (mkMissingData 3 10 (Fin 30) [] [] None)
    (mkDuplicates 1 (Fin 20) 2 "high")
    (OutliersFound [] [] (mkCombined 1 [] [4%nat]))
    (Fin 0).

Definition sample_table : DataFrame :=
  mkDataFrame [0; 1; 2; 3; 4; 5]%nat
    [("age", NumericS [Some 25; Some 30; None; Some 45; Some 150; Some 35]);
     ("income", NumericS [Some 50000; Some 60000; Some 55000; None; Some 70000;
                          Some 65000])].


Definition five_of_six : Series :=
  NumericS [Some 1; Some 2; Some 3; Some 4; Some 5; None].

(** A numeric column of 25 rows with one null (4% missing). *)
Definition one_null_in_25 : list (option Q) :=
  None :: map (fun k => Some (Qnat k)) (seq 1 24).

Definition table_25 : DataFrame :=
  mkDataFrame (seq 0 25) [("x", NumericS one_null_in_25)].

(** The invariant of a Table: every column has one cell per row. *)
Definition well_formed (df : DataFrame) : Prop :=
  Forall (fun kv => series_len kv.2 = nrows df) (columns df).

(** The names [_select_imputation_method] can answer. *)
Definition selectable_methods : list string :=
  ["drop_column"; "mean"; "median"; "knn"; "mode"; "constant"].

(** ** Vocabulary of the further properties *)

(** The penalty for outliers: the share of flagged rows, in percent; nothing
    on a Table without rows. *)
Definition outlier_share (analysis_results : AnalysisResults) : Q :=
  let total_outliers :=
    match get_combined (outliers analysis_results) with
    | Some outlier_info => total_outliers outlier_info
    | None => 0%nat
    end in
  let total_rows := (basic_info_shape analysis_results).1 in
  if bool_decide (0 < total_rows)%nat
  then Qnat total_outliers / Qnat total_rows * 100
  else 0.

Definition cleaner_report : AnalysisResults :=
  mkAnalysisResults (5%nat, 2%nat)
    (mkMissingData 4 10 (Fin 40) [] [] None)
    (mkDuplicates 1 (Fin 20) 2 "high")
    (OutliersFound [] [] (mkCombined 2 [] [3%nat; 4%nat]))
    (Fin 0).

Definition twins : DataFrame :=
  mkDataFrame [0; 1; 2; 3; 4]%nat
    [("id", NumericS [Some 1; Some 2; Some 1; Some 3; Some 2]);
     ("tag", ObjectS [Some (PStr "a"); Some (PStr "b"); Some (PStr "a");
                      Some (PStr "c"); Some (PStr "b")])].

(** [holds_at r I s]: reference [r] is valid in [s] and its Table satisfies
    [I]. [keeps r I P m]: run from such a store, [m] ends in such a store,
    also when it raises, and every value it returns satisfies [P]. *)
Definition holds_at (r : loc) (I : DataFrame -> Prop) (s : store) : Prop :=
  exists df, s !! r = Some df /\ I df.

Definition keeps {A} (r : loc) (I : DataFrame -> Prop) (P : A -> Prop) (m : M A) : Prop :=
  forall s : store,
    holds_at r I s ->
    holds_at r I (m s).2 /\ (forall a, (m s).1 = Ok a -> P a).

Definition index_is (idx : list nat) (df : DataFrame) : Prop := index df = idx.

(** A stage that returns a Table whose index is a sub-sequence of the index
    of the Table it was given. *)
Definition index_shrinks (stage : loc -> M loc) : Prop :=
  forall (r : loc) (s : store) (df : DataFrame),
    s !! r = Some df ->
    forall r', (stage r s).1 = Ok r' ->
      exists df', (stage r s).2 !! r' = Some df'
                  /\ index df' `sublist_of` index df.

(** A library whose scaler returns the columns as they are and whose encoder
    returns zeros, for running the whole pipeline on an example. *)
Definition passing_library : Library :=
  mkLibrary parse_digits (fun _ => false) (fun _ => None) (fun _ => None)
            (fun _ => None) (fun _ => None) (fun _ => None) (fun _ _ => None)
            (fun s => s) (fun s => s) (fun _ _ s => s) (fun s => s) (fun s => s)
            (fun s => s) (fun _ _ => false) (fun cols => Some cols)
            (fun series => Some (replicate (series_len series) 0)).

Definition outliers_of_row_4 : AnalysisDict :=
  mkAnalysisDict None (Some (OutliersFound [] [] (mkCombined 1 [] [4%nat]))).

Definition open_length (open : option (nat * nat * nat)) : nat :=
  match open with Some (_, _, n) => n | None => 0%nat end.

(** A cluster over the labels [lo, hi) of a mask [f]: a maximal run. *)
Definition maximal_run (f : nat -> bool) (lo hi : nat) (c : MissingCluster) : Prop :=
  (lo <= start_index c)%nat /\ (start_index c <= end_index c)%nat
  /\ (end_index c < hi)%nat
  /\ cluster_length c = (end_index c - start_index c + 1)%nat
  /\ (forall i, (start_index c <= i <= end_index c)%nat -> f i = true)
  /\ ((lo < start_index c)%nat -> f (start_index c - 1)%nat = false)
  /\ ((end_index c + 1 < hi)%nat -> f (end_index c + 1)%nat = false).

Definition open_run_ok (f : nat -> bool) (lo a : nat) (open : option (nat * nat * nat))
  : Prop :=
  match open with
  | None => (lo < a)%nat -> f (a - 1)%nat = false
  | Some (s, e, n) =>
      (e + 1 = a)%nat /\ (lo <= s)%nat /\ (s <= e)%nat /\ n = (e - s + 1)%nat
      /\ (forall i, (s <= i <= e)%nat -> f i = true)
      /\ ((lo < s)%nat -> f (s - 1)%nat = false)
  end.

Definition lonely_column : DataFrame :=
  mkDataFrame [0; 1; 2; 3]%nat
    [("x", NumericS [Some 4; None; Some 1; Some 3]);
     ("tag", ObjectS [Some (PStr "a"); Some (PStr "b"); None; Some (PStr "a")])].

(** Every value of the list is the number [c]. *)
Definition all_equal_to (c : Q) (l : list Q) : Prop := Forall (fun x => x == c) l.

Definition sevens : list (nat * Q) := [(0%nat, 7); (1%nat, 7); (4%nat, 14 # 2)].

Definition squares (l : list Q) : list Q := map (fun y => y * y) l.

Definition short_column : list (nat * Q) :=
  [(0%nat, 1); (1%nat, 1); (2%nat, 2); (3%nat, 1); (5%nat, 1000000)].

(** A float that is minus infinity or a number not above [B]; plus infinity
    or a number not below [B]. *)
Definition at_most (B : Q) (x : np_float) : Prop :=
  x = NInf \/ exists q, x = Fin q /\ q <= B.

Definition at_least (B : Q) (x : np_float) : Prop :=
  x = PInf \/ exists q, x = Fin q /\ B <= q.

(** A rational that is a binary64 number. *)
Definition is_binary64 (B : Q) : Prop :=
  round_finite B == B /\ - pow2 1024 < B /\ B < pow2 1024.

(** The missing percentage in exact arithmetic, [100 * M / (R * C)]. *)
Definition exact_missing_percentage (df : DataFrame) : Q :=
  100 * Qnat (null_cells df) / (Qnat (nrows df) * Qnat (ncols df)).

(** * Properties *)

(** ** Shared facts *)

Lemma Qnat_nonneg (n : nat) : 0 <= Qnat n.
Proof.
  unfold Qnat. change 0 with (inject_Z 0). rewrite <- Zle_Qle. lia.
Qed.

Lemma Qnat_pos (n : nat) : (0 < n)%nat -> 0 < Qnat n.
Proof.
  intros H. unfold Qnat. change 0 with (inject_Z 0). rewrite <- Zlt_Qlt. lia.
Qed.

Lemma inject_Z_pred (z : Z) : inject_Z (z - 1) == inject_Z z - 1.
Proof. unfold Z.sub. rewrite inject_Z_plus, inject_Z_opp. reflexivity. Qed.

Lemma inject_Z_succ (z : Z) : inject_Z (z + 1) == inject_Z z + 1.
Proof. rewrite inject_Z_plus. reflexivity. Qed.

Lemma Qsign_pos (q : Q) : 0 < q -> Qsign q = Gt.
Proof. intros H. unfold Qsign. now apply Qgt_alt. Qed.



Lemma np_div_pos (a b : Q) : 0 < b -> np_div a b = Fin (a / b).
Proof. intros H. unfold np_div. now rewrite (Qsign_pos b H). Qed.

Lemma percentage_finite (count total : nat) :
  (0 < total)%nat ->
  percentage count total = Fin (Qnat count / Qnat total * 100).
Proof.
  intros H. unfold percentage. rewrite np_div_pos by now apply Qnat_pos.
  reflexivity.
Qed.

(** ** The quality score *)


Lemma py_clamp_finite (s : Q) :
  exists q, py_max (Fin 0) (py_min (Fin 100) (Fin s)) = Fin q /\ q == clamp_0_100 s.
Proof.
  unfold py_max, py_min, np_gt, clamp_0_100. simpl.
  destruct (Q.min_spec 100 s) as [[H1 H2] | [H1 H2]];
    destruct (Q.max_spec 0 (Qmin 100 s)) as [[H3 H4] | [H3 H4]];
    destruct (bool_decide_reflect (s < 100)) as [Hlt | Hge]; simpl;
    try destruct (bool_decide_reflect (0 < s)) as [Hpos | Hneg];
    eexists; (split; [reflexivity |]); lra.
Qed.


(** ** The missing percentage *)

Lemma count_true_app (a b : list bool) :
  count_true (a ++ b) = (count_true a + count_true b)%nat.
Proof. unfold count_true. now rewrite filter_app, length_app. Qed.

Lemma total_missing_null_cells (df : DataFrame) :
  total_missing (DataQualityAnalyzer._analyze_missing_data df) = null_cells df.
Proof.
  unfold null_cells. simpl.
  induction (columns df) as [| kv cols IH]; simpl; [reflexivity |].
  rewrite count_true_app. unfold null_count at 1. now rewrite IH.
Qed.

Lemma Qnat_mult (a b : nat) : Qnat (a * b) == Qnat a * Qnat b.
Proof.
  unfold Qnat. rewrite Nat2Z.inj_mul. unfold Qeq, inject_Z. simpl. lia.
Qed.

(** ** The combined outlier set *)

Section Union.

Implicit Types (acc : gset nat) (i : nat).

Lemma method_fold_spec (methods : list (string * list nat)) acc i :
  i ∈ foldl (fun acc' mi => acc' ∪ list_to_set mi.2) acc methods
  <-> i ∈ acc \/ exists method indices, (method, indices) ∈ methods /\ i ∈ indices.
Proof.
  revert acc. induction methods as [| [m idx] methods IH]; intros acc; simpl.
  - split; [auto | intros [H | (m & idx & H & _)]; [exact H | inversion H]].
  - rewrite IH, elem_of_union, elem_of_list_to_set. split.
    + intros [[H | H] | (m' & idx' & H1 & H2)].
      * now left.
      * right. exists m, idx. split; [left | exact H].
      * right. exists m', idx'. split; [now right | exact H2].
    + intros [H | (m' & idx' & H1 & H2)]; [now left; left |].
      apply elem_of_cons in H1 as [[= -> ->] | H1]; [left; now right |].
      right. now exists m', idx'.
Qed.

Lemma statistical_fold_spec (statistical : list (string * ColumnOutliers)) acc i :
  i ∈ foldl (fun acc cr =>
               foldl (fun acc' mi => acc' ∪ list_to_set mi.2) acc (outlier_indices cr.2))
            acc statistical
  <-> i ∈ acc \/ statistical_flag statistical i.
Proof.
  unfold statistical_flag.
  revert acc. induction statistical as [| [c res] statistical IH]; intros acc; simpl.
  - split; [auto | intros [H | (c & r & m & idx & H & _)]; [exact H | inversion H]].
  - rewrite IH, method_fold_spec. split.
    + intros [[H | (m & idx & H1 & H2)] | (c' & r' & m & idx & H1 & H2 & H3)].
      * now left.
      * right. exists c, res, m, idx. split; [left | now split].
      * right. exists c', r', m, idx. split; [now right | now split].
    + intros [H | (c' & r' & m & idx & H1 & H2 & H3)]; [now left; left |].
      apply elem_of_cons in H1 as [[= -> ->] | H1].
      * left. right. now exists m, idx.
      * right. now exists c', r', m, idx.
Qed.

Lemma ml_indices_spec (ml_based : list (string * MLEntry)) acc i :
  i ∈ ml_indices acc ml_based <-> i ∈ acc \/ ensemble_flag ml_based i.
Proof.
  unfold ml_indices, ensemble_flag.
  revert acc. induction ml_based as [| [m e] ml_based IH]; intros acc; simpl.
  - split; [auto | intros [H | (m & c & idx & H & _)]; [exact H | inversion H]].
  - rewrite IH. split.
    + intros [H | (m' & c & idx & H1 & H2)].
      * destruct e as [msg | cnt idx |]; try (now left).
        apply elem_of_union in H as [H | H]; [now left |].
        apply elem_of_list_to_set in H.
        right. exists m, cnt, idx. split; [left | exact H].
      * right. exists m', c, idx. split; [now right | exact H2].
    + intros [H | (m' & c & idx & H1 & H2)].
      * left. destruct e; try exact H. apply elem_of_union. now left.
      * apply elem_of_cons in H1 as [[= -> <-] | H1].
        -- left. apply elem_of_union. right. now apply elem_of_list_to_set.
        -- right. now exists m', c, idx.
Qed.

End Union.

(** C5. The combined set is the union of the indices flagged by every
    statistical method on every column and by every ensemble method, each
    index once; it contains each method's flagged set; and [total_outliers]
    is its cardinality. *)
Theorem combined_outliers_union (statistical : list (string * ColumnOutliers))
    (ml_based : list (string * MLEntry)) :
  let combined := _combine_outlier_results statistical ml_based in
  (forall i : nat,
     i ∈ all_outlier_indices combined
     <-> statistical_flag statistical i \/ ensemble_flag ml_based i)
  /\ NoDup (all_outlier_indices combined)
  /\ total_outliers combined = length (all_outlier_indices combined)
  /\ (forall col result method indices,
        (col, result) ∈ statistical ->
        (method, indices) ∈ outlier_indices result ->
        indices ⊆ all_outlier_indices combined)
  /\ (forall method count indices,
        (method, MLFound count indices) ∈ ml_based ->
        indices ⊆ all_outlier_indices combined).
Proof.
  intros combined.
  assert (Hunion : forall i : nat,
             i ∈ all_outlier_indices combined
             <-> statistical_flag statistical i \/ ensemble_flag ml_based i).
  { intros i. unfold combined, _combine_outlier_results. simpl.
    rewrite elem_of_elements, ml_indices_spec.
    unfold statistical_indices. rewrite statistical_fold_spec.
    rewrite elem_of_empty. tauto. }
  split; [exact Hunion |].
  split; [unfold combined, _combine_outlier_results; simpl; apply NoDup_elements |].
  split; [reflexivity |].
  split.
  - intros col result method indices H1 H2 i Hi.
    apply Hunion. left. now exists col, result, method, indices.
  - intros method count indices H1 i Hi.
    apply Hunion. right. now exists method, count, indices.
Qed.

(** ** The modified Z-score on a column with zero MAD *)



(** ** The suggested type *)

Lemma ratio_gt_four_fifths (k n : nat) :
  (0 < n)%nat ->
  np_gt (np_div (Qnat k) (Qnat n)) (Fin (8 # 10)) = bool_decide (4 * n < 5 * k)%nat.
Proof.
  intros Hn. rewrite np_div_pos by now apply Qnat_pos.
  unfold np_gt. simpl.
  apply bool_decide_ext.
  pose proof (Qnat_pos n Hn) as Hpos.
  assert (E : Qnat k / Qnat n * Qnat n == Qnat k) by (field; lra).
  assert (Hz : (8 # 10) * Qnat n < Qnat k <-> (4 * n < 5 * k)%nat).
  { unfold Qnat, Qlt, Qmult, inject_Z. simpl. lia. }
  rewrite <- Hz. split; intros H.
  - rewrite <- E. apply Qmult_lt_compat_r; assumption.
  - apply (Qmult_lt_r _ _ (Qnat n)); [assumption |]. now rewrite E.
Qed.

Lemma ratio_lt_half (u n : nat) :
  (0 < n)%nat ->
  bool_decide (Qnat u / Qnat n < 1 # 2) = bool_decide (2 * u < n)%nat.
Proof.
  intros Hn. apply bool_decide_ext.
  pose proof (Qnat_pos n Hn) as Hpos.
  assert (E : Qnat u / Qnat n * Qnat n == Qnat u) by (field; lra).
  assert (Hz : Qnat u < (1 # 2) * Qnat n <-> (2 * u < n)%nat).
  { unfold Qnat, Qlt, Qmult, inject_Z. simpl. lia. }
  rewrite <- Hz. split; intros H.
  - rewrite <- E. apply Qmult_lt_compat_r; assumption.
  - apply (Qmult_lt_r _ _ (Qnat n)); [assumption |]. now rewrite E.
Qed.

Lemma categorical_or_object_counts (series : Series) :
  (0 < series_len series)%nat ->
  categorical_or_object series
  = Some (if bool_decide (2 * nunique series < series_len series)%nat
          then "categorical" else "object").
Proof.
  intros Hn. unfold categorical_or_object.
  destruct (series_len series) as [| n] eqn:E; [lia |].
  rewrite ratio_lt_half by lia.
  now destruct (bool_decide _).
Qed.

(** C4, as the code decides it. For a column with at least one row the
    suggested type is [numeric] when more than 80% of all its values (nulls
    counted in the total) convert to a number; else [datetime] when the
    column parses as dates; else [categorical] when the distinct non-null
    values are fewer than half of all the values; else [object] (text). The
    cleaner's variant answers [datetime] first for a column that already has
    that type. *)
Theorem suggested_dtype_decision (lib : Library) (series : Series) :
  (0 < series_len series)%nat ->
  _suggest_dtype lib series = Some (decided_dtype lib series)
  /\ _suggest_optimal_dtype lib series
     = Some (if is_datetime64_any_dtype series then "datetime"
             else decided_dtype lib series).
Proof.
  intros Hn.
  assert (H : _suggest_dtype lib series = Some (decided_dtype lib series)).
  { unfold _suggest_dtype, decided_dtype, mostly_numeric.
    rewrite ratio_gt_four_fifths by exact Hn.
    destruct (bool_decide (4 * _ < _)%nat); [reflexivity |].
    destruct (to_datetime_ok lib series); [reflexivity |].
    now apply categorical_or_object_counts. }
  split; [exact H |].
  unfold _suggest_optimal_dtype.
  destruct (is_datetime64_any_dtype series); [reflexivity |].
  exact H.
Qed.

(** C4 as claimed fails twice. All three non-null values of
    [1, 2, 3, null, null] convert, but they are 60% of the column, and the
    numeric test fails. Of ["1", "2", "3", "4", "x"] exactly 80% convert,
    which is not more than 80%: the column is [object]. *)
Lemma suggested_dtype_not_as_claimed :
  let with_nulls := NumericS [Some 1; Some 2; Some 3; None; None] in
  let four_of_five :=
    ObjectS [Some (PStr "1"); Some (PStr "2"); Some (PStr "3"); Some (PStr "4");
             Some (PStr "x")] in
  (claimed_numeric example_library with_nulls = true
   /\ mostly_numeric example_library with_nulls = false)
  /\ (claimed_numeric example_library four_of_five = true
      /\ _suggest_dtype example_library four_of_five = Some "object").
Proof. vm_compute. repeat split. Qed.

(** ** The imputation policy *)

Lemma select_follows_policy (df : DataFrame) (col : string) (missing_count : nat)
    (missing_data : MissingData) (p : Q) (series : Series) :
  assoc col (column_missing_pct missing_data) = Some (Fin p) ->
  get_column df col = Some series ->
  _select_imputation_method df col missing_count missing_data
  = Some (imputation_policy (is_numeric_dtype series) p).
Proof.
  intros Hpct Hcol. unfold _select_imputation_method, imputation_policy.
  rewrite Hpct. simpl. unfold np_gt. simpl.
  destruct (bool_decide (50 < p)); [reflexivity |].
  rewrite Hcol. simpl.
  destruct (is_numeric_dtype series).
  - destruct (bool_decide (p < 5)); [reflexivity |].
    now destruct (bool_decide (p < 20)).
  - now destruct (bool_decide (p < 10)).
Qed.



(** ** The column that should have been dropped *)

Lemma assoc_filter_out {V} (col : string) (d : list (string * V)) :
  assoc col (filter (fun kv => negb (bool_decide (kv.1 = col))) d) = None.
Proof.
  induction d as [| [k v] d IH]; [reflexivity |].
  rewrite filter_cons. simpl.
  destruct (bool_decide_reflect (k = col)) as [-> | Hne]; simpl; [exact IH |].
  rewrite bool_decide_eq_false_2 by congruence. exact IH.
Qed.

(** Whatever the library, the loop body on a column with more than 50%
    missing drops the column in place and then assigns the empty Series it
    got back to the same name: the column comes back, last and all null. *)
Lemma drop_column_comes_back (lib : Library) (df : DataFrame) (col : string)
    (missing_data : MissingData) (p : Q) (series : Series) (r : loc) (s : store) :
  s !! r = Some df ->
  get_column df col = Some series ->
  (0 < null_count series)%nat ->
  assoc col (column_missing_pct missing_data) = Some (Fin p) ->
  50 < p ->
  let dropped :=
    mkDataFrame (index df)
                (filter (fun kv => negb (bool_decide (kv.1 = col))) (columns df)) in
  let nulls := ObjectS (replicate (nrows df) None) in
  impute_column lib r missing_data col s
  = (Ok tt, <[r := mkDataFrame (index df) (columns dropped ++ [(col, nulls)])]> s).
Proof.
  intros Hr Hcol Hnull Hpct Hp dropped nulls.
  assert (Hlt : (r < length s)%nat) by now apply lookup_lt_Some in Hr.
  unfold impute_column, mbind, M_bind, read. rewrite Hr. unfold or_raise.
  rewrite Hcol. unfold mret at 1, M_ret.
  rewrite bool_decide_eq_true_2 by exact Hnull.
  rewrite (select_follows_policy df col _ missing_data p series Hpct Hcol).
  unfold imputation_policy. rewrite bool_decide_eq_true_2 by exact Hp.
  unfold mret at 1, M_ret.
  unfold _apply_imputation. simpl.
  unfold mbind, M_bind, read. rewrite Hr.
  unfold or_raise, drop_column. rewrite Hcol. unfold mret at 1, M_ret.
  fold dropped. unfold write at 1. rewrite Hr.
  unfold get_column at 1. simpl. rewrite assoc_filter_out.
  unfold mret, M_ret.
  unfold assign_column, mbind, M_bind, read.
  rewrite list_lookup_insert_eq by exact Hlt.
  unfold write. rewrite list_lookup_insert_eq by exact Hlt.
  unfold set_column, get_column. simpl. rewrite assoc_filter_out.
  now rewrite list_insert_insert_eq.
Qed.

(** C3 fails on the code. The column [a] has 3 nulls in 5 rows (60%);
    after the missing-data stage it is still a column of the Table, moved
    last and holding only nulls. *)
Theorem dropped_column_still_present (lib : Library) :
  let a := NumericS [Some 1; None; None; None; Some 2] in
  let b := NumericS [Some 1; Some 2; Some 3; Some 4; Some 5] in
  let df := mkDataFrame [0; 1; 2; 3; 4]%nat [("a", a); ("b", b)] in
  assoc "a" (column_missing_pct (AutoDataCleaner._analyze_missing_data df))
  = Some (Fin (300 # 5))
  /\ _handle_missing_data lib 0%nat None [df]
     = (Ok 0%nat,
        [mkDataFrame [0; 1; 2; 3; 4]%nat
           [("b", b); ("a", ObjectS [None; None; None; None; None])]]).
Proof. vm_compute. split; reflexivity. Qed.

(** ** The outlier stage without a report *)

(** C2 as claimed fails. Without a report the column [1, 2, 3, 100] comes
    back as it was, although 100 lies outside its IQR fences. *)
Lemma no_report_no_capping :
  let x := [Some 1; Some 2; Some 3; Some 100] in
  let df := mkDataFrame [0; 1; 2; 3]%nat [("x", NumericS x)] in
  _handle_outliers 0%nat None [df] = (Ok 0%nat, [df])
  /\ outliers_count (iqr_fences (omap id x)) x = 1%nat.
Proof. vm_compute. split; reflexivity. Qed.

(** C2, as the code behaves. Without a report, or with a report that has no
    outliers section, the stage returns the same Table object and leaves the
    store as it is: neither phase runs. The second phase runs alone when the
    report has an outliers section that lists no row to remove: the stage is
    then the capping loop over the numeric columns of the same object. *)
Theorem handle_outliers_without_report (r : loc) (s : store) :
  _handle_outliers r None s = (Ok r, s)
  /\ (forall d, dict_outliers d = None -> _handle_outliers r (Some d) s = (Ok r, s))
  /\ (forall d o,
        dict_outliers d = Some o ->
        (get_combined o = None
         \/ exists c, get_combined o = Some c /\ all_outlier_indices c = []) ->
        _handle_outliers r (Some d) s
        = (df ← read r; for_each (numeric_columns df) (cap_column r);; mret r) s).
Proof.
  split; [reflexivity |].
  split.
  - intros d Hd. unfold _handle_outliers. simpl. now rewrite Hd.
  - intros d o Hd Hnone. unfold _handle_outliers. simpl. rewrite Hd.
    unfold remove_outlier_rows.
    destruct Hnone as [Hc | (c & Hc & Hidx)]; rewrite Hc; [reflexivity |].
    now rewrite Hidx.
Qed.

(** ** Order statistics and the IQR fences *)

Section OrderStatistics.

#[local] Instance Qle_transitive : Transitive Qle := Qle_trans.
#[local] Instance Qle_total : Total Qle.
Proof. intros x y. destruct (Qlt_le_dec x y); [left; lra | now right]. Qed.

Lemma sorted_is_sorted (data : list Q) : StronglySorted Qle (sorted data).
Proof. apply StronglySorted_merge_sort; apply _. Qed.

Lemma sorted_length (data : list Q) : length (sorted data) = length data.
Proof. unfold sorted. now rewrite merge_sort_Permutation. Qed.

Lemma at_rank_mono (a : list Q) (i j : nat) :
  StronglySorted Qle a -> (i <= j)%nat -> (j < length a)%nat ->
  at_rank a i <= at_rank a j.
Proof.
  unfold at_rank. intros Hs. revert i j.
  induction Hs as [| x a Hs IH Hall]; intros i j Hij Hj; simpl in Hj; [lia |].
  destruct i as [| i], j as [| j]; simpl; try lra; try lia.
  - rewrite Forall_forall in Hall. apply Hall.
    apply list_elem_of_In, nth_In. lia.
  - apply IH; lia.
Qed.

(** The rounded virtual index, as ranks. *)
Lemma floor_ceiling_ranks (pos : Q) (n : nat) :
  0 <= pos -> pos <= Qnat n - 1 ->
  (Z.to_nat (Qfloor pos) <= Z.to_nat (Qceiling pos))%nat
  /\ (Z.to_nat (Qceiling pos) < n)%nat
  /\ (0 <= Qfloor pos)%Z.
Proof.
  intros H0 Hn.
  assert (Hf0 : (0 <= Qfloor pos)%Z).
  { change 0%Z with (Qfloor 0). now apply Qfloor_resp_le. }
  assert (Hfc : (Qfloor pos <= Qceiling pos)%Z).
  { rewrite Zle_Qle. pose proof (Qfloor_le pos). pose proof (Qle_ceiling pos). lra. }
  assert (Hcn : (Qceiling pos <= Z.of_nat n - 1)%Z).
  { rewrite <- (Qceiling_Z (Z.of_nat n - 1)). apply Qceiling_resp_le.
    unfold Qnat in Hn. rewrite inject_Z_pred. lra. }
  lia.
Qed.

Lemma lerp_rank_between (a : list Q) (pos : Q) :
  StronglySorted Qle a -> 0 <= pos -> pos <= Qnat (length a) - 1 ->
  at_rank a (Z.to_nat (Qfloor pos)) <= lerp_rank a pos
  /\ lerp_rank a pos <= at_rank a (Z.to_nat (Qceiling pos)).
Proof.
  intros Hs H0 Hn.
  destruct (floor_ceiling_ranks pos (length a) H0 Hn) as (Hfc & Hcn & Hf0).
  pose proof (at_rank_mono a _ _ Hs Hfc Hcn) as Hmono.
  pose proof (Qfloor_le pos) as Hfl.
  pose proof (Qlt_floor pos) as Hlt. rewrite inject_Z_succ in Hlt.
  unfold lerp_rank.
  set (lo := at_rank a (Z.to_nat (Qfloor pos))) in *.
  set (hi := at_rank a (Z.to_nat (Qceiling pos))) in *.
  set (f := pos - inject_Z (Qfloor pos)).
  assert (Hf : 0 <= f /\ f <= 1) by (unfold f; lra).
  assert (Hd : 0 <= hi - lo) by lra.
  assert (H1 : 0 <= f * (hi - lo)) by (apply Qmult_le_0_compat; lra).
  assert (H2 : f * (hi - lo) <= 1 * (hi - lo)) by (apply Qmult_le_compat_r; lra).
  split; lra.
Qed.






End OrderStatistics.

(** ** Capping *)


Lemma out_of_fences_false (bounds : Q * Q) (x : Q) :
  bounds.1 <= x -> x <= bounds.2 -> out_of_fences bounds x = false.
Proof.
  intros H1 H2. unfold out_of_fences.
  rewrite !bool_decide_eq_false_2 by lra. reflexivity.
Qed.

Lemma out_of_fences_true (bounds : Q * Q) (x : Q) :
  out_of_fences bounds x = true -> x < bounds.1 \/ bounds.2 < x.
Proof.
  unfold out_of_fences. intros H. apply orb_true_iff in H as [H | H];
    apply bool_decide_eq_true_1 in H; [now left | now right].
Qed.







(** ** Which objects a computation may touch *)

Section Frames.

Context {A B : Type} (n : nat).

Lemma frames_ret (P : A -> Prop) (a : A) : P a -> frames n P (mret a).
Proof.
  intros Ha s Hs. simpl. repeat split; [lia | now intros a' [= <-]].
Qed.

Lemma frames_raise (P : A -> Prop) (e : exn) : frames n P (raise e).
Proof. intros s Hs. simpl. repeat split; [lia | discriminate]. Qed.

Lemma frames_or_raise (e : exn) (o : option A) : frames n anything (or_raise e o).
Proof. destruct o; [now apply frames_ret | apply frames_raise]. Qed.

Lemma frames_bind (P : A -> Prop) (Q : B -> Prop) (m : M A) (k : A -> M B) :
  frames n P m -> (forall a, P a -> frames n Q (k a)) -> frames n Q (m ≫= k).
Proof.
  intros Hm Hk s Hs. unfold mbind, M_bind.
  destruct (Hm s Hs) as (Hlen & Hkeep & Hpost).
  destruct (m s) as [[a | e] s'] eqn:E; simpl in *.
  - destruct (Hk a (Hpost a eq_refl) s' ltac:(lia)) as (Hlen' & Hkeep' & Hpost').
    split; [lia |]. split; [| exact Hpost'].
    intros l Hl. rewrite Hkeep' by exact Hl. now apply Hkeep.
  - split; [exact Hlen |]. split; [exact Hkeep | discriminate].
Qed.

Lemma frames_anything (P : A -> Prop) (m : M A) : frames n P m -> frames n anything m.
Proof.
  intros Hm s Hs. destruct (Hm s Hs) as (H1 & H2 & _). now repeat split.
Qed.

End Frames.

Lemma frames_read (n : nat) (r : loc) : frames n anything (read r).
Proof.
  intros s Hs. unfold read. destruct (s !! r); simpl; now repeat split.
Qed.

Lemma frames_write (n : nat) (r : loc) (df : DataFrame) :
  (n <= r)%nat -> frames n anything (write r df).
Proof.
  intros Hr s Hs. unfold write. destruct (s !! r); simpl; [| now repeat split].
  rewrite length_insert. repeat split; [lia |].
  intros l Hl. apply list_lookup_insert_ne. lia.
Qed.

Lemma frames_alloc (n : nat) (df : DataFrame) :
  frames n (fun r => (n <= r)%nat) (alloc df).
Proof.
  intros s Hs. unfold alloc. simpl. rewrite length_app. simpl.
  split; [lia |]. split; [| now intros a [= <-]].
  intros l Hl. apply lookup_app_l. lia.
Qed.

Lemma frames_for_each {A} (n : nat) (l : list A) (body : A -> M unit) :
  (forall x, frames n anything (body x)) -> frames n anything (for_each l body).
Proof.
  intros Hbody. induction l as [| x l IH]; simpl.
  - now apply frames_ret.
  - eapply frames_bind; [apply Hbody | intros _ _; exact IH].
Qed.

Lemma frames_try_pass (n : nat) (m : M unit) :
  frames n anything m -> frames n anything (try_pass m).
Proof.
  intros Hm s Hs. unfold try_pass. destruct (Hm s Hs) as (H1 & H2 & _).
  destruct (m s) as [[a | e] s']; simpl in *; now repeat split.
Qed.

Create HintDb frames.
#[local] Hint Resolve frames_raise frames_or_raise frames_read frames_write
  frames_alloc : frames.

(** One step of a proof of [frames]: split a bind (a reference is handed on
    as one at or above [n], any other value as it is), enter a loop, take a
    branch, or close a leaf. *)
Ltac frames_step :=
  cbv beta zeta;
  lazymatch goal with
  | |- frames _ _ (mret _) => apply frames_ret; first [exact I | assumption | lia]
  | |- frames ?n _ (@mbind _ _ ?A _ _ _) =>
      lazymatch A with
      | nat => apply (frames_bind n (fun r => (n <= r)%nat)); [| intros ? ?]
      | _ => apply (frames_bind n anything); [| intros ? _]
      end
  | |- frames _ _ (for_each _ _) => apply frames_for_each; intros ?
  | |- frames _ _ (try_pass _) => apply frames_try_pass
  | |- frames _ _ (match ?x with _ => _ end) => destruct x
  | |- frames _ _ _ => solve [eauto 3 with frames]
  end.

Ltac frames_auto := repeat frames_step.

Section Stages.

Context (lib : Library) (n : nat) (r : loc) (Hr : (n <= r)%nat).

Lemma frames_assign_column (col : string) (value : assigned) :
  frames n anything (assign_column r col value).
Proof using Hr. unfold assign_column. frames_auto. Qed.

Lemma frames_impute_numeric (statistic : list Q -> Q) (col : string) :
  frames n anything (impute_numeric statistic r col).
Proof using Hr. unfold impute_numeric. frames_auto. Qed.

#[local] Hint Resolve frames_assign_column frames_impute_numeric : frames.

Lemma frames_apply_imputation (col method : string) :
  frames n anything (_apply_imputation lib r col method).
Proof using Hr. unfold _apply_imputation. frames_auto. Qed.

#[local] Hint Resolve frames_apply_imputation : frames.

Lemma frames_impute_column (missing_data : MissingData) (col : string) :
  frames n anything (impute_column lib r missing_data col).
Proof using Hr. unfold impute_column. frames_auto. Qed.

#[local] Hint Resolve frames_impute_column : frames.

Lemma frames_handle_missing_data (analysis_results : option AnalysisDict) :
  frames n (fun r' => (n <= r')%nat) (_handle_missing_data lib r analysis_results).
Proof using Hr. unfold _handle_missing_data. frames_auto. Qed.

Lemma frames_cap_column (col : string) : frames n anything (cap_column r col).
Proof using Hr. unfold cap_column. frames_auto. Qed.

Lemma frames_remove_outlier_rows (outliers : Outliers) :
  frames n (fun r' => (n <= r')%nat) (remove_outlier_rows r outliers).
Proof using Hr. unfold remove_outlier_rows. frames_auto. Qed.

Lemma frames_remove_duplicates :
  frames n (fun r' => (n <= r')%nat) (_remove_duplicates r).
Proof using Hr. unfold _remove_duplicates. frames_auto. Qed.

Lemma frames_standardize_column (col : string) :
  frames n anything (standardize_column lib r col).
Proof using Hr. unfold standardize_column. frames_auto. Qed.

Lemma frames_normalize_column (col : string) :
  frames n anything (normalize_column lib r col).
Proof using Hr. unfold normalize_column. frames_auto. Qed.

Lemma frames_encode_column (col : string) :
  frames n anything (encode_column lib r col).
Proof using Hr. unfold encode_column. frames_auto. Qed.

#[local] Hint Resolve frames_standardize_column frames_normalize_column
  frames_encode_column : frames.

Lemma frames_standardize_data_types :
  frames n (fun r' => (n <= r')%nat) (_standardize_data_types lib r).
Proof using Hr. unfold _standardize_data_types. frames_auto. Qed.

Lemma frames_handle_inconsistencies :
  frames n (fun r' => (n <= r')%nat) (_handle_inconsistencies lib r).
Proof using Hr. unfold _handle_inconsistencies. frames_auto. Qed.

Lemma frames_apply_transformations :
  frames n (fun r' => (n <= r')%nat) (_apply_transformations lib r).
Proof using Hr. unfold _apply_transformations. frames_auto. Qed.

End Stages.

#[local] Hint Resolve frames_cap_column frames_remove_outlier_rows : frames.

Lemma frames_handle_outliers (n : nat) (r : loc)
    (analysis_results : option AnalysisDict) :
  (n <= r)%nat ->
  frames n (fun r' => (n <= r')%nat) (_handle_outliers r analysis_results).
Proof. intros Hr. unfold _handle_outliers. frames_auto. Qed.

#[local] Hint Resolve frames_handle_missing_data frames_handle_outliers
  frames_remove_duplicates frames_standardize_data_types
  frames_handle_inconsistencies frames_apply_transformations : frames.

(** The whole pipeline touches no object that existed before the call, and
    what it returns is a new object. *)
Lemma frames_clean_dataset (lib : Library) (n : nat) (df : loc)
    (analysis_results : option AnalysisDict) :
  frames n (fun r' => (n <= r')%nat) (clean_dataset lib df analysis_results).
Proof. unfold clean_dataset, copy. frames_auto. Qed.

(** ** The caller's Table *)

(** C10. Whatever the store, the input reference, the report and the
    library, after [clean_dataset] the input reference holds what it held
    before the call, and so does every object that existed before; the
    pipeline worked on a copy, and the Table it returns is an object created
    during the call, never the caller's. This also holds when the pipeline
    raises. *)
Theorem clean_dataset_leaves_input (lib : Library) (df : loc)
    (analysis_results : option AnalysisDict) (s : store) :
  (clean_dataset lib df analysis_results s).2 !! df = s !! df
  /\ (forall l, (l < length s)%nat ->
        (clean_dataset lib df analysis_results s).2 !! l = s !! l)
  /\ (forall cleaned_df,
        (clean_dataset lib df analysis_results s).1 = Ok cleaned_df ->
        is_Some (s !! df) /\ (length s <= cleaned_df)%nat /\ cleaned_df <> df).
Proof.
  destruct (frames_clean_dataset lib (length s) df analysis_results s (le_n _))
    as (Hlen & Hkeep & Hnew).
  destruct (s !! df) as [v |] eqn:Hdf.
  - assert (Hlt : (df < length s)%nat) by now apply lookup_lt_Some in Hdf.
    split; [rewrite Hkeep by exact Hlt; exact Hdf |].
    split; [exact Hkeep |].
    intros cleaned_df Hok. specialize (Hnew cleaned_df Hok).
    split; [now exists v |]. split; [exact Hnew | lia].
  - assert (Hraise : clean_dataset lib df analysis_results s = (Raise InvalidReference, s)).
    { unfold clean_dataset, copy, mbind, M_bind, read. now rewrite Hdf. }
    rewrite Hraise. simpl.
    split; [exact Hdf |]. split; [reflexivity | discriminate].
Qed.

(** ** The theorems at concrete inputs *)



Lemma suggested_dtype_decision_witness :
  (0 < series_len five_of_six)%nat
  /\ _suggest_dtype example_library five_of_six = Some "numeric".
Proof.
  split; [simpl; lia |].
  exact (proj1 (suggested_dtype_decision example_library five_of_six
                  ltac:(simpl; lia))).
Defined.



(** * Further properties of the code *)

(** ** The choice of the imputation method *)

(** X1. [_select_imputation_method] answers one of six names, never a name
    that would send [_apply_imputation] to its forward-fill default; it
    raises [KeyError] exactly when the report has no percentage for the
    column, or when the percentage is not above 50 and the Table has no such
    column; and a percentage that is NaN selects [knn] on a numeric column
    and [constant] on any other. *)
Theorem select_imputation_method_answers (df : DataFrame) (col : string)
    (missing_count : nat) (missing_data : MissingData) :
  (forall method,
     _select_imputation_method df col missing_count missing_data = Some method ->
     method ∈ selectable_methods)
  /\ (_select_imputation_method df col missing_count missing_data = None
      <-> assoc col (column_missing_pct missing_data) = None
          \/ exists pct, assoc col (column_missing_pct missing_data) = Some pct
                         /\ np_gt pct (Fin 50) = false
                         /\ get_column df col = None)
  /\ (forall series,
        assoc col (column_missing_pct missing_data) = Some NaN ->
        get_column df col = Some series ->
        _select_imputation_method df col missing_count missing_data
        = Some (if is_numeric_dtype series then "knn" else "constant")).
Proof.
  unfold _select_imputation_method, selectable_methods.
  destruct (assoc col (column_missing_pct missing_data)) as [pct |] eqn:Hpct;
    cbn [mbind option_bind].
  - destruct (np_gt pct (Fin 50)) eqn:Hgt.
    + split; [intros method [= <-]; set_solver |].
      split; [| intros series [= ->]; discriminate].
      split; [discriminate |].
      intros [H | (pct' & [= <-] & H & _)]; congruence.
    + destruct (get_column df col) as [series |] eqn:Hcol; cbn [mbind option_bind].
      * split.
        { intros method.
          destruct (is_numeric_dtype series);
            repeat destruct (np_lt pct _); intros [= <-]; set_solver. }
        split.
        { split; [| intros [H | (pct' & _ & _ & H)]; discriminate].
          destruct (is_numeric_dtype series); repeat destruct (np_lt pct _);
            discriminate. }
        intros series' [= ->] [= <-]. now destruct (is_numeric_dtype series).
      * split; [discriminate |].
        split; [| discriminate].
        split; [| reflexivity].
        intros _. right. now exists pct.
  - split; [discriminate |]. split; [| discriminate].
    split; [now left | reflexivity].
Qed.

(** ** A report made from the Table itself *)

Lemma select_reads_percentages (df : DataFrame) (col : string) (missing_count : nat)
    (md1 md2 : MissingData) :
  column_missing_pct md1 = column_missing_pct md2 ->
  _select_imputation_method df col missing_count md1
  = _select_imputation_method df col missing_count md2.
Proof. intros H. unfold _select_imputation_method. now rewrite H. Qed.

Lemma impute_column_reads_percentages (lib : Library) (r : loc) (col : string)
    (md1 md2 : MissingData) (s : store) :
  column_missing_pct md1 = column_missing_pct md2 ->
  impute_column lib r md1 col s = impute_column lib r md2 col s.
Proof.
  intros H. unfold impute_column, mbind, M_bind.
  destruct (read r s) as [[df | e] s1]; [| reflexivity].
  destruct (or_raise KeyError (get_column df col) s1) as [[series | e] s2];
    [| reflexivity].
  destruct (bool_decide (0 < null_count series)%nat); [| reflexivity].
  now rewrite (select_reads_percentages df col _ md1 md2 H).
Qed.

Lemma for_each_ext {A} (l : list A) (f g : A -> M unit) (s : store) :
  (forall x s', f x s' = g x s') -> for_each l f s = for_each l g s.
Proof.
  intros H. revert s. induction l as [| x l IH]; intros s; [reflexivity |].
  simpl. unfold mbind, M_bind. rewrite H.
  destruct (g x s) as [[[] | e] s']; [apply IH | reflexivity].
Qed.

(** X2. The missing-data stage given the report of [analyze_dataset] on the
    Table it cleans does exactly what it does without a report: the method
    of every column is chosen from the same per-column percentages, which the
    cleaner otherwise computes itself. *)
Theorem handle_missing_data_own_report (lib lib' : Library) (r : loc) (df : DataFrame)
    (s : store) :
  s !! r = Some df ->
  _handle_missing_data lib r (Some (as_dict (analyze_dataset lib' df))) s
  = _handle_missing_data lib r None s.
Proof.
  intros Hr. unfold _handle_missing_data, mbind, M_bind, read. rewrite Hr.
  rewrite (for_each_ext _ _ (impute_column lib r (missing_data_for df None))).
  - reflexivity.
  - intros col s'. now apply impute_column_reads_percentages.
Qed.

Lemma handle_missing_data_own_report_witness :
  [table_25] !! 0%nat = Some table_25
  /\ _handle_missing_data example_library 0%nat
       (Some (as_dict (analyze_dataset example_library table_25))) [table_25]
     = _handle_missing_data example_library 0%nat None [table_25].
Proof.
  split; [reflexivity |].
  exact (handle_missing_data_own_report example_library example_library 0%nat
           table_25 [table_25] eq_refl).
Defined.

(** ** What moves the quality score *)

Lemma clamp_0_100_mono (x y : Q) : x <= y -> clamp_0_100 x <= clamp_0_100 y.
Proof.
  intros Hxy. unfold clamp_0_100.
  destruct (Q.min_spec 100 x) as [[H1 H2] | [H1 H2]];
    destruct (Q.max_spec 0 (Qmin 100 x)) as [[H3 H4] | [H3 H4]];
    destruct (Q.min_spec 100 y) as [[H5 H6] | [H5 H6]];
    destruct (Q.max_spec 0 (Qmin 100 y)) as [[H7 H8] | [H7 H8]]; lra.
Qed.

Lemma outlier_share_zero (analysis_results : AnalysisResults) :
  outlier_share analysis_results == 0
  <-> (basic_info_shape analysis_results).1 = 0%nat
      \/ match get_combined (outliers analysis_results) with
         | Some outlier_info => total_outliers outlier_info
         | None => 0%nat
         end = 0%nat.
Proof.
  unfold outlier_share.
  set (o := match get_combined (outliers analysis_results) with
            | Some outlier_info => total_outliers outlier_info
            | None => 0%nat
            end).
  destruct (bool_decide_reflect (0 < (basic_info_shape analysis_results).1)%nat)
    as [Hrows | Hrows].
  - pose proof (Qnat_pos _ Hrows) as Hpos. split.
    + intros H. right. destruct o as [| o']; [reflexivity | exfalso].
      pose proof (Qnat_pos (S o') ltac:(lia)) as Ho.
      assert (0 < Qnat (S o') / Qnat (basic_info_shape analysis_results).1)
        by (apply Qlt_shift_div_l; lra).
      lra.
    + intros [H | ->]; [lia |]. unfold Qnat at 1. simpl. field. lra.
  - split; [intros _; left; lia | reflexivity].
Qed.

Lemma quality_score_finite (analysis_results : AnalysisResults) (m d : Q) :
  missing_percentage (missing_data analysis_results) = Fin m ->
  exact_duplicate_pct (duplicates analysis_results) = Fin d ->
  exists q,
    _calculate_quality_score analysis_results = Fin q
    /\ q == clamp_0_100 (100 - 2 * m - (3 # 2) * d
                         - (1 # 2) * outlier_share analysis_results).
Proof.
  intros Hm Hd. unfold _calculate_quality_score, outlier_share. rewrite Hm, Hd.
  destruct (bool_decide (0 < (basic_info_shape analysis_results).1)%nat); simpl.
  - match goal with
    | |- context [py_min (Fin 100) (Fin ?e)] =>
        destruct (py_clamp_finite e) as (q & Hq & Heq)
    end.
    exists q. split; [exact Hq |]. rewrite Heq.
    match goal with |- clamp_0_100 ?a == clamp_0_100 ?b =>
      assert (E : a == b) by ring end.
    unfold clamp_0_100. now rewrite E.
  - match goal with
    | |- context [py_min (Fin 100) (Fin ?e)] =>
        destruct (py_clamp_finite e) as (q & Hq & Heq)
    end.
    exists q. split; [exact Hq |]. rewrite Heq.
    match goal with |- clamp_0_100 ?a == clamp_0_100 ?b =>
      assert (E : a == b) by ring end.
    unfold clamp_0_100. now rewrite E.
Qed.

(** X4. More defects never raise the score: of two results on Tables with
    the same number of rows, the one with the larger missing percentage,
    duplicate percentage and outlier share has the smaller or equal score. *)
Theorem quality_score_antitone (r1 r2 : AnalysisResults) (m1 m2 d1 d2 : Q) :
  missing_percentage (missing_data r1) = Fin m1 ->
  missing_percentage (missing_data r2) = Fin m2 ->
  exact_duplicate_pct (duplicates r1) = Fin d1 ->
  exact_duplicate_pct (duplicates r2) = Fin d2 ->
  m1 <= m2 -> d1 <= d2 -> outlier_share r1 <= outlier_share r2 ->
  exists q1 q2,
    _calculate_quality_score r1 = Fin q1
    /\ _calculate_quality_score r2 = Fin q2
    /\ q2 <= q1.
Proof.
  intros Hm1 Hm2 Hd1 Hd2 Hm Hd Ho.
  destruct (quality_score_finite r1 m1 d1 Hm1 Hd1) as (q1 & Hq1 & E1).
  destruct (quality_score_finite r2 m2 d2 Hm2 Hd2) as (q2 & Hq2 & E2).
  exists q1, q2. split; [exact Hq1 |]. split; [exact Hq2 |].
  rewrite E1, E2. apply clamp_0_100_mono. lra.
Qed.

Lemma quality_score_antitone_witness :
  (30 <= 40 /\ 20 <= 20 /\ outlier_share sample_report <= outlier_share cleaner_report)
  /\ exists q1 q2,
       _calculate_quality_score sample_report = Fin q1
       /\ _calculate_quality_score cleaner_report = Fin q2
       /\ q2 <= q1.
Proof.
  assert (H : outlier_share sample_report <= outlier_share cleaner_report)
    by (vm_compute; discriminate).
  split; [repeat split; [lra | lra | exact H] |].
  exact (quality_score_antitone sample_report cleaner_report 30 40 20 20
           eq_refl eq_refl eq_refl eq_refl ltac:(lra) ltac:(lra) H).
Defined.

(** ** Binary64 rounding *)

Lemma pow2_pos (e : Z) : 0 < pow2 e.
Proof. apply Qpower_0_lt. reflexivity. Qed.

Lemma pow2_add (a b : Z) : pow2 (a + b) == pow2 a * pow2 b.
Proof. apply Qpower_plus. discriminate. Qed.

Lemma pow2_sub (a b : Z) : pow2 (a - b) == pow2 a / pow2 b.
Proof. apply Qpower_minus. discriminate. Qed.

Lemma pow2_le (a b : Z) : (a <= b)%Z -> pow2 a <= pow2 b.
Proof. intros H. apply Qpower_le_compat_l; [exact H | discriminate]. Qed.

Lemma pow2_lt (a b : Z) : (a < b)%Z -> pow2 a < pow2 b.
Proof. intros H. apply Qpower_lt_compat_l; [exact H | reflexivity]. Qed.

Lemma pow2_lt_inv (a b : Z) : pow2 a < pow2 b -> (a < b)%Z.
Proof. intros H. apply (Qpower_lt_compat_l_inv 2); [exact H | reflexivity]. Qed.

Lemma pow2_Z (e : Z) : (0 <= e)%Z -> pow2 e == inject_Z (2 ^ e).
Proof. intros H. unfold pow2. now rewrite Zpower_Qpower. Qed.

Lemma pow2_scale (a b : Z) : pow2 a / pow2 b == pow2 (a - b).
Proof. symmetry. apply pow2_sub. Qed.

(** The binade of a positive rational. *)
Lemma Qlog2_spec (x : Q) :
  0 < x -> pow2 (Qlog2 x) <= x /\ x < pow2 (Qlog2 x + 1).
Proof.
  intros Hx. destruct x as [n d].
  assert (Hn : (0 < n)%Z) by (unfold Qlt in Hx; simpl in Hx; lia).
  destruct (Z.log2_spec n Hn) as [Hn1 Hn2].
  destruct (Z.log2_spec (Z.pos d) eq_refl) as [Hd1 Hd2].
  pose proof (Z.log2_nonneg n) as Hln. pose proof (Z.log2_nonneg (Z.pos d)) as Hld.
  rewrite Zle_Qle, <- pow2_Z in Hn1, Hd1 by lia.
  rewrite Zlt_Qlt, <- pow2_Z in Hn2, Hd2 by lia.
  unfold Qlog2. cbn [Qnum Qden].
  set (ln := Z.log2 n) in *. set (ld := Z.log2 (Z.pos d)) in *.
  assert (Ex : n # d == inject_Z n / inject_Z (Z.pos d)) by apply Qmake_Qdiv.
  assert (HD : 0 < inject_Z (Z.pos d)) by reflexivity.
  assert (HN : 0 < inject_Z n) by (change 0 with (inject_Z 0); now rewrite <- Zlt_Qlt).
  pose proof (pow2_pos ld) as Hpd. pose proof (pow2_pos (Z.succ ld)) as Hpd'.
  destruct (decide (pow2 (ln - ld) <= n # d)) as [Hk | Hk].
  - split; [exact Hk |].
    replace (ln - ld + 1)%Z with (Z.succ ln - ld)%Z by lia.
    rewrite pow2_sub, Ex.
    apply Qlt_shift_div_l; [exact Hpd |].
    assert (E : inject_Z n / inject_Z (Z.pos d) * pow2 ld
                == inject_Z n * pow2 ld / inject_Z (Z.pos d)) by (field; lra).
    rewrite E. apply Qlt_shift_div_r; [exact HD |].
    apply Qle_lt_trans with (inject_Z n * inject_Z (Z.pos d)).
    + apply Qmult_le_l; [exact HN | exact Hd1].
    + apply Qmult_lt_r; [exact HD | exact Hn2].
  - split; [| replace (ln - ld - 1 + 1)%Z with (ln - ld)%Z by lia; lra].
    replace (ln - ld - 1)%Z with (ln - Z.succ ld)%Z by lia.
    rewrite pow2_sub, Ex.
    apply Qle_shift_div_r; [exact Hpd' |].
    assert (E : inject_Z n / inject_Z (Z.pos d) * pow2 (Z.succ ld)
                == inject_Z n * pow2 (Z.succ ld) / inject_Z (Z.pos d)) by (field; lra).
    rewrite E. apply Qle_shift_div_l; [exact HD |].
    apply Qle_trans with (pow2 ln * pow2 (Z.succ ld)).
    + apply Qmult_le_l; [apply pow2_pos | lra].
    + apply Qmult_le_r; [exact Hpd' | exact Hn1].
Qed.

Lemma Qlog2_unique (x : Q) (k : Z) :
  pow2 k <= x -> x < pow2 (k + 1) -> Qlog2 x = k.
Proof.
  intros H1 H2.
  assert (Hx : 0 < x) by (pose proof (pow2_pos k); lra).
  destruct (Qlog2_spec x Hx) as [H3 H4].
  assert (Ha : (k < Qlog2 x + 1)%Z) by (apply pow2_lt_inv; lra).
  assert (Hb : (Qlog2 x < k + 1)%Z) by (apply pow2_lt_inv; lra).
  lia.
Qed.

Lemma Qlog2_mono (x y : Q) : 0 < x -> x <= y -> (Qlog2 x <= Qlog2 y)%Z.
Proof.
  intros Hx Hxy.
  destruct (Qlog2_spec x Hx) as [H1 _].
  destruct (Qlog2_spec y ltac:(lra)) as [_ H2].
  assert (H : (Qlog2 x < Qlog2 y + 1)%Z) by (apply pow2_lt_inv; lra).
  lia.
Qed.

(** ** Rounding to the nearest integer *)

Lemma rne_cases (y : Q) :
  (rne y = Qfloor y /\ y - inject_Z (Qfloor y) <= 1 # 2)
  \/ (rne y = (Qfloor y + 1)%Z /\ (1 # 2) <= y - inject_Z (Qfloor y)).
Proof.
  unfold rne. destruct (Qcompare _ _) eqn:E.
  - apply Qeq_alt in E. destruct (Z.even (Qfloor y)); [left | right]; split;
      try reflexivity; lra.
  - apply Qlt_alt in E. left. split; [reflexivity | lra].
  - apply Qgt_alt in E. right. split; [reflexivity | lra].
Qed.

Lemma rne_error (y : Q) : Qabs (inject_Z (rne y) - y) <= 1 # 2.
Proof.
  pose proof (Qfloor_le y) as H1. pose proof (Qlt_floor y) as H2.
  rewrite inject_Z_succ in H2.
  apply Qabs_Qle_condition.
  destruct (rne_cases y) as [[-> H] | [-> H]]; [| rewrite inject_Z_succ];
    split; lra.
Qed.

Lemma rne_ge_Z (i : Z) (y : Q) : inject_Z i <= y -> (i <= rne y)%Z.
Proof.
  intros H. apply Qfloor_resp_le in H. rewrite Qfloor_Z in H.
  destruct (rne_cases y) as [[-> _] | [-> _]]; lia.
Qed.

Lemma rne_le_Z (i : Z) (y : Q) : y <= inject_Z i -> (rne y <= i)%Z.
Proof.
  intros H. pose proof (Qfloor_le y) as H1.
  assert (Hf : (Qfloor y <= i)%Z) by (rewrite Zle_Qle; lra).
  destruct (rne_cases y) as [[-> _] | [-> Hhalf]]; [exact Hf |].
  destruct (Z.eq_dec (Qfloor y) i) as [E | Hne]; [| lia].
  rewrite E in Hhalf. lra.
Qed.

Lemma rne_mono (y1 y2 : Q) : y1 <= y2 -> (rne y1 <= rne y2)%Z.
Proof.
  intros H. pose proof (Qfloor_resp_le _ _ H) as Hf.
  destruct (Z.eq_dec (Qfloor y1) (Qfloor y2)) as [E | Hne].
  - destruct (rne_cases y1) as [[H1 _] | [H1 Hhalf1]];
      destruct (rne_cases y2) as [[H2 Hhalf2] | [H2 _]]; try lia.
    rewrite E in Hhalf1.
    assert (E1 : y1 - inject_Z (Qfloor y2) == 1 # 2) by lra.
    assert (E2 : y2 - inject_Z (Qfloor y2) == 1 # 2) by lra.
    apply Qeq_alt in E1, E2. unfold rne. rewrite E, E1, E2. lia.
  - destruct (rne_cases y1) as [[-> _] | [-> _]];
      destruct (rne_cases y2) as [[-> _] | [-> _]]; lia.
Qed.

(** ** Rounding a positive rational *)

Lemma pow2_ratio (j e : Z) : (e <= j)%Z -> pow2 j / pow2 e == inject_Z (2 ^ (j - e)).
Proof. intros H. rewrite pow2_scale. apply pow2_Z. lia. Qed.

Lemma Qdiv_le_pos (a b c : Q) : 0 < c -> a <= b -> a / c <= b / c.
Proof.
  intros Hc H. apply Qle_shift_div_l; [exact Hc |].
  assert (E : a / c * c == a) by (field; lra). lra.
Qed.

Lemma exponent_spec (x : Q) :
  (-1074 <= exponent x)%Z /\ (Qlog2 x - 52 <= exponent x)%Z
  /\ (exponent x = -1074 \/ exponent x = Qlog2 x - 52)%Z.
Proof. unfold exponent. lia. Qed.

Lemma round_pos_nonneg (x : Q) : 0 < x -> 0 <= round_pos x.
Proof.
  intros Hx. unfold round_pos. pose proof (pow2_pos (exponent x)) as He.
  apply Qmult_le_0_compat; [| lra].
  change 0 with (inject_Z 0). rewrite <- Zle_Qle. apply rne_ge_Z.
  change (inject_Z 0) with 0. apply Qle_shift_div_l; [exact He | lra].
Qed.

(** A bound that is a multiple of the unit in the last place is kept by the
    rounding. *)
Lemma round_pos_le_multiple (x : Q) (j : Z) :
  (exponent x <= j)%Z -> x <= pow2 j -> round_pos x <= pow2 j.
Proof.
  intros Hj Hx. unfold round_pos. set (e := exponent x) in *.
  pose proof (pow2_pos e) as He.
  assert (H : (rne (x / pow2 e) <= 2 ^ (j - e))%Z).
  { apply rne_le_Z. rewrite <- pow2_ratio by exact Hj. now apply Qdiv_le_pos. }
  rewrite Zle_Qle, <- pow2_ratio in H by exact Hj.
  apply Qle_trans with (pow2 j / pow2 e * pow2 e).
  - apply Qmult_le_compat_r; lra.
  - assert (E : pow2 j / pow2 e * pow2 e == pow2 j) by (field; lra). lra.
Qed.

Lemma round_pos_ge_multiple (x : Q) (j : Z) :
  (exponent x <= j)%Z -> pow2 j <= x -> pow2 j <= round_pos x.
Proof.
  intros Hj Hx. unfold round_pos. set (e := exponent x) in *.
  pose proof (pow2_pos e) as He.
  assert (H : (2 ^ (j - e) <= rne (x / pow2 e))%Z).
  { apply rne_ge_Z. rewrite <- pow2_ratio by exact Hj. now apply Qdiv_le_pos. }
  rewrite Zle_Qle, <- pow2_ratio in H by exact Hj.
  apply Qle_trans with (pow2 j / pow2 e * pow2 e).
  - assert (E : pow2 j / pow2 e * pow2 e == pow2 j) by (field; lra). lra.
  - apply Qmult_le_compat_r; lra.
Qed.

(** Rounding is monotone. *)
Lemma round_pos_mono (x y : Q) : 0 < x -> x <= y -> round_pos x <= round_pos y.
Proof.
  intros Hx Hxy. assert (Hy : 0 < y) by lra.
  pose proof (Qlog2_mono x y Hx Hxy) as Hk.
  destruct (Qlog2_spec x Hx) as [Hx1 Hx2]. destruct (Qlog2_spec y Hy) as [Hy1 Hy2].
  destruct (exponent_spec x) as (Hx3 & Hx4 & Hx5).
  destruct (exponent_spec y) as (Hy3 & Hy4 & Hy5).
  destruct (Z.eq_dec (exponent x) (exponent y)) as [E | Hne].
  - unfold round_pos. rewrite E. pose proof (pow2_pos (exponent y)) as He.
    apply Qmult_le_compat_r; [| lra].
    rewrite <- Zle_Qle. apply rne_mono. now apply Qdiv_le_pos.
  - assert (Hlt : (exponent x < exponent y)%Z) by (unfold exponent in *; lia).
    apply Qle_trans with (pow2 (Qlog2 y)).
    + set (j := Z.max (Qlog2 x + 1) (exponent x)).
      apply Qle_trans with (pow2 j).
      * apply round_pos_le_multiple; [unfold j; lia |].
        apply Qle_trans with (pow2 (Qlog2 x + 1)); [lra | apply pow2_le; unfold j; lia].
      * apply pow2_le. unfold j. lia.
    + apply round_pos_ge_multiple; [lia | exact Hy1].
Qed.

(** A multiple of the unit in the last place is not changed. *)
Lemma round_pos_multiple (x : Q) (m : Z) :
  x == inject_Z m * pow2 (exponent x) -> round_pos x == x.
Proof.
  intros H. unfold round_pos. set (e := exponent x) in *.
  pose proof (pow2_pos e) as He.
  assert (E : x / pow2 e == inject_Z m) by (rewrite H; field; lra).
  assert (Hr : rne (x / pow2 e) = m).
  { assert (H1 : inject_Z m <= x / pow2 e) by lra.
    assert (H2 : x / pow2 e <= inject_Z m) by lra.
    apply rne_ge_Z in H1. apply rne_le_Z in H2. lia. }
  rewrite Hr. lra.
Qed.

(** The relative error of one rounding, away from the subnormal range. *)
Lemma round_pos_error (x : Q) :
  0 < x -> (-1022 <= Qlog2 x)%Z ->
  Qabs (round_pos x - x) <= x * pow2 (-53).
Proof.
  intros Hx Hk. destruct (Qlog2_spec x Hx) as [Hx1 _].
  assert (He : exponent x = (Qlog2 x - 52)%Z) by (unfold exponent; lia).
  unfold round_pos. rewrite He. set (e := (Qlog2 x - 52)%Z).
  pose proof (pow2_pos e) as Hpe.
  pose proof (rne_error (x / pow2 e)) as Herr.
  set (m := inject_Z (rne (x / pow2 e))) in *.
  assert (E : m * pow2 e - x == (m - x / pow2 e) * pow2 e) by (field; lra).
  rewrite E, Qabs_Qmult, (Qabs_pos (pow2 e)) by lra.
  apply Qle_trans with ((1 # 2) * pow2 e).
  - apply Qmult_le_compat_r; lra.
  - assert (E2 : (1 # 2) * pow2 e == pow2 (Qlog2 x) * pow2 (-53)).
    { rewrite <- pow2_add. unfold e.
      replace (Qlog2 x - 52)%Z with (Qlog2 x + -53 + 1)%Z by lia.
      rewrite (pow2_add _ 1). change (pow2 1) with 2. field. }
    rewrite E2. pose proof (pow2_pos (-53)). apply Qmult_le_compat_r; lra.
Qed.

(** ** Rounding any rational *)

Lemma round_finite_pos (x : Q) : 0 < x -> round_finite x = round_pos x.
Proof.
  intros H. assert (E : Qcompare x 0 = Gt) by (apply Qgt_alt; exact H).
  unfold round_finite. now rewrite E.
Qed.

Lemma round_finite_neg (x : Q) : x < 0 -> round_finite x = - round_pos (- x).
Proof.
  intros H. assert (E : Qcompare x 0 = Lt) by (apply Qlt_alt; exact H).
  unfold round_finite. now rewrite E.
Qed.

Lemma round_finite_zero (x : Q) : x == 0 -> round_finite x = 0.
Proof.
  intros H. assert (E : Qcompare x 0 = Eq) by (apply Qeq_alt; exact H).
  unfold round_finite. now rewrite E.
Qed.

Lemma round_finite_mono (x y : Q) : x <= y -> round_finite x <= round_finite y.
Proof.
  intros Hxy.
  destruct (Q_dec x 0) as [[Hx | Hx] | Hx]; destruct (Q_dec y 0) as [[Hy | Hy] | Hy];
    try (exfalso; lra);
    rewrite ?(round_finite_pos x), ?(round_finite_neg x), ?(round_finite_zero x),
            ?(round_finite_pos y), ?(round_finite_neg y), ?(round_finite_zero y)
      by assumption.
  - assert (H : round_pos (- y) <= round_pos (- x)) by (apply round_pos_mono; lra). lra.
  - pose proof (round_pos_nonneg (- x)). pose proof (round_pos_nonneg y). lra.
  - pose proof (round_pos_nonneg (- x)). lra.
  - apply round_pos_mono; lra.
  - pose proof (round_pos_nonneg y). lra.
  - lra.
Qed.

(** Equal rationals round to equal rationals, whatever their fractions. *)
Lemma round_finite_proper (x y : Q) : x == y -> round_finite x == round_finite y.
Proof.
  intros H. apply Qle_antisym; apply round_finite_mono; lra.
Qed.

(** ** Operations on floats *)

Lemma round64_at_most (x B : Q) : is_binary64 B -> x <= B -> at_most B (round64 x).
Proof.
  intros (HB & _ & Hhi) Hx. pose proof (round_finite_mono x B Hx) as Hr.
  unfold round64, at_most.
  destruct (decide (pow2 1024 <= round_finite x)); [exfalso; lra |].
  destruct (decide (round_finite x <= - pow2 1024)); [now left |].
  right. eexists. split; [reflexivity | lra].
Qed.

Lemma round64_at_least (x B : Q) : is_binary64 B -> B <= x -> at_least B (round64 x).
Proof.
  intros (HB & Hlo & _) Hx. pose proof (round_finite_mono B x Hx) as Hr.
  unfold round64, at_least.
  destruct (decide (pow2 1024 <= round_finite x)); [now left |].
  destruct (decide (round_finite x <= - pow2 1024)); [exfalso; lra |].
  right. eexists. split; [reflexivity | lra].
Qed.

Lemma b64_sub_at_most (s b : np_float) (B1 B2 B : Q) :
  is_binary64 B -> at_most B1 s -> at_least B2 b -> B1 - B2 <= B ->
  at_most B (b64_sub s b).
Proof.
  intros HB [-> | (q & -> & Hq)] [-> | (q' & -> & Hq')] H; try (now left).
  - unfold b64_sub. simpl. apply round64_at_most; [exact HB | lra].
Qed.

Lemma b64_sub_at_least (s b : np_float) (B1 B2 B : Q) :
  is_binary64 B -> at_least B1 s -> at_most B2 b -> B <= B1 - B2 ->
  at_least B (b64_sub s b).
Proof.
  intros HB [-> | (q & -> & Hq)] [-> | (q' & -> & Hq')] H; try (now left).
  - unfold b64_sub. simpl. apply round64_at_least; [exact HB | lra].
Qed.

Lemma b64_mul_at_most (x : np_float) (c B0 B : Q) :
  is_binary64 B -> 0 < c -> at_most B0 x -> B0 * c <= B ->
  at_most B (b64_mul x (Fin c)).
Proof.
  intros HB Hc [-> | (q & -> & Hq)] H.
  - left. unfold b64_mul. simpl. now rewrite (Qsign_pos c Hc).
  - unfold b64_mul. simpl. apply round64_at_most; [exact HB |].
    assert (q * c <= B0 * c) by (apply Qmult_le_compat_r; lra). lra.
Qed.

Lemma b64_mul_at_least (x : np_float) (c B0 B : Q) :
  is_binary64 B -> 0 < c -> at_least B0 x -> B <= B0 * c ->
  at_least B (b64_mul x (Fin c)).
Proof.
  intros HB Hc [-> | (q & -> & Hq)] H.
  - left. unfold b64_mul. simpl. now rewrite (Qsign_pos c Hc).
  - unfold b64_mul. simpl. apply round64_at_least; [exact HB |].
    assert (B0 * c <= q * c) by (apply Qmult_le_compat_r; lra). lra.
Qed.

(** The final clamp [max(0.0, min(100.0, score))]. *)
Lemma clamp_at_most (B : Q) (s : np_float) :
  0 <= B -> B <= 100 -> at_most B s ->
  exists q, py_max (Fin 0) (py_min (Fin 100) s) = Fin q /\ 0 <= q /\ q <= B.
Proof.
  intros H0 H100 [-> | (q & -> & Hq)].
  - exists 0. split; [reflexivity | lra].
  - unfold py_min, py_max, np_gt, np_lt.
    destruct (bool_decide_reflect (q < 100)) as [Hlt | Hge].
    + destruct (bool_decide_reflect (0 < q)) as [Hpos | Hneg].
      * exists q. split; [reflexivity | lra].
      * exists 0. split; [reflexivity | lra].
    + assert (Hc : bool_decide (0 < 100) = true) by (now apply bool_decide_eq_true_2).
      rewrite Hc. exists 100. split; [reflexivity | lra].
Qed.

Lemma clamp_at_least (B : Q) (s : np_float) :
  0 <= B -> B <= 100 -> at_least B s ->
  exists q, py_max (Fin 0) (py_min (Fin 100) s) = Fin q /\ B <= q /\ q <= 100.
Proof.
  intros H0 H100 [-> | (q & -> & Hq)].
  - exists 100. split; [reflexivity | lra].
  - unfold py_min, py_max, np_gt, np_lt.
    destruct (bool_decide_reflect (q < 100)) as [Hlt | Hge].
    + destruct (bool_decide_reflect (0 < q)) as [Hpos | Hneg].
      * exists q. split; [reflexivity | lra].
      * exists 0. split; [reflexivity | lra].
    + assert (Hc : bool_decide (0 < 100) = true) by (now apply bool_decide_eq_true_2).
      rewrite Hc. exists 100. split; [reflexivity | lra].
Qed.

Lemma binary64_0 : is_binary64 0.
Proof. repeat split; vm_compute; reflexivity. Qed.

Lemma binary64_1 : is_binary64 1.
Proof. repeat split; vm_compute; reflexivity. Qed.

Lemma binary64_100 : is_binary64 100.
Proof. repeat split; vm_compute; reflexivity. Qed.

(** The float just below 100. *)
Lemma binary64_below_100 : is_binary64 (100 - pow2 (-46)).
Proof. repeat split; vm_compute; reflexivity. Qed.

Lemma Qlog2_below (x : Q) (j : Z) : 0 < x -> x < pow2 j -> (Qlog2 x < j)%Z.
Proof.
  intros Hx H. destruct (Qlog2_spec x Hx) as [H1 _]. apply pow2_lt_inv. lra.
Qed.

Lemma Qlog2_above (x : Q) (j : Z) : pow2 j <= x -> (j <= Qlog2 x)%Z.
Proof.
  intros H. assert (Hx : 0 < x) by (pose proof (pow2_pos j); lra).
  destruct (Qlog2_spec x Hx) as [_ H2].
  assert (j < Qlog2 x + 1)%Z by (apply pow2_lt_inv; lra). lia.
Qed.

Lemma round64_within (x lo hi : Q) :
  is_binary64 lo -> is_binary64 hi -> lo <= x -> x <= hi ->
  round64 x = Fin (round_finite x) /\ lo <= round_finite x /\ round_finite x <= hi.
Proof.
  intros (Hlo1 & Hlo2 & _) (Hhi1 & _ & Hhi2) H1 H2.
  pose proof (round_finite_mono lo x H1). pose proof (round_finite_mono x hi H2).
  unfold round64.
  destruct (decide (pow2 1024 <= round_finite x)); [exfalso; lra |].
  destruct (decide (round_finite x <= - pow2 1024)); [exfalso; lra |].
  split; [reflexivity | lra].
Qed.

(** An integer below [2^53] is converted without rounding. *)
Lemma float_of_int_exact (n : nat) :
  (Z.of_nat n < 2 ^ 53)%Z -> float_of_int (Z.of_nat n) == Qnat n.
Proof.
  intros Hn. unfold float_of_int. fold (Qnat n).
  destruct (Nat.eq_dec n 0%nat) as [-> | Hpos].
  - rewrite round_finite_zero; reflexivity.
  - assert (Hx : 0 < Qnat n) by (apply Qnat_pos; lia).
    rewrite round_finite_pos by exact Hx.
    assert (Hk : (Qlog2 (Qnat n) < 53)%Z).
    { apply Qlog2_below; [exact Hx |]. rewrite pow2_Z by lia.
      unfold Qnat. now rewrite <- Zlt_Qlt. }
    destruct (exponent_spec (Qnat n)) as (He1 & _ & He2).
    set (e := exponent (Qnat n)) in *.
    apply (round_pos_multiple _ (Z.of_nat n * 2 ^ (- e))). fold e.
    rewrite inject_Z_mult, <- pow2_Z by lia.
    assert (E : pow2 (- e) * pow2 e == 1).
    { rewrite <- pow2_add. replace (- e + e)%Z with 0%Z by lia. reflexivity. }
    unfold Qnat. rewrite <- Qmult_assoc, E. ring.
Qed.

Lemma unit_roundoff_value : pow2 (-53) == 1 # 9007199254740992.
Proof. reflexivity. Qed.


(** ** The extremes of the quality score, as the machine computes it *)

Lemma at_least_Fin (q B : Q) : B <= q -> at_least B (Fin q).
Proof. intros H. right. now exists q. Qed.

Lemma at_most_Fin (q B : Q) : q <= B -> at_most B (Fin q).
Proof. intros H. right. now exists q. Qed.

Lemma binary64_pow2 (j : Z) : (-1074 <= j)%Z -> (j < 1024)%Z -> is_binary64 (pow2 j).
Proof.
  intros H1 H2. pose proof (pow2_pos j) as Hpos. pose proof (pow2_pos 1024).
  assert (Hk : Qlog2 (pow2 j) = j).
  { apply Qlog2_unique; [lra | apply pow2_lt; lia]. }
  assert (He : (exponent (pow2 j) <= j)%Z) by (unfold exponent; rewrite Hk; lia).
  split; [| split; [lra | apply pow2_lt; lia]].
  rewrite round_finite_pos by exact Hpos.
  apply Qle_antisym.
  - apply round_pos_le_multiple; [exact He | lra].
  - apply round_pos_ge_multiple; [exact He | lra].
Qed.

(** The outlier percentage of the score is never negative. *)
Lemma outlier_pct_at_least (k n : nat) :
  at_least 0 (if bool_decide (0 < n)%nat
              then b64_mul (b64_div (Qnat k) (Qnat n)) (Fin 100)
              else Fin 0).
Proof.
  destruct (bool_decide_reflect (0 < n)%nat) as [Hn | Hn]; [| apply at_least_Fin; lra].
  pose proof (Qnat_pos n Hn) as Hpos. pose proof (Qnat_nonneg k) as Hk.
  apply (b64_mul_at_least _ 100 0 0); [apply binary64_0 | lra | | lra].
  unfold b64_div. rewrite (np_div_pos _ _ Hpos). cbn [b64].
  apply round64_at_least; [apply binary64_0 |].
  apply Qle_shift_div_l; [exact Hpos | lra].
Qed.

Lemma outlier_pct_at_most_0 (n : nat) :
  at_most 0 (if bool_decide (0 < n)%nat
             then b64_mul (b64_div (Qnat 0) (Qnat n)) (Fin 100)
             else Fin 0).
Proof.
  destruct (bool_decide_reflect (0 < n)%nat) as [Hn | Hn]; [| apply at_most_Fin; lra].
  pose proof (Qnat_pos n Hn) as Hpos.
  apply (b64_mul_at_most _ 100 0 0); [apply binary64_0 | lra | | lra].
  unfold b64_div. rewrite (np_div_pos _ _ Hpos). cbn [b64].
  apply round64_at_most; [apply binary64_0 |].
  apply Qle_shift_div_r; [exact Hpos |]. change (Qnat 0) with 0. lra.
Qed.

(** With an exact share of at least [2^-44] percent the rounded outlier
    percentage is at least [2^-45]. *)
Lemma outlier_pct_visible (k n : nat) :
  (0 < n)%nat -> pow2 (-44) <= Qnat k / Qnat n * 100 ->
  at_least (pow2 (-45)) (b64_mul (b64_div (Qnat k) (Qnat n)) (Fin 100)).
Proof.
  intros Hn H. pose proof (Qnat_pos n Hn) as Hpos.
  assert (E44 : pow2 (-44) == 1 # 17592186044416) by reflexivity.
  assert (E45 : pow2 (-45) == 1 # 35184372088832) by reflexivity.
  assert (E51 : pow2 (-51) == 1 # 2251799813685248) by reflexivity.
  apply (b64_mul_at_least _ 100 (pow2 (-51)) (pow2 (-45)));
    [apply binary64_pow2; lia | lra | | rewrite E45, E51; lra].
  unfold b64_div. rewrite (np_div_pos _ _ Hpos). cbn [b64].
  apply round64_at_least; [apply binary64_pow2; lia |].
  rewrite E44 in H. rewrite E51. lra.
Qed.

(** X3. The score as the machine computes it, for percentages that are
    numbers and not negative: it is a number between 0 and 100; it is 100
    when nothing is penalised (no missing cell, no duplicate row, and no
    flagged row or no row at all); it is below 100 as soon as one penalty is
    large enough to survive the rounding (a missing percentage of 2^-47, a
    duplicate percentage of 2^-46, an outlier share of 2^-44); and it is 0
    when the missing percentage is at least 50 or the duplicate percentage is
    at least 200/3. *)
Theorem quality_score_extremes (analysis_results : AnalysisResults) (m d : Q) :
  missing_percentage (missing_data analysis_results) = Fin m ->
  exact_duplicate_pct (duplicates analysis_results) = Fin d ->
  0 <= m -> 0 <= d ->
  exists q,
    _calculate_quality_score_binary64 analysis_results = Fin q
    /\ (0 <= q /\ q <= 100)
    /\ (m == 0 -> d == 0 -> outlier_share analysis_results == 0 -> q == 100)
    /\ (pow2 (-47) <= m \/ pow2 (-46) <= d
        \/ pow2 (-44) <= outlier_share analysis_results -> q < 100)
    /\ (50 <= m -> q == 0)
    /\ ((200 # 3) <= d -> q == 0).
Proof.
  intros Hm Hd Hm0 Hd0.
  pose proof (outlier_share_zero analysis_results) as Hzero.
  unfold _calculate_quality_score_binary64, outlier_share in *. rewrite Hm, Hd.
  set (k := match get_combined (outliers analysis_results) with
            | Some outlier_info => total_outliers outlier_info
            | None => 0%nat
            end) in *.
  set (n := (basic_info_shape analysis_results).1) in *.
  pose proof (outlier_pct_at_least k n) as Ho.
  set (o := if bool_decide (0 < n)%nat
            then b64_mul (b64_div (Qnat k) (Qnat n)) (Fin 100) else Fin 0) in *.
  set (a := b64_mul (Fin m) (Fin 2)).
  set (b := b64_mul (Fin d) (Fin (3 # 2))).
  set (c := b64_mul o (Fin (1 # 2))).
  pose proof binary64_0 as B0. pose proof binary64_100 as B100.
  pose proof binary64_below_100 as Bbelow.
  assert (E46 : pow2 (-46) == 1 # 70368744177664) by reflexivity.
  assert (E47 : pow2 (-47) == 1 # 140737488355328) by reflexivity.
  assert (E45 : pow2 (-45) == 1 # 35184372088832) by reflexivity.
  assert (Ha : at_least 0 a)
    by (apply (b64_mul_at_least _ 2 m 0); [exact B0 | lra | apply at_least_Fin | ]; lra).
  assert (Hb : at_least 0 b)
    by (apply (b64_mul_at_least _ (3 # 2) d 0);
        [exact B0 | lra | apply at_least_Fin | ]; lra).
  assert (Hc : at_least 0 c)
    by (apply (b64_mul_at_least _ (1 # 2) 0 0); [exact B0 | lra | exact Ho | lra]).
  assert (H100 : at_most 100 (Fin 100)) by (apply at_most_Fin; lra).
  set (s1 := b64_sub (Fin 100) a). set (s2 := b64_sub s1 b). set (s3 := b64_sub s2 c).
  assert (Hs1 : at_most 100 s1) by (apply (b64_sub_at_most _ _ 100 0); auto; lra).
  assert (Hs2 : at_most 100 s2) by (apply (b64_sub_at_most _ _ 100 0); auto; lra).
  assert (Hs3 : at_most 100 s3) by (apply (b64_sub_at_most _ _ 100 0); auto; lra).
  destruct (clamp_at_most 100 s3 ltac:(lra) ltac:(lra) Hs3) as (q & Hq & Hq0 & Hq100).
  exists q. split; [exact Hq |]. split; [split; assumption |].
  assert (Hfrom_most : forall B, 0 <= B -> B <= 100 -> at_most B s3 -> q <= B).
  { intros B HB0 HB100 H.
    destruct (clamp_at_most B s3 HB0 HB100 H) as (q' & Hq' & _ & Hle).
    rewrite Hq in Hq'. injection Hq' as <-. exact Hle. }
  split; [| split; [| split]].
  - intros Em Ed Eo.
    assert (Ha' : at_most 0 a)
      by (apply (b64_mul_at_most _ 2 m 0); [exact B0 | lra | apply at_most_Fin | ]; lra).
    assert (Hb' : at_most 0 b)
      by (apply (b64_mul_at_most _ (3 # 2) d 0);
          [exact B0 | lra | apply at_most_Fin | ]; lra).
    assert (Ho' : at_most 0 o).
    { apply Hzero in Eo. destruct Eo as [En | Ek].
      - unfold o. rewrite bool_decide_eq_false_2 by lia. apply at_most_Fin. lra.
      - unfold o. rewrite Ek. apply outlier_pct_at_most_0. }
    assert (Hc' : at_most 0 c)
      by (apply (b64_mul_at_most _ (1 # 2) 0 0); [exact B0 | lra | exact Ho' | lra]).
    assert (L100 : at_least 100 (Fin 100)) by (apply at_least_Fin; lra).
    assert (Ls1 : at_least 100 s1) by (apply (b64_sub_at_least _ _ 100 0); auto; lra).
    assert (Ls2 : at_least 100 s2) by (apply (b64_sub_at_least _ _ 100 0); auto; lra).
    assert (Ls3 : at_least 100 s3) by (apply (b64_sub_at_least _ _ 100 0); auto; lra).
    destruct (clamp_at_least 100 s3 ltac:(lra) ltac:(lra) Ls3) as (q' & Hq' & Hge & _).
    rewrite Hq in Hq'. injection Hq' as <-. lra.
  - intros Hvisible.
    assert (Hbelow : at_most (100 - pow2 (-46)) s3).
    { destruct Hvisible as [Hv | [Hv | Hv]].
      - assert (Ha' : at_least (pow2 (-46)) a).
        { apply (b64_mul_at_least _ 2 m); [apply binary64_pow2; lia | lra
                                           | apply at_least_Fin; lra |].
          rewrite E46. rewrite E47 in Hv. lra. }
        assert (Hs1' : at_most (100 - pow2 (-46)) s1)
          by (apply (b64_sub_at_most _ _ 100 (pow2 (-46))); auto; lra).
        assert (Hs2' : at_most (100 - pow2 (-46)) s2)
          by (apply (b64_sub_at_most _ _ (100 - pow2 (-46)) 0); auto; lra).
        apply (b64_sub_at_most _ _ (100 - pow2 (-46)) 0); auto; lra.
      - assert (Hb' : at_least (pow2 (-46)) b).
        { apply (b64_mul_at_least _ (3 # 2) d); [apply binary64_pow2; lia | lra
                                                 | apply at_least_Fin; lra |].
          rewrite E46 in *. lra. }
        assert (Hs2' : at_most (100 - pow2 (-46)) s2)
          by (apply (b64_sub_at_most _ _ 100 (pow2 (-46))); auto; lra).
        apply (b64_sub_at_most _ _ (100 - pow2 (-46)) 0); auto; lra.
      - assert (Ho' : at_least (pow2 (-45)) o).
        { unfold o. pose proof (pow2_pos (-44)).
          destruct (bool_decide_reflect (0 < n)%nat) as [Hn | Hn]; [| exfalso; lra].
          now apply outlier_pct_visible. }
        assert (Hc' : at_least (pow2 (-46)) c).
        { apply (b64_mul_at_least _ (1 # 2) (pow2 (-45)));
            [apply binary64_pow2; lia | lra | exact Ho' |].
          rewrite E45, E46. lra. }
        apply (b64_sub_at_most _ _ 100 (pow2 (-46))); auto; lra. }
    pose proof (pow2_pos (-46)).
    assert (q <= 100 - pow2 (-46)) by (apply Hfrom_most; [rewrite E46 | | ]; auto; lra).
    lra.
  - intros H50.
    assert (Ha' : at_least 100 a)
      by (apply (b64_mul_at_least _ 2 m 100);
          [exact B100 | lra | apply at_least_Fin | ]; lra).
    assert (Hs1' : at_most 0 s1) by (apply (b64_sub_at_most _ _ 100 100); auto; lra).
    assert (Hs2' : at_most 0 s2) by (apply (b64_sub_at_most _ _ 0 0); auto; lra).
    assert (Hs3' : at_most 0 s3) by (apply (b64_sub_at_most _ _ 0 0); auto; lra).
    assert (q <= 0) by (apply Hfrom_most; auto; lra). lra.
  - intros H66.
    assert (Hb' : at_least 100 b)
      by (apply (b64_mul_at_least _ (3 # 2) d 100);
          [exact B100 | lra | apply at_least_Fin | ]; lra).
    assert (Hs2' : at_most 0 s2) by (apply (b64_sub_at_most _ _ 100 100); auto; lra).
    assert (Hs3' : at_most 0 s3) by (apply (b64_sub_at_most _ _ 0 0); auto; lra).
    assert (q <= 0) by (apply Hfrom_most; auto; lra). lra.
Qed.

Lemma quality_score_extremes_witness :
  (0 <= 30 /\ 0 <= 20)
  /\ exists q, _calculate_quality_score_binary64 sample_report = Fin q /\ q < 100.
Proof.
  split; [split; lra |].
  destruct (quality_score_extremes sample_report 30 20 eq_refl eq_refl
              ltac:(lra) ltac:(lra)) as (q & Hq & _ & _ & Hbelow & _).
  exists q. split; [exact Hq |].
  apply Hbelow. left. assert (E : pow2 (-47) == 1 # 140737488355328) by reflexivity.
  rewrite E. lra.
Defined.

(** ** The missing-data analysis of a well-formed Table *)

Lemma count_true_le (m : list bool) : (count_true m <= length m)%nat.
Proof. unfold count_true. apply length_filter. Qed.

Lemma null_count_le (series : Series) : (null_count series <= series_len series)%nat.
Proof.
  unfold null_count. etransitivity; [apply count_true_le |].
  destruct series; simpl; now rewrite length_map.
Qed.

Lemma percentage_within (count total : nat) :
  (0 < total)%nat -> (count <= total)%nat ->
  exists q, percentage count total = Fin q /\ 0 <= q /\ q <= 100.
Proof.
  intros Ht Hc. rewrite percentage_finite by exact Ht.
  eexists. split; [reflexivity |].
  pose proof (Qnat_pos total Ht) as Hpos. pose proof (Qnat_nonneg count) as Hn.
  assert (Hle : Qnat count <= Qnat total)
    by (unfold Qnat; rewrite <- Zle_Qle; lia).
  assert (H1 : 0 <= Qnat count / Qnat total)
    by (apply Qle_shift_div_l; [exact Hpos | lra]).
  assert (H2 : Qnat count / Qnat total <= 1)
    by (apply Qle_shift_div_r; [exact Hpos | lra]).
  split; lra.
Qed.

Lemma total_missing_bound (df : DataFrame) :
  well_formed df ->
  (sum_list (map (fun kv => null_count kv.2) (columns df)) <= df_size df)%nat.
Proof.
  unfold well_formed, df_size, ncols.
  generalize (nrows df) as n. intros n Hwf.
  induction (columns df) as [| kv cols IH]; simpl; [lia |].
  apply Forall_cons in Hwf as [Hkv Hwf]. specialize (IH Hwf).
  pose proof (null_count_le kv.2). nia.
Qed.

(** X5. On a Table with rows and columns whose columns all have one cell
    per row, the overall missing percentage and every per-column missing
    percentage are numbers between 0 and 100, and the total is the sum of the
    per-column counts and at most the number of cells. *)
Theorem missing_analysis_bounds (df : DataFrame) :
  well_formed df -> (0 < nrows df)%nat -> (0 < ncols df)%nat ->
  let report := DataQualityAnalyzer._analyze_missing_data df in
  within_0_100 (missing_percentage report)
  /\ (forall col pct, (col, pct) ∈ column_missing_pct report -> within_0_100 pct)
  /\ total_missing report = sum_list (map snd (column_missing report))
  /\ (total_missing report <= total_cells report)%nat.
Proof.
  intros Hwf HR HC report.
  pose proof (total_missing_bound df Hwf) as Hbound.
  assert (Hsize : (0 < df_size df)%nat) by (unfold df_size; nia).
  split; [| split; [| split]].
  - unfold within_0_100, report. simpl. now apply percentage_within.
  - intros col pct Hin. unfold report in Hin. simpl in Hin.
    apply list_elem_of_In, in_map_iff in Hin as ([c series] & [= <- <-] & Hin).
    unfold within_0_100. apply percentage_within; [exact HR |].
    unfold well_formed in Hwf. rewrite Forall_forall in Hwf.
    apply list_elem_of_In in Hin. specialize (Hwf _ Hin). simpl in *.
    rewrite <- Hwf. apply null_count_le.
  - unfold report. simpl. f_equal. rewrite map_map. reflexivity.
  - exact Hbound.
Qed.

Lemma missing_analysis_bounds_witness :
  (well_formed sample_table /\ (0 < nrows sample_table)%nat
   /\ (0 < ncols sample_table)%nat)
  /\ within_0_100
       (missing_percentage (DataQualityAnalyzer._analyze_missing_data sample_table)).
Proof.
  assert (Hwf : well_formed sample_table) by (repeat constructor).
  assert (HR : (0 < nrows sample_table)%nat) by (vm_compute; lia).
  assert (HC : (0 < ncols sample_table)%nat) by (vm_compute; lia).
  split; [now repeat split |].
  exact (proj1 (missing_analysis_bounds sample_table Hwf HR HC)).
Defined.

(** ** The missing percentage, as the machine computes it *)

(** C9. The overall missing percentage of a Table with R > 0 rows, C > 0
    columns and M null cells (fewer than 2^53 cells) is the float obtained
    from M / (R * C) by two roundings, of the quotient and of its product
    with 100: a number between 0 and 100 whose relative distance from
    100 * M / (R * C) is at most (1 + 2^-53)^2 - 1, and which is 0 when no
    cell is null. *)
Theorem missing_percentage_two_roundings (df : DataFrame) :
  well_formed df ->
  (0 < nrows df)%nat -> (0 < ncols df)%nat ->
  (Z.of_nat (nrows df * ncols df) < 2 ^ 53)%Z ->
  exists q,
    missing_percentage (_analyze_missing_data_binary64 df) = Fin q
    /\ (0 <= q /\ q <= 100)
    /\ exact_missing_percentage df * (1 - unit_roundoff) * (1 - unit_roundoff) <= q
    /\ q <= exact_missing_percentage df * (1 + unit_roundoff) * (1 + unit_roundoff).
Proof.
  intros Hwf HR HC Hsize.
  pose proof (total_missing_null_cells df) as HM.
  pose proof (total_missing_bound df Hwf) as Hle.
  unfold exact_missing_percentage. rewrite <- HM. clear HM.
  unfold DataQualityAnalyzer._analyze_missing_data, _analyze_missing_data_binary64.
  cbn [total_missing missing_percentage].
  set (M := sum_list (map (fun kv => null_count kv.2) (columns df))) in *.
  assert (HN : df_size df = (nrows df * ncols df)%nat) by reflexivity.
  assert (HNq : Qnat (nrows df) * Qnat (ncols df) == Qnat (df_size df))
    by (rewrite HN, Qnat_mult; reflexivity).
  rewrite <- HN in Hsize. clear HN.
  set (N := df_size df) in *.
  assert (HNpos : (0 < N)%nat) by (unfold N, df_size; nia).
  pose proof (float_of_int_exact M ltac:(lia)) as Ha.
  pose proof (float_of_int_exact N Hsize) as Hb.
  unfold percentage_binary64.
  set (a := float_of_int (Z.of_nat M)) in *. set (b := float_of_int (Z.of_nat N)) in *.
  pose proof (Qnat_pos N HNpos) as HNQ. pose proof (Qnat_nonneg M) as HMQ.
  assert (HMN : Qnat M <= Qnat N) by (unfold Qnat; rewrite <- Zle_Qle; lia).
  assert (HN53 : Qnat N <= 9007199254740992).
  { unfold Qnat. change 9007199254740992 with (inject_Z (2 ^ 53)).
    rewrite <- Zle_Qle. lia. }
  assert (Hbpos : 0 < b) by lra.
  unfold b64_div. rewrite (np_div_pos a b Hbpos). cbn [b64].
  assert (Hx : a / b == Qnat M / Qnat N) by (rewrite Ha, Hb; reflexivity).
  assert (Hx0 : 0 <= a / b).
  { apply Qle_shift_div_l; [exact Hbpos | lra]. }
  assert (Hx1 : a / b <= 1).
  { apply Qle_shift_div_r; [exact Hbpos | lra]. }
  destruct (round64_within (a / b) 0 1 binary64_0 binary64_1 Hx0 Hx1) as (Et & Ht0 & Ht1).
  rewrite Et. unfold b64_mul. cbn [np_mul b64].
  set (t := round_finite (a / b)) in *.
  assert (Hy0 : 0 <= t * 100) by lra. assert (Hy1 : t * 100 <= 100) by lra.
  destruct (round64_within (t * 100) 0 100 binary64_0 binary64_100 Hy0 Hy1)
    as (Ep & Hp0 & Hp1).
  rewrite Ep. eexists. split; [reflexivity |]. split; [lra |].
  set (p := round_finite (t * 100)) in *.
  assert (Hexact : 100 * Qnat M / (Qnat (nrows df) * Qnat (ncols df)) == 100 * (a / b))
    by (rewrite HNq, Hx; field; lra).
  rewrite Hexact. unfold unit_roundoff. rewrite unit_roundoff_value.
  destruct (Nat.eq_dec M 0%nat) as [HM0 | HMpos].
  - assert (Hzero : a / b == 0).
    { rewrite Hx, HM0. unfold Qnat at 1. simpl. field. lra. }
    assert (Et0 : t == 0) by (unfold t; now rewrite (round_finite_zero _ Hzero)).
    assert (Ep0 : p == 0).
    { unfold p. rewrite round_finite_zero; [reflexivity | lra]. }
    rewrite Hzero, Ep0. split; lra.
  - assert (HM1 : 1 <= Qnat M).
    { unfold Qnat. change 1 with (inject_Z 1). rewrite <- Zle_Qle. lia. }
    assert (Hxlow : pow2 (-53) <= a / b).
    { rewrite unit_roundoff_value. apply Qle_shift_div_l; [exact Hbpos | lra]. }
    assert (Hxpos : 0 < a / b) by (pose proof (pow2_pos (-53)); lra).
    pose proof (Qlog2_above _ _ Hxlow) as Hkx.
    pose proof (round_pos_error (a / b) Hxpos ltac:(lia)) as Herr1.
    rewrite <- (round_finite_pos _ Hxpos) in Herr1. fold t in Herr1.
    rewrite unit_roundoff_value in Herr1, Hxlow.
    apply Qabs_Qle_condition in Herr1.
    assert (Hylow : pow2 (-53) <= t * 100) by (rewrite unit_roundoff_value; lra).
    assert (Hypos : 0 < t * 100) by (pose proof (pow2_pos (-53)); lra).
    pose proof (Qlog2_above _ _ Hylow) as Hky.
    pose proof (round_pos_error (t * 100) Hypos ltac:(lia)) as Herr2.
    rewrite <- (round_finite_pos _ Hypos) in Herr2. fold p in Herr2.
    rewrite unit_roundoff_value in Herr2.
    apply Qabs_Qle_condition in Herr2.
    split; lra.
Qed.

(** On the six rows and two columns of the example, of which two cells are
    null, the specification's value is 50/3; the analysis holds
    16.666666666666664, the float 2345624805922133 / 2^47, which is smaller. *)
Lemma missing_percentage_is_rounded :
  exact_missing_percentage sample_table == 50 # 3
  /\ exists q,
       missing_percentage (_analyze_missing_data_binary64 sample_table) = Fin q
       /\ q == 2345624805922133 # 140737488355328
       /\ q < exact_missing_percentage sample_table.
Proof.
  split; [vm_compute; reflexivity |].
  eexists. split; [vm_compute; reflexivity |].
  split; vm_compute; reflexivity.
Qed.

Lemma missing_percentage_two_roundings_witness :
  (well_formed sample_table
   /\ (0 < nrows sample_table)%nat /\ (0 < ncols sample_table)%nat
   /\ (Z.of_nat (nrows sample_table * ncols sample_table) < 2 ^ 53)%Z)
  /\ exists q,
       missing_percentage (_analyze_missing_data_binary64 sample_table) = Fin q
       /\ q <= exact_missing_percentage sample_table
               * (1 + unit_roundoff) * (1 + unit_roundoff).
Proof.
  assert (Hwf : well_formed sample_table) by (repeat constructor).
  assert (HR : (0 < nrows sample_table)%nat) by (vm_compute; lia).
  assert (HC : (0 < ncols sample_table)%nat) by (vm_compute; lia).
  assert (HS : (Z.of_nat (nrows sample_table * ncols sample_table) < 2 ^ 53)%Z)
    by (vm_compute; reflexivity).
  split; [repeat split; assumption |].
  destruct (missing_percentage_two_roundings sample_table Hwf HR HC HS)
    as (q & Hq & _ & _ & Hhi).
  exists q. split; [exact Hq | exact Hhi].
Defined.

(** X6. A well-formed Table without rows is analysed without an error: both
    percentages are NaN (0/0), both severities read "high", and the quality
    score is 100, because NaN passes through the clamp as its upper bound. *)
Theorem empty_table_analysis (lib : Library) (df : DataFrame) :
  well_formed df -> nrows df = 0%nat ->
  let report := analyze_dataset lib df in
  missing_percentage (missing_data report) = NaN
  /\ missing_severity (missing_data report) = Some "high"
  /\ exact_duplicate_pct (duplicates report) = NaN
  /\ duplicate_severity (duplicates report) = "high"
  /\ quality_score report = Fin 100.
Proof.
  intros Hwf Hrows report.
  assert (Hmissing : sum_list (map (fun kv => null_count kv.2) (columns df)) = 0%nat).
  { pose proof (total_missing_bound df Hwf) as H. unfold df_size in H.
    rewrite Hrows in H. simpl in H. lia. }
  assert (Hm : missing_percentage (missing_data report) = NaN).
  { unfold report. simpl. rewrite Hmissing. unfold df_size. now rewrite Hrows. }
  assert (Hd : exact_duplicate_pct (duplicates report) = NaN).
  { unfold report. simpl. unfold duplicated, rows. now rewrite Hrows. }
  split; [exact Hm |].
  split; [unfold report in *; simpl in *; now rewrite Hm |].
  split; [exact Hd |].
  split; [unfold report in *; simpl in *; now rewrite Hd |].
  unfold report, analyze_dataset. simpl.
  unfold _calculate_quality_score. simpl.
  unfold report in Hm, Hd. simpl in Hm, Hd. rewrite Hm, Hd.
  rewrite Hrows. reflexivity.
Qed.

Lemma empty_table_analysis_witness :
  (well_formed (mkDataFrame [] [("a", NumericS [])])
   /\ nrows (mkDataFrame [] [("a", NumericS [])]) = 0%nat)
  /\ quality_score (analyze_dataset example_library
                      (mkDataFrame [] [("a", NumericS [])])) = Fin 100.
Proof.
  assert (Hwf : well_formed (mkDataFrame [] [("a", NumericS [])]))
    by (repeat constructor).
  split; [now split |].
  exact (proj2 (proj2 (proj2 (proj2
           (empty_table_analysis example_library _ Hwf eq_refl))))).
Defined.

(** ** Selecting rows *)

Lemma count_true_cons_true (m : list bool) : count_true (true :: m) = S (count_true m).
Proof. unfold count_true. now rewrite filter_cons_True by reflexivity. Qed.

Lemma count_true_cons_false (m : list bool) : count_true (false :: m) = count_true m.
Proof. unfold count_true. now rewrite filter_cons_False by discriminate. Qed.

Section Select.

Context {A : Type}.
Implicit Types (mask : list bool) (l : list A).

Lemma select_length mask l :
  (length mask <= length l)%nat -> length (select mask l) = count_true mask.
Proof.
  revert l.
  induction mask as [| b mask IH]; intros [| x l] Hlen;
    try reflexivity; try (cbn [length] in Hlen; lia).
  cbn [length] in Hlen. destruct b; cbn [select length].
  - rewrite count_true_cons_true. f_equal. apply IH. lia.
  - rewrite count_true_cons_false. apply IH. lia.
Qed.

Lemma select_sublist mask l : select mask l `sublist_of` l.
Proof.
  revert l. induction mask as [| b mask IH]; intros [| x l]; simpl;
    try apply sublist_nil_l.
  destruct b; [apply sublist_skip | apply sublist_cons]; apply IH.
Qed.

Lemma select_all mask l :
  count_true mask = length mask -> length l = length mask -> select mask l = l.
Proof.
  revert l.
  induction mask as [| b mask IH]; intros [| x l] Hall Hlen;
    try reflexivity; try (cbn [length] in Hlen; lia).
  cbn [length] in Hlen, Hall. destruct b; cbn [select].
  - rewrite count_true_cons_true in Hall. f_equal. apply IH; lia.
  - rewrite count_true_cons_false in Hall.
    pose proof (count_true_le mask). lia.
Qed.

Lemma select_elem_of mask l x : x ∈ select mask l -> x ∈ l.
Proof. intros H. eapply elem_of_sublist; [exact H | apply select_sublist]. Qed.

End Select.

Lemma select_map {A B} (f : A -> B) (mask : list bool) (l : list A) :
  select mask (map f l) = map f (select mask l).
Proof.
  revert l. induction mask as [| b mask IH]; intros [| x l]; simpl; try reflexivity.
  destruct b; simpl; now rewrite IH.
Qed.

(** The cell at position [j] of a selection is the cell at the [j]-th kept
    position. *)
Lemma select_nth {A} (mask : list bool) (l : list A) (d : A) (a j : nat) :
  length l = length mask ->
  (j < length (select mask l))%nat ->
  nth j (select mask l) d
  = nth (nth j (select mask (seq a (length mask))) 0%nat - a) l d.
Proof.
  revert l a j.
  induction mask as [| b mask IH]; intros [| x l] a j Hlen Hj; simpl in *;
    try lia.
  assert (Hkept : forall j', (j' < length (select mask l))%nat ->
            (S a <= nth j' (select mask (seq (S a) (length mask))) 0%nat)%nat).
  { intros j' Hj'.
    assert (Hin : nth j' (select mask (seq (S a) (length mask))) 0%nat
                  ∈ seq (S a) (length mask)).
    { apply select_elem_of with mask. apply list_elem_of_In, nth_In.
      rewrite !select_length in * by (rewrite ?length_seq; lia). exact Hj'. }
    apply elem_of_seq in Hin. lia. }
  destruct b; simpl in *.
  - destruct j as [| j]; simpl.
    + now rewrite Nat.sub_diag.
    + rewrite (IH l (S a) j) by lia.
      specialize (Hkept j ltac:(lia)).
      replace (nth j (select mask (seq (S a) (length mask))) 0%nat - a)%nat
        with (S (nth j (select mask (seq (S a) (length mask))) 0%nat - S a)) by lia.
      reflexivity.
  - rewrite (IH l (S a) j) by lia.
    specialize (Hkept j Hj).
    replace (nth j (select mask (seq (S a) (length mask))) 0%nat - a)%nat
      with (S (nth j (select mask (seq (S a) (length mask))) 0%nat - S a)) by lia.
    reflexivity.
Qed.

Lemma series_cells_length (series : Series) :
  length (series_cells series) = series_len series.
Proof. destruct series; simpl; now rewrite length_map. Qed.

Lemma series_cells_select (mask : list bool) (series : Series) :
  series_cells (series_select mask series) = select mask (series_cells series).
Proof. destruct series; simpl; now rewrite select_map. Qed.

Lemma series_select_length (mask : list bool) (series : Series) :
  (length mask <= series_len series)%nat ->
  series_len (series_select mask series) = count_true mask.
Proof. intros H. destruct series; simpl in *; now apply select_length. Qed.

Lemma series_select_all (mask : list bool) (series : Series) :
  count_true mask = length mask -> series_len series = length mask ->
  series_select mask series = series.
Proof. intros H1 H2. destruct series; simpl in *; f_equal; now apply select_all. Qed.

Lemma select_rows_well_formed (mask : list bool) (df : DataFrame) :
  well_formed df -> length mask = nrows df -> well_formed (select_rows mask df).
Proof.
  unfold well_formed, select_rows, nrows. simpl. intros Hwf Hlen.
  rewrite Forall_forall in *. intros [col series] Hin.
  apply list_elem_of_In, in_map_iff in Hin as ([c s0] & [= <- <-] & Hin). simpl.
  apply list_elem_of_In in Hin. specialize (Hwf _ Hin). simpl in Hwf.
  rewrite series_select_length, select_length by lia. reflexivity.
Qed.

(** The rows of a selection are the selected rows. *)
Lemma rows_select_rows (mask : list bool) (df : DataFrame) :
  well_formed df -> length mask = nrows df ->
  rows (select_rows mask df) = select mask (rows df).
Proof.
  intros Hwf Hlen. unfold rows. rewrite select_map.
  assert (Hk : length (select mask (seq 0 (nrows df))) = nrows (select_rows mask df)).
  { unfold nrows, select_rows. simpl.
    rewrite !select_length by (rewrite ?length_seq; unfold nrows in *; lia).
    reflexivity. }
  apply (nth_ext _ _ [] []).
  - rewrite !length_map, length_seq. now rewrite Hk.
  - intros j Hj. rewrite length_map, length_seq in Hj.
    rewrite (nth_indep _ [] (row_at (select_rows mask df) 0%nat))
      by (rewrite length_map, length_seq; exact Hj).
    rewrite (map_nth (row_at (select_rows mask df)) _ 0%nat j), seq_nth by exact Hj.
    rewrite (nth_indep _ [] (row_at df 0%nat)) by (rewrite length_map; lia).
    rewrite (map_nth (row_at df) _ 0%nat j). simpl.
    unfold row_at, select_rows. simpl. rewrite map_map. simpl.
    apply map_ext_in. intros [col series] Hin.
    unfold well_formed in Hwf. rewrite Forall_forall in Hwf.
    apply list_elem_of_In in Hin. specialize (Hwf _ Hin). simpl in *.
    rewrite series_cells_select.
    rewrite (select_nth mask (series_cells series) CNull 0%nat j).
    + rewrite Nat.sub_0_r, Hlen. reflexivity.
    + rewrite series_cells_length. lia.
    + rewrite select_length by (rewrite series_cells_length; lia).
      unfold nrows, select_rows in Hj. simpl in Hj.
      rewrite select_length in Hj by (unfold nrows in *; lia). exact Hj.
Qed.

(** ** Removing duplicate rows *)

Lemma existsb_subseteq {A} (f : A -> bool) (l k : list A) :
  (forall x, x ∈ l -> x ∈ k) -> existsb f k = false -> existsb f l = false.
Proof.
  intros Hsub Hk. destruct (existsb f l) eqn:E; [| reflexivity].
  apply existsb_exists in E as (x & Hin & Hf).
  assert (existsb f k = true); [| congruence].
  apply existsb_exists. exists x. split; [| exact Hf].
  apply list_elem_of_In, Hsub, list_elem_of_In, Hin.
Qed.

Lemma duplicated_from_length (seen rs : list (list cell)) :
  length (duplicated_from seen rs) = length rs.
Proof.
  revert seen. induction rs as [| r rs IH]; intros seen; simpl; [reflexivity |].
  now rewrite IH.
Qed.

(** Among the rows kept, none repeats an earlier kept row. *)
Lemma no_duplicate_among_kept (seen seen' rs : list (list cell)) :
  (forall x, x ∈ seen' -> x ∈ seen) ->
  count_true (duplicated_from seen'
                (select (map negb (duplicated_from seen rs)) rs)) = 0%nat.
Proof.
  revert seen seen'.
  induction rs as [| r rs IH]; intros seen seen' Hsub; [reflexivity |].
  cbn [duplicated_from map].
  destruct (existsb (row_eqb r) seen) eqn:E; cbn [negb select].
  - apply IH. intros x Hx. right. now apply Hsub.
  - cbn [duplicated_from].
    rewrite (existsb_subseteq _ seen' seen Hsub E), count_true_cons_false.
    apply IH. intros x Hx. apply elem_of_cons in Hx as [-> | Hx]; [left | right].
    now apply Hsub.
Qed.

Lemma count_true_negb (m : list bool) :
  (count_true (map negb m) + count_true m = length m)%nat.
Proof.
  induction m as [| [] m IH]; cbn [map negb length]; [reflexivity | |].
  - rewrite count_true_cons_true, count_true_cons_false. lia.
  - rewrite count_true_cons_true, count_true_cons_false. lia.
Qed.

Lemma rows_length (df : DataFrame) : length (rows df) = nrows df.
Proof. unfold rows. now rewrite length_map, length_seq. Qed.

Lemma duplicated_length (df : DataFrame) : length (duplicated df) = nrows df.
Proof. unfold duplicated. now rewrite duplicated_from_length, rows_length. Qed.

Lemma select_rows_all (mask : list bool) (df : DataFrame) :
  well_formed df -> count_true mask = length mask -> length mask = nrows df ->
  select_rows mask df = df.
Proof.
  destruct df as [idx cols]. unfold well_formed, select_rows, nrows. simpl.
  intros Hwf Hall Hlen. f_equal; [now apply select_all |].
  induction cols as [| [c series] cols IH]; [reflexivity |].
  apply Forall_cons in Hwf as [Hc Hwf]. simpl in *.
  rewrite IH by exact Hwf.
  rewrite series_select_all; [reflexivity | exact Hall | lia].
Qed.

(** X7. On a well-formed Table, [drop_duplicates] leaves no row that equals
    an earlier one, a second application changes nothing, the rows that
    remain are rows of the input in their order, and their number is the
    number of rows minus the [exact_duplicates] of the analysis. *)
Theorem drop_duplicates_idempotent (df : DataFrame) :
  well_formed df ->
  count_true (duplicated (drop_duplicates df)) = 0%nat
  /\ drop_duplicates (drop_duplicates df) = drop_duplicates df
  /\ index (drop_duplicates df) `sublist_of` index df
  /\ nrows (drop_duplicates df)
     = (nrows df - exact_duplicates (_analyze_duplicates df))%nat.
Proof.
  intros Hwf.
  assert (Hmask : length (map negb (duplicated df)) = nrows df)
    by now rewrite length_map, duplicated_length.
  pose proof (select_rows_well_formed _ df Hwf Hmask) as Hwf'.
  fold (drop_duplicates df) in Hwf'.
  assert (Hnone : count_true (duplicated (drop_duplicates df)) = 0%nat).
  { unfold duplicated at 1, drop_duplicates.
    rewrite rows_select_rows by assumption.
    apply no_duplicate_among_kept. auto. }
  split; [exact Hnone |].
  split; [| split].
  - unfold drop_duplicates at 1.
    set (df' := drop_duplicates df) in *.
    pose proof (count_true_negb (duplicated df')) as Hneg.
    rewrite Hnone, duplicated_length in Hneg.
    assert (Hall : count_true (map negb (duplicated df'))
                   = length (map negb (duplicated df')))
      by (rewrite length_map, duplicated_length; lia).
    assert (Hlen : length (map negb (duplicated df')) = nrows df')
      by now rewrite length_map, duplicated_length.
    now apply select_rows_all.
  - unfold drop_duplicates, select_rows. simpl. apply select_sublist.
  - unfold drop_duplicates, select_rows, nrows at 1. simpl.
    rewrite select_length by (unfold nrows in Hmask; lia).
    pose proof (count_true_negb (duplicated df)) as Hneg.
    rewrite duplicated_length in Hneg. lia.
Qed.

Lemma drop_duplicates_idempotent_witness :
  well_formed twins
  /\ drop_duplicates (drop_duplicates twins) = drop_duplicates twins
  /\ nrows (drop_duplicates twins) = 3%nat.
Proof.
  assert (Hwf : well_formed twins) by (repeat constructor).
  split; [exact Hwf |].
  destruct (drop_duplicates_idempotent twins Hwf) as (_ & H2 & _ & H4).
  split; [exact H2 | exact H4].
Defined.

(** X8. The first row is never a duplicate: on a Table with rows the
    analysis counts fewer duplicates than rows, so the duplicate percentage
    is a number below 100 and [drop_duplicates] keeps at least one row. *)
Theorem duplicates_fewer_than_rows (df : DataFrame) :
  (0 < nrows df)%nat ->
  (exact_duplicates (_analyze_duplicates df) < nrows df)%nat
  /\ (exists q, exact_duplicate_pct (_analyze_duplicates df) = Fin q
                /\ 0 <= q /\ q < 100)
  /\ (0 < nrows (drop_duplicates df))%nat.
Proof.
  intros Hrows.
  assert (Hlt : (count_true (duplicated df) < nrows df)%nat).
  { pose proof (rows_length df) as Hlen. unfold duplicated.
    destruct (rows df) as [| r rs]; [simpl in Hlen; lia |].
    cbn [duplicated_from existsb]. rewrite count_true_cons_false.
    pose proof (count_true_le (duplicated_from [r] rs)) as Hle.
    rewrite duplicated_from_length in Hle. simpl in Hlen. lia. }
  split; [exact Hlt |]. split.
  - simpl. rewrite percentage_finite by exact Hrows.
    eexists. split; [reflexivity |].
    pose proof (Qnat_pos _ Hrows) as Hpos.
    pose proof (Qnat_nonneg (count_true (duplicated df))) as Hn.
    assert (Hq : Qnat (count_true (duplicated df)) < Qnat (nrows df))
      by (unfold Qnat; rewrite <- Zlt_Qlt; lia).
    assert (H1 : 0 <= Qnat (count_true (duplicated df)) / Qnat (nrows df))
      by (apply Qle_shift_div_l; [exact Hpos | lra]).
    assert (H2 : Qnat (count_true (duplicated df)) / Qnat (nrows df) < 1)
      by (apply Qlt_shift_div_r; [exact Hpos | lra]).
    split; lra.
  - unfold drop_duplicates, select_rows, nrows at 1. simpl.
    rewrite select_length
      by (rewrite length_map, duplicated_length; unfold nrows; lia).
    pose proof (count_true_negb (duplicated df)) as Hneg.
    rewrite duplicated_length in Hneg. lia.
Qed.

Lemma duplicates_fewer_than_rows_witness :
  (0 < nrows twins)%nat
  /\ (exact_duplicates (_analyze_duplicates twins) < nrows twins)%nat.
Proof.
  assert (H : (0 < nrows twins)%nat) by (vm_compute; lia).
  split; [exact H |].
  exact (proj1 (duplicates_fewer_than_rows twins H)).
Defined.

(** ** What a stage keeps of the Table it works on *)

Section Keeps.

Context {A B : Type} (r : loc) (I : DataFrame -> Prop).

Lemma keeps_ret (P : A -> Prop) (a : A) : P a -> keeps r I P (mret a).
Proof. intros Ha s Hs. simpl. split; [exact Hs | now intros a' [= <-]]. Qed.

Lemma keeps_raise (P : A -> Prop) (e : exn) : keeps r I P (raise e).
Proof. intros s Hs. simpl. split; [exact Hs | discriminate]. Qed.

Lemma keeps_or_raise (e : exn) (o : option A) :
  keeps r I (fun a => o = Some a) (or_raise e o).
Proof.
  destruct o as [a |]; [now apply keeps_ret | apply keeps_raise].
Qed.

Lemma keeps_bind (P : A -> Prop) (Q : B -> Prop) (m : M A) (k : A -> M B) :
  keeps r I P m -> (forall a, P a -> keeps r I Q (k a)) -> keeps r I Q (m ≫= k).
Proof.
  intros Hm Hk s Hs. unfold mbind, M_bind.
  destruct (Hm s Hs) as (Hinv & Hpost).
  destruct (m s) as [[a | e] s'] eqn:E; simpl in *.
  - exact (Hk a (Hpost a eq_refl) s' Hinv).
  - split; [exact Hinv | discriminate].
Qed.

Lemma keeps_anything (P : A -> Prop) (m : M A) : keeps r I P m -> keeps r I anything m.
Proof. intros Hm s Hs. destruct (Hm s Hs) as (H1 & _). now split. Qed.

End Keeps.

Lemma keeps_read (r : loc) (I : DataFrame -> Prop) : keeps r I I (read r).
Proof.
  intros s (df & Hr & Hdf). unfold read. rewrite Hr. simpl.
  split; [now exists df | now intros a [= <-]].
Qed.

Lemma keeps_write (r : loc) (I : DataFrame -> Prop) (df : DataFrame) :
  I df -> keeps r I anything (write r df).
Proof.
  intros Hdf s (df0 & Hr & _). unfold write. rewrite Hr. simpl.
  split; [| done]. exists df. split; [| exact Hdf].
  apply list_lookup_insert_eq. now apply lookup_lt_Some in Hr.
Qed.

Lemma keeps_for_each {A} (r : loc) (I : DataFrame -> Prop) (l : list A)
    (body : A -> M unit) :
  (forall x, keeps r I anything (body x)) -> keeps r I anything (for_each l body).
Proof.
  intros Hbody. induction l as [| x l IH]; simpl.
  - now apply keeps_ret.
  - eapply keeps_bind; [apply Hbody | intros _ _; exact IH].
Qed.

Lemma keeps_try_pass (r : loc) (I : DataFrame -> Prop) (m : M unit) :
  keeps r I anything m -> keeps r I anything (try_pass m).
Proof.
  intros Hm s Hs. unfold try_pass. destruct (Hm s Hs) as (H1 & _).
  destruct (m s) as [[a | e] s']; simpl in *; now split.
Qed.

(** Column updates leave the index alone. *)
Lemma set_column_index (df : DataFrame) (col : string) (series : Series) :
  index (set_column df col series) = index df.
Proof. unfold set_column. now destruct (get_column df col). Qed.

Lemma set_columns_index (df : DataFrame) (cols : list string)
    (vs : list (list (option Q))) :
  index (set_columns df cols vs) = index df.
Proof.
  revert df vs. induction cols as [| col cols IH]; intros df [| v vs]; simpl;
    try reflexivity.
  now rewrite IH, set_column_index.
Qed.

Lemma drop_column_index (df df' : DataFrame) (col : string) :
  drop_column df col = Some df' -> index df' = index df.
Proof.
  unfold drop_column. destruct (get_column df col); [| discriminate].
  now intros [= <-].
Qed.

Create HintDb keeps.
#[local] Hint Resolve keeps_read keeps_or_raise : keeps.

(** The Table written has the index of the Table read. *)
Ltac index_kept :=
  unfold index_is in *; cbv beta in *;
  repeat first
    [ rewrite set_column_index
    | rewrite set_columns_index
    | match goal with
      | H : drop_column _ _ = Some ?d |- context [index ?d] =>
          rewrite (drop_column_index _ _ _ H)
      end ];
  first [assumption | reflexivity | congruence].

Ltac keeps_step :=
  cbv beta zeta;
  lazymatch goal with
  | |- keeps _ _ _ (mret _) => apply keeps_ret; first [exact I | reflexivity | assumption]
  | |- keeps _ _ _ (raise _) => first [apply (keeps_raise _ _ anything) | apply keeps_raise]
  | |- keeps _ _ _ (write _ _) => apply keeps_write; index_kept
  | |- keeps _ _ _ (mbind _ _) => eapply keeps_bind; [| intros ? ?]
  | |- keeps _ _ _ (for_each _ _) => apply keeps_for_each; intros ?
  | |- keeps _ _ _ (try_pass _) => apply keeps_try_pass
  | |- keeps _ _ _ (match ?x with _ => _ end) => destruct x
  | |- keeps _ _ _ _ => solve [eauto 3 with keeps]
  end.

Ltac keeps_auto := repeat keeps_step.

Section StagesKeepIndex.

Context (lib : Library) (r : loc) (idx : list nat).

Lemma keeps_assign_column (col : string) (value : assigned) :
  keeps r (index_is idx) anything (assign_column r col value).
Proof. unfold assign_column. keeps_auto. Qed.

Lemma keeps_impute_numeric (statistic : list Q -> Q) (col : string) :
  keeps r (index_is idx) anything (impute_numeric statistic r col).
Proof.
  unfold impute_numeric.
  eapply keeps_bind; [apply keeps_read | intros df Hdf].
  eapply keeps_bind; [apply keeps_or_raise | intros series Hs].
  destruct series; first [now apply keeps_ret | apply keeps_raise].
Qed.

#[local] Hint Resolve keeps_assign_column keeps_impute_numeric : keeps.

Lemma keeps_apply_imputation (col method : string) :
  keeps r (index_is idx) anything (_apply_imputation lib r col method).
Proof.
  unfold _apply_imputation.
  repeat match goal with
         | |- keeps _ _ _ (if ?b then _ else _) => destruct b
         end; keeps_auto.
Qed.

#[local] Hint Resolve keeps_apply_imputation : keeps.

Lemma keeps_impute_column (missing_data : MissingData) (col : string) :
  keeps r (index_is idx) anything (impute_column lib r missing_data col).
Proof. unfold impute_column. keeps_auto. Qed.

#[local] Hint Resolve keeps_impute_column : keeps.

Lemma keeps_handle_missing_data (analysis_results : option AnalysisDict) :
  keeps r (index_is idx) (fun r' => r' = r) (_handle_missing_data lib r analysis_results).
Proof. unfold _handle_missing_data. keeps_auto. Qed.

Lemma keeps_cap_column (col : string) :
  keeps r (index_is idx) anything (cap_column r col).
Proof. unfold cap_column. keeps_auto. Qed.

Lemma keeps_standardize_column (col : string) :
  keeps r (index_is idx) anything (standardize_column lib r col).
Proof. unfold standardize_column. keeps_auto. Qed.

Lemma keeps_normalize_column (col : string) :
  keeps r (index_is idx) anything (normalize_column lib r col).
Proof. unfold normalize_column. keeps_auto. Qed.

Lemma keeps_encode_column (col : string) :
  keeps r (index_is idx) anything (encode_column lib r col).
Proof. unfold encode_column. keeps_auto. Qed.

#[local] Hint Resolve keeps_cap_column keeps_standardize_column
  keeps_normalize_column keeps_encode_column : keeps.

Lemma keeps_standardize_data_types :
  keeps r (index_is idx) (fun r' => r' = r) (_standardize_data_types lib r).
Proof. unfold _standardize_data_types. keeps_auto. Qed.

Lemma keeps_handle_inconsistencies :
  keeps r (index_is idx) (fun r' => r' = r) (_handle_inconsistencies lib r).
Proof. unfold _handle_inconsistencies. keeps_auto. Qed.

Lemma keeps_apply_transformations :
  keeps r (index_is idx) (fun r' => r' = r) (_apply_transformations lib r).
Proof.
  unfold _apply_transformations.
  eapply keeps_bind; [apply keeps_read | intros df Hdf].
  eapply (keeps_bind _ _ anything).
  - destruct (numeric_columns df); keeps_auto.
  - intros _ _. keeps_auto.
Qed.

End StagesKeepIndex.

(** ** Which stages remove rows *)

(** X9. The missing-data, type, text and transformation stages work in
    place and never add, remove or reorder a row: the reference they were
    given still holds a Table with the same index afterwards, also when the
    stage raises midway, and it is the reference they return. *)
Theorem in_place_stages_keep_index (lib : Library) (r : loc) (df : DataFrame)
    (s : store) (analysis_results : option AnalysisDict) :
  s !! r = Some df ->
  let unchanged_index (m : M loc) :=
    holds_at r (index_is (index df)) (m s).2
    /\ (forall r', (m s).1 = Ok r' -> r' = r) in
  unchanged_index (_handle_missing_data lib r analysis_results)
  /\ unchanged_index (_standardize_data_types lib r)
  /\ unchanged_index (_handle_inconsistencies lib r)
  /\ unchanged_index (_apply_transformations lib r).
Proof.
  intros Hr unchanged_index.
  assert (Hs : holds_at r (index_is (index df)) s) by now exists df.
  unfold unchanged_index. repeat split.
  - now apply (keeps_handle_missing_data lib r (index df) analysis_results s).
  - now apply (keeps_handle_missing_data lib r (index df) analysis_results s).
  - now apply (keeps_standardize_data_types lib r (index df) s).
  - now apply (keeps_standardize_data_types lib r (index df) s).
  - now apply (keeps_handle_inconsistencies lib r (index df) s).
  - now apply (keeps_handle_inconsistencies lib r (index df) s).
  - now apply (keeps_apply_transformations lib r (index df) s).
  - now apply (keeps_apply_transformations lib r (index df) s).
Qed.

Lemma in_place_stages_keep_index_witness :
  [table_25] !! 0%nat = Some table_25
  /\ holds_at 0%nat (index_is (index table_25))
       (_handle_missing_data example_library 0%nat None [table_25]).2.
Proof.
  split; [reflexivity |].
  exact (proj1 (proj1 (in_place_stages_keep_index example_library 0%nat table_25
                         [table_25] None eq_refl))).
Defined.

Lemma index_shrinks_in_place (stage : loc -> M loc) :
  (forall r idx, keeps r (index_is idx) (fun r' => r' = r) (stage r)) ->
  index_shrinks stage.
Proof.
  intros Hkeeps r s df Hr r' Hok.
  destruct (Hkeeps r (index df) s) as ((df' & Hr' & Hidx) & Hret);
    [now exists df |].
  rewrite (Hret r' Hok). exists df'. split; [exact Hr' |].
  unfold index_is in Hidx. now rewrite Hidx.
Qed.

Lemma index_shrinks_compose (f g : loc -> M loc) :
  index_shrinks f -> index_shrinks g -> index_shrinks (fun r => f r ≫= g).
Proof.
  intros Hf Hg r s df Hr r' Hok. unfold mbind, M_bind in *.
  specialize (Hf r s df Hr).
  destruct (f r s) as [[r1 | e] s1]; simpl in *; [| discriminate].
  destruct (Hf r1 eq_refl) as (df1 & Hr1 & Hsub1).
  destruct (Hg r1 s1 df1 Hr1 r' Hok) as (df' & Hr' & Hsub').
  exists df'. split; [exact Hr' |]. now transitivity (index df1).
Qed.

Lemma index_shrinks_copy : index_shrinks copy.
Proof.
  intros r s df Hr r' Hok. unfold copy, mbind, M_bind, read, alloc in *.
  rewrite Hr in *. simpl in *. injection Hok as <-.
  exists df. split; [| reflexivity].
  now rewrite lookup_app_r, Nat.sub_diag by lia.
Qed.

Lemma index_shrinks_remove_duplicates : index_shrinks _remove_duplicates.
Proof.
  intros r s df Hr r' Hok. unfold _remove_duplicates, mbind, M_bind, read, alloc in *.
  rewrite Hr in *. simpl in *. injection Hok as <-.
  exists (drop_duplicates df). split; [| apply select_sublist].
  now rewrite lookup_app_r, Nat.sub_diag by lia.
Qed.

Lemma drop_index_sublist (df df' : DataFrame) (labels : list nat) :
  drop_index df labels = Some df' -> index df' `sublist_of` index df.
Proof.
  unfold drop_index. destruct (forallb _ labels); [| discriminate].
  intros [= <-]. apply select_sublist.
Qed.

Lemma index_shrinks_handle_outliers (analysis_results : option AnalysisDict) :
  index_shrinks (fun r => _handle_outliers r analysis_results).
Proof.
  intros r s df Hr r' Hok. unfold _handle_outliers in *.
  destruct (analysis_results ≫= dict_outliers) as [outliers |].
  2: { simpl in Hok. injection Hok as <-. now exists df. }
  unfold mbind at 1, M_bind in Hok. unfold mbind at 1, M_bind.
  assert (Hremoved : forall r1 s1,
            remove_outlier_rows r outliers s = (Ok r1, s1) ->
            exists df1, s1 !! r1 = Some df1 /\ index df1 `sublist_of` index df).
  { intros r1 s1. unfold remove_outlier_rows.
    destruct (get_combined outliers) as [info |];
      [| intros [= <- <-]; now exists df].
    destruct (all_outlier_indices info) as [| l labels];
      [intros [= <- <-]; now exists df |].
    unfold mbind, M_bind, read. rewrite Hr. unfold or_raise.
    destruct (drop_index df (l :: labels)) as [df1 |] eqn:Hdrop; simpl;
      [| discriminate].
    intros [= <- <-]. exists df1.
    split; [now rewrite lookup_app_r, Nat.sub_diag by lia |].
    now apply drop_index_sublist in Hdrop. }
  destruct (remove_outlier_rows r outliers s) as [[r1 | e] s1] eqn:E;
    [| discriminate].
  destruct (Hremoved r1 s1 eq_refl) as (df1 & Hr1 & Hsub).
  assert (Hloop : keeps r1 (index_is (index df1)) (fun r' => r' = r1)
                    (df ← read r1; for_each (numeric_columns df) (cap_column r1);;
                     mret r1)).
  { eapply keeps_bind; [apply keeps_read | intros d Hd].
    eapply keeps_bind; [apply keeps_for_each; intros col; apply keeps_cap_column |].
    intros _ _. now apply keeps_ret. }
  destruct (Hloop s1) as ((df' & Hr' & Hidx) & Hret); [now exists df1 |].
  rewrite (Hret r' Hok). exists df'. split; [exact Hr' |].
  unfold index_is in Hidx. now rewrite Hidx.
Qed.

(** X10. Cleaning only removes rows. When [clean_dataset] returns, the
    Table it returns has an index that is a sub-sequence of the index of the
    input Table (no row is added or reordered), so it has at most as many
    rows: [rows_removed] is never negative. *)
Theorem clean_dataset_only_removes_rows (lib : Library) (df : loc)
    (analysis_results : option AnalysisDict) (s : store) (input : DataFrame) :
  s !! df = Some input ->
  forall cleaned_df,
    (clean_dataset lib df analysis_results s).1 = Ok cleaned_df ->
    exists cleaned,
      (clean_dataset lib df analysis_results s).2 !! cleaned_df = Some cleaned
      /\ index cleaned `sublist_of` index input
      /\ (nrows cleaned <= nrows input)%nat.
Proof.
  intros Hdf cleaned_df Hok.
  assert (Hpipeline : index_shrinks (fun r => clean_dataset lib r analysis_results)).
  { unfold clean_dataset.
    apply (index_shrinks_compose copy); [apply index_shrinks_copy |].
    apply (index_shrinks_compose (fun r => _handle_missing_data lib r analysis_results)).
    { apply index_shrinks_in_place. intros r idx. apply keeps_handle_missing_data. }
    apply (index_shrinks_compose (fun r => _handle_outliers r analysis_results));
      [apply index_shrinks_handle_outliers |].
    apply (index_shrinks_compose _remove_duplicates);
      [apply index_shrinks_remove_duplicates |].
    apply (index_shrinks_compose (_standardize_data_types lib)).
    { apply index_shrinks_in_place. intros r idx. apply keeps_standardize_data_types. }
    apply (index_shrinks_compose (_handle_inconsistencies lib)).
    { apply index_shrinks_in_place. intros r idx. apply keeps_handle_inconsistencies. }
    apply (index_shrinks_compose (_apply_transformations lib) mret).
    { apply index_shrinks_in_place. intros r idx. apply keeps_apply_transformations. }
    intros r s' d Hr r' [= <-]. now exists d. }
  destruct (Hpipeline df s input Hdf cleaned_df Hok) as (cleaned & Hc & Hsub).
  exists cleaned. split; [exact Hc |]. split; [exact Hsub |].
  unfold nrows. now apply sublist_length.
Qed.

(** ** The outlier report and the row removal *)

Lemma dropna_labels (labels : list nat) (v : list (option Q)) (l : nat) (q : Q) :
  (l, q) ∈ dropna labels v -> l ∈ labels.
Proof.
  revert v. induction labels as [| l0 labels IH]; intros [| c v] H; simpl in H;
    try (now inversion H).
  destruct c as [q0 |].
  - apply elem_of_cons in H as [[= -> ->] | H]; [left | right; eauto].
  - right. eauto.
Qed.

Lemma flagged_labels (f : Q -> bool) (col_data : list (nat * Q)) (l : nat) :
  l ∈ flagged f col_data -> exists q, (l, q) ∈ col_data.
Proof.
  unfold flagged. intros H.
  apply list_elem_of_In, in_map_iff in H as ([l' q] & <- & H).
  apply list_elem_of_In, list_elem_of_filter in H as [_ H]. now exists q.
Qed.

Lemma statistical_flag_within_index (df : DataFrame) (cols : list string) (i : nat) :
  statistical_flag (_statistical_outlier_detection df cols) i -> i ∈ index df.
Proof.
  intros (col & result & method & indices & Hres & Hmethod & Hi).
  unfold _statistical_outlier_detection in Hres.
  apply list_elem_of_In, in_flat_map in Hres as (c & _ & Hres).
  destruct (get_column df c) as [[v | | |] |]; try now inversion Hres.
  destruct (dropna (index df) v) as [| x col_data] eqn:E; [now inversion Hres |].
  destruct Hres as [[= <- <-] | []].
  unfold column_outliers in Hmethod. simpl in Hmethod.
  repeat (apply elem_of_cons in Hmethod as [[= -> ->] | Hmethod]);
    try (now inversion Hmethod);
    apply flagged_labels in Hi as (q & Hq); rewrite <- E in Hq;
    eapply dropna_labels; exact Hq.
Qed.

Lemma ensemble_flag_within_index (lib : Library) (df : DataFrame) (cols : list string)
    (i : nat) :
  ensemble_flag (_ml_outlier_detection lib df cols) i -> i ∈ index df.
Proof.
  intros (method & count & indices & Hin & Hi).
  unfold _ml_outlier_detection in Hin.
  destruct (bool_decide (nrows df < 10)%nat).
  - apply elem_of_cons in Hin as [[=] | Hin]; inversion Hin.
  - assert (Hentry : forall prediction,
              MLFound count indices = ml_entry (index df) prediction ->
              i ∈ index df).
    { intros [mask |]; [| discriminate]. unfold ml_entry. intros [= _ ->].
      eapply select_elem_of; exact Hi. }
    apply elem_of_cons in Hin as [[= _ Hfound] | Hin]; [eauto |].
    apply elem_of_cons in Hin as [[= _ Hfound] | Hin]; [eauto | inversion Hin].
Qed.

Lemma drop_index_defined (df : DataFrame) (labels : list nat) :
  (forall l, l ∈ labels -> l ∈ index df) ->
  drop_index df labels
  = Some (select_rows (map (fun l => negb (bool_decide (l ∈ labels))) (index df)) df).
Proof.
  intros Hin. unfold drop_index.
  assert (H : forallb (fun l => bool_decide (l ∈ index df)) labels = true).
  { apply forallb_forall. intros l Hl.
    apply bool_decide_eq_true_2, Hin, list_elem_of_In, Hl. }
  now rewrite H.
Qed.

Lemma drop_index_missing_label (df : DataFrame) (labels : list nat) (l : nat) :
  l ∈ labels -> l ∉ index df -> drop_index df labels = None.
Proof.
  intros Hl Hnot. unfold drop_index.
  destruct (forallb _ labels) eqn:E; [| reflexivity].
  rewrite forallb_forall in E.
  specialize (E l ltac:(now apply list_elem_of_In)).
  now apply bool_decide_eq_true_1 in E.
Qed.

(** X11. Every row label in the combined outlier set of an analysis is a
    label of the analysed Table, so [total_outliers] is at most its number of
    rows; and the row removal of the cleaner, given these labels and a Table
    with the same index, does not raise [KeyError]. *)
Theorem analysis_outliers_within_index (lib : Library) (df : DataFrame)
    (statistical : list (string * ColumnOutliers)) (ml_based : list (string * MLEntry))
    (combined : Combined) :
  _analyze_outliers lib df = OutliersFound statistical ml_based combined ->
  (forall i, i ∈ all_outlier_indices combined -> i ∈ index df)
  /\ (total_outliers combined <= nrows df)%nat
  /\ (forall df', index df' = index df ->
        is_Some (drop_index df' (all_outlier_indices combined))).
Proof.
  intros Hout. unfold _analyze_outliers in Hout.
  destruct (numeric_columns df) as [| c cols] eqn:Ecols; [discriminate |].
  injection Hout as <- <- <-.
  assert (Hin : forall i,
             i ∈ all_outlier_indices
                   (_combine_outlier_results
                      (_statistical_outlier_detection df (c :: cols))
                      (_ml_outlier_detection lib df (c :: cols))) ->
             i ∈ index df).
  { intros i. unfold _combine_outlier_results. cbn [all_outlier_indices].
    rewrite elem_of_elements, ml_indices_spec.
    unfold statistical_indices. rewrite statistical_fold_spec, elem_of_empty.
    intros [[[] | H] | H].
    - now apply statistical_flag_within_index in H.
    - now apply ensemble_flag_within_index in H. }
  split; [exact Hin |]. split.
  - unfold _combine_outlier_results in *. cbn [all_outlier_indices total_outliers] in *.
    unfold nrows. apply submseteq_length, NoDup_submseteq; [apply NoDup_elements |].
    exact Hin.
  - intros df' Hidx. rewrite drop_index_defined; [eauto |].
    intros l Hl. rewrite Hidx. now apply Hin.
Qed.

Lemma analysis_outliers_within_index_witness :
  exists statistical ml_based combined,
    _analyze_outliers example_library sample_table
    = OutliersFound statistical ml_based combined
    /\ (total_outliers combined <= nrows sample_table)%nat.
Proof.
  eexists _, _, _. split; [reflexivity |].
  exact (proj1 (proj2 (analysis_outliers_within_index example_library sample_table
                         _ _ _ eq_refl))).
Defined.

Lemma cap_column_returns (r : loc) (col : string) (s : store) :
  is_Some (s !! r) ->
  (cap_column r col s).1 = Ok tt /\ is_Some ((cap_column r col s).2 !! r).
Proof.
  intros [df Hr]. unfold cap_column, mbind, M_bind, read. rewrite Hr.
  assert (Hw : forall df',
             (write r df' s).1 = Ok tt /\ is_Some ((write r df' s).2 !! r)).
  { intros df'. unfold write. rewrite Hr. simpl. split; [reflexivity |].
    exists df'. apply list_lookup_insert_eq. now apply lookup_lt_Some in Hr. }
  destruct (get_column df col) as [[v | | |] |]; simpl; eauto.
  destruct (omap id v); simpl; eauto.
  destruct (bool_decide _); simpl; eauto.
Qed.

(** The capping loop never raises on a valid reference. *)
Lemma cap_loop_returns (r : loc) (cols : list string) (s : store) :
  is_Some (s !! r) -> (for_each cols (cap_column r) s).1 = Ok tt.
Proof.
  revert s. induction cols as [| col cols IH]; intros s Hr; [reflexivity |].
  simpl. unfold mbind, M_bind.
  destruct (cap_column_returns r col s Hr) as [Hok Hvalid].
  destruct (cap_column r col s) as [[[] | e] s']; simpl in *; [| discriminate].
  now apply IH.
Qed.

Lemma select_not_in (labels idx : list nat) :
  select (map (fun l => negb (bool_decide (l ∈ labels))) idx) idx
  = filter (fun l => l ∉ labels) idx.
Proof.
  induction idx as [| l idx IH]; [reflexivity |]. cbn [map select].
  destruct (bool_decide_reflect (l ∈ labels)) as [Hin | Hnot]; cbn [negb].
  - rewrite filter_cons_False by tauto. exact IH.
  - rewrite filter_cons_True by exact Hnot. now rewrite IH.
Qed.

(** X12. Row removal against the report. When the report lists outlier
    labels and all of them are labels of the Table, [_handle_outliers]
    returns a new object whose index is the old index without the listed
    labels, and the object it was given keeps its value. When some listed
    label is not in the index (a report of another Table), it raises
    [KeyError] and changes nothing. *)
Theorem handle_outliers_row_removal (r : loc) (s : store) (df : DataFrame)
    (d : AnalysisDict) (outliers : Outliers) (info : Combined) :
  s !! r = Some df ->
  dict_outliers d = Some outliers ->
  get_combined outliers = Some info ->
  all_outlier_indices info <> [] ->
  ((forall l, l ∈ all_outlier_indices info -> l ∈ index df) ->
   exists df',
     (_handle_outliers r (Some d) s).1 = Ok (length s)
     /\ (_handle_outliers r (Some d) s).2 !! length s = Some df'
     /\ index df' = filter (fun l => l ∉ all_outlier_indices info) (index df)
     /\ (_handle_outliers r (Some d) s).2 !! r = Some df)
  /\ ((exists l, l ∈ all_outlier_indices info /\ l ∉ index df) ->
      _handle_outliers r (Some d) s = (Raise KeyError, s)).
Proof.
  intros Hr Hd Hinfo Hne.
  assert (Hlt : (r < length s)%nat) by now apply lookup_lt_Some in Hr.
  set (loop := df ← read (length s);
               for_each (numeric_columns df) (cap_column (length s));;
               mret (length s)).
  assert (Hrun : _handle_outliers r (Some d) s
                 = match drop_index df (all_outlier_indices info) with
                   | Some df1 => loop (s ++ [df1])
                   | None => (Raise KeyError, s)
                   end).
  { unfold _handle_outliers. cbn [mbind option_bind]. rewrite Hd.
    unfold mbind at 1, M_bind. unfold remove_outlier_rows. rewrite Hinfo.
    destruct (all_outlier_indices info) as [| l0 labels]; [contradiction |].
    unfold mbind at 1 2, M_bind, read. rewrite Hr. unfold or_raise.
    now destruct (drop_index df (l0 :: labels)). }
  rewrite Hrun. split.
  - intros Hin. rewrite (drop_index_defined df _ Hin).
    set (df1 := select_rows _ df).
    assert (Hr1 : (s ++ [df1]) !! length s = Some df1)
      by now rewrite lookup_app_r, Nat.sub_diag by lia.
    assert (Hkeeps : keeps (length s) (index_is (index df1))
                       (fun r' => r' = length s) loop).
    { unfold loop. eapply keeps_bind; [apply keeps_read | intros d0 Hd0].
      eapply keeps_bind; [apply keeps_for_each; intros col; apply keeps_cap_column |].
      intros _ _. now apply keeps_ret. }
    assert (Hframes : frames (length s) (fun r' => (length s <= r')%nat) loop).
    { unfold loop. frames_auto. }
    destruct (Hkeeps (s ++ [df1])) as ((df' & Hr' & Hidx) & _); [now exists df1 |].
    destruct (Hframes (s ++ [df1])) as (_ & Hold & _);
      [rewrite length_app; simpl; lia |].
    assert (Hok : (loop (s ++ [df1])).1 = Ok (length s)).
    { unfold loop, mbind, M_bind, read. rewrite Hr1.
      pose proof (cap_loop_returns (length s) (numeric_columns df1) (s ++ [df1])
                    ltac:(now exists df1)) as Hloop.
      destruct (for_each _ _ _) as [[[] | e] s']; simpl in *;
        [reflexivity | discriminate]. }
    exists df'. split; [exact Hok |]. split; [exact Hr' |]. split.
    + unfold index_is in Hidx. rewrite Hidx. unfold df1, select_rows. simpl.
      apply select_not_in.
    + rewrite Hold by exact Hlt. now apply lookup_app_l_Some.
  - intros (l & Hl & Hnot).
    now rewrite (drop_index_missing_label df _ l Hl Hnot).
Qed.

Lemma clean_dataset_only_removes_rows_witness :
  [twins] !! 0%nat = Some twins
  /\ (clean_dataset passing_library 0%nat None [twins]).1 = Ok 2%nat
  /\ exists cleaned,
       (clean_dataset passing_library 0%nat None [twins]).2 !! 2%nat = Some cleaned
       /\ index cleaned `sublist_of` index twins
       /\ (nrows cleaned <= nrows twins)%nat.
Proof.
  split; [reflexivity |]. split; [reflexivity |].
  exact (clean_dataset_only_removes_rows passing_library 0%nat None [twins] twins
           eq_refl 2%nat eq_refl).
Defined.

Lemma handle_outliers_row_removal_witness :
  ([sample_table] !! 0%nat = Some sample_table
   /\ (forall l, l ∈ [4%nat] -> l ∈ index sample_table))
  /\ exists df',
       (_handle_outliers 0%nat (Some outliers_of_row_4) [sample_table]).1 = Ok 1%nat
       /\ (_handle_outliers 0%nat (Some outliers_of_row_4) [sample_table]).2 !! 1%nat
          = Some df'
       /\ index df' = [0; 1; 2; 3; 5]%nat
       /\ (_handle_outliers 0%nat (Some outliers_of_row_4) [sample_table]).2 !! 0%nat
          = Some sample_table.
Proof.
  assert (Hin : forall l, l ∈ [4%nat] -> l ∈ index sample_table).
  { intros l Hl. apply list_elem_of_singleton in Hl as ->. simpl. set_solver. }
  split; [split; [reflexivity | exact Hin] |].
  exact (proj1 (handle_outliers_row_removal 0%nat [sample_table] sample_table
                  outliers_of_row_4 _ _ eq_refl eq_refl eq_refl ltac:(discriminate))
           Hin).
Defined.

(** ** Clusters of missing values *)

Lemma missing_runs_lengths (col : string) (open : option (nat * nat * nat))
    (labelled : list (nat * bool)) :
  sum_list (map cluster_length (missing_runs col open labelled))
  = (open_length open + count_true (map snd labelled))%nat.
Proof.
  revert open. induction labelled as [| [label []] rest IH]; intros open.
  - destruct open as [[[s e] n] |]; simpl; unfold count_true; simpl; lia.
  - cbn [map snd]. rewrite count_true_cons_true.
    destruct open as [[[s e] n] |]; cbn [missing_runs]; rewrite IH; simpl; lia.
  - cbn [map snd]. rewrite count_true_cons_false.
    destruct open as [[[s e] n] |]; cbn [missing_runs map sum_list];
      rewrite ?IH; simpl; lia.
Qed.

Lemma zip_snd_same_length {A B} (l : list A) (k : list B) :
  length l = length k -> map snd (zip l k) = k.
Proof.
  revert k. induction l as [| x l IH]; intros [| y k] Hlen; simpl in *;
    try reflexivity; try lia.
  f_equal. apply IH. lia.
Qed.

Lemma existsb_false_count (m : list bool) :
  existsb (fun b => b) m = false -> count_true m = 0%nat.
Proof.
  induction m as [| [] m IH]; simpl; intros H; [reflexivity | discriminate |].
  rewrite count_true_cons_false. now apply IH.
Qed.

Lemma missing_runs_maximal (col : string) (f : nat -> bool) (lo hi : nat) :
  forall (k a : nat) (open : option (nat * nat * nat)),
    (lo <= a)%nat -> (a + k = hi)%nat -> open_run_ok f lo a open ->
    Forall (maximal_run f lo hi)
           (missing_runs col open (map (fun i => (i, f i)) (seq a k))).
Proof.
  induction k as [| k IH]; intros a open Hlo Hhi Hopen.
  - destruct open as [[[s e] n] |]; simpl; [| constructor].
    destruct Hopen as (He & Hs & Hse & Hn & Hall & Hleft).
    constructor; [| constructor].
    unfold maximal_run. simpl. repeat split; try lia; try assumption.
  - cbn [seq map]. destruct (f a) eqn:Efa.
    + destruct open as [[[s e] n] |]; cbn [missing_runs].
      * destruct Hopen as (He & Hs & Hse & Hn & Hall & Hleft).
        apply IH; [lia | lia |]. simpl. repeat split; try lia; try assumption.
        intros i Hi. destruct (decide (i = a)) as [-> | Hne]; [exact Efa |].
        apply Hall. lia.
      * apply IH; [lia | lia |]. simpl in *. repeat split; try lia.
        -- intros i Hi. rewrite <- Efa. f_equal. lia.
        -- intros Hlt. rewrite <- (Hopen Hlt). f_equal.
    + destruct open as [[[s e] n] |]; cbn [missing_runs].
      * destruct Hopen as (He & Hs & Hse & Hn & Hall & Hleft).
        constructor.
        -- unfold maximal_run. simpl. repeat split; try lia; try assumption.
           intros _. rewrite <- Efa. f_equal. lia.
        -- apply IH; [lia | lia |]. simpl. intros _.
           rewrite <- Efa. f_equal. lia.
      * apply IH; [lia | lia |]. simpl. intros _.
        rewrite <- Efa. f_equal. lia.
Qed.

Lemma zip_seq_mask (mask : list bool) (a : nat) :
  zip (seq a (length mask)) mask
  = map (fun i => (i, nth (i - a) mask false)) (seq a (length mask)).
Proof.
  revert a. induction mask as [| b mask IH]; intros a; [reflexivity |].
  cbn [length seq zip zip_with map]. rewrite Nat.sub_diag. cbn [nth]. f_equal.
  change (zip_with pair (seq (S a) (length mask)) mask)
    with (zip (seq (S a) (length mask)) mask).
  rewrite IH. apply map_ext_in. intros i Hi. apply in_seq in Hi.
  replace (i - a)%nat with (S (i - S a)) by lia. reflexivity.
Qed.

(** X13. The clusters of a column. Their lengths add up to the number of
    missing values of the column (the mask has one entry per label). On an
    index of consecutive labels [a, a + n) each cluster is a maximal run of
    missing values: it lies within the index, its length is
    [end - start + 1], every label from start to end is missing, and the
    labels just before and just after it, if any, are not. *)
Theorem missing_clusters_are_maximal_runs (col : string) (mask : list bool) :
  (forall index : list nat,
     length index = length mask ->
     sum_list (map cluster_length (_find_missing_clusters index [(col, mask)]))
     = count_true mask)
  /\ (forall a : nat,
        Forall (maximal_run (fun i => nth (i - a) mask false) a (a + length mask))
               (_find_missing_clusters (seq a (length mask)) [(col, mask)])).
Proof.
  split.
  - intros index Hlen. unfold _find_missing_clusters. simpl. rewrite app_nil_r.
    destruct (existsb (fun b => b) mask) eqn:E.
    + rewrite missing_runs_lengths, zip_snd_same_length by exact Hlen. reflexivity.
    + now rewrite existsb_false_count.
  - intros a. unfold _find_missing_clusters. simpl. rewrite app_nil_r.
    destruct (existsb (fun b => b) mask); [| constructor].
    rewrite zip_seq_mask.
    apply missing_runs_maximal; [lia | lia |]. simpl. lia.
Qed.

(** ** Mixed types *)

Lemma date_formats_detected (str_is_datetime : string -> bool)
    (values : list (option pyobj)) :
  date_formats_of str_is_datetime values ⊆ {["detected"]}.
Proof.
  unfold date_formats_of.
  assert (H : forall acc : gset string,
             acc ⊆ {["detected"]} ->
             foldl (fun date_formats value =>
                      match value with
                      | Some (PStr v) =>
                          if str_is_datetime v then date_formats ∪ {["detected"]}
                          else date_formats
                      | _ => date_formats
                      end) acc values ⊆ {["detected"]}).
  { induction values as [| value values IH]; intros acc Hacc; [exact Hacc |].
    simpl. apply IH. destruct value as [[v | q | t] |]; try exact Hacc.
    destruct (str_is_datetime v); [| exact Hacc].
    apply union_least; [exact Hacc | reflexivity]. }
  apply H. apply empty_subseteq.
Qed.

Lemma numeric_count_le (lib : Library) (series : Series) :
  (numeric_count lib series <= series_len series)%nat.
Proof.
  destruct series; simpl; try lia;
    (etransitivity; [apply count_true_le | now rewrite length_map]).
Qed.

(** X14. [_check_mixed_types] never reports ["mixed_date_formats"]: the set
    of detected formats holds at most the one tag ["detected"]. It reports
    ["mixed_numeric_string"] exactly when some but not all of the values
    convert to a number, nulls counting as values that do not; so a numeric
    column that has a value and a null is reported as mixed. *)
Theorem mixed_types_reports (str_is_datetime : string -> bool) (lib : Library)
    (series : Series) :
  ("mixed_date_formats" ∉ _check_mixed_types str_is_datetime lib series)
  /\ ("mixed_numeric_string" ∈ _check_mixed_types str_is_datetime lib series
      <-> ((0 < numeric_count lib series)%nat
           /\ (numeric_count lib series < series_len series)%nat))
  /\ (forall v, series = NumericS v ->
        (0 < null_count series < series_len series)%nat ->
        _check_mixed_types str_is_datetime lib series = ["mixed_numeric_string"]).
Proof.
  assert (Hone : (length (_detect_date_formats str_is_datetime series) <= 1)%nat).
  { unfold _detect_date_formats.
    destruct series as [v | v | v | v]; simpl; try lia;
      change (length (elements (date_formats_of str_is_datetime v)))
        with (size (date_formats_of str_is_datetime v));
      rewrite <- (size_singleton (C := gset string) "detected");
      apply subseteq_size, date_formats_detected. }
  assert (Hcheck : _check_mixed_types str_is_datetime lib series
                   = if bool_decide (0 < numeric_count lib series)%nat
                        && bool_decide (0 < series_len series
                                            - numeric_count lib series)%nat
                     then ["mixed_numeric_string"] else []).
  { unfold _check_mixed_types. now rewrite bool_decide_eq_false_2 by lia. }
  pose proof (numeric_count_le lib series) as Hle.
  split; [| split].
  - rewrite Hcheck. destruct (_ && _).
    + intros Hin. apply list_elem_of_singleton in Hin. discriminate.
    + apply not_elem_of_nil.
  - rewrite Hcheck.
    destruct (bool_decide_reflect (0 < numeric_count lib series)%nat);
      destruct (bool_decide_reflect
                  (0 < series_len series - numeric_count lib series)%nat);
      cbn [andb]; split; intros Hin;
      try (apply elem_of_nil in Hin; contradiction);
      try lia; try (split; lia); try (now apply list_elem_of_singleton).
  - intros v -> Hnull. rewrite Hcheck.
    assert (Hsum : (numeric_count lib (NumericS v) + null_count (NumericS v)
                    = series_len (NumericS v))%nat).
    { simpl. unfold null_count. simpl. pose proof (count_true_negb (map is_null v)) as H.
      rewrite map_map, length_map in H. exact H. }
    rewrite !bool_decide_eq_true_2 by lia. reflexivity.
Qed.

(** ** The shape of a distribution *)

(** X15. The classification by skewness and kurtosis: ["right_skewed"]
    exactly when the skewness is above 1, ["left_skewed"] exactly when it is
    below -1 (the first test cannot take these cases away), ["normal"]
    exactly when both statistics are below 0.5 in absolute value, and
    ["approximately_normal"] whenever the skewness is NaN. *)
Theorem distribution_type_partition (skewness kurtosis : np_float) :
  (_assess_distribution_type skewness kurtosis = "right_skewed"
   <-> np_gt skewness (Fin 1) = true)
  /\ (_assess_distribution_type skewness kurtosis = "left_skewed"
      <-> np_lt skewness (Fin (- (1))) = true)
  /\ (_assess_distribution_type skewness kurtosis = "normal"
      <-> np_lt (np_abs skewness) (Fin (1 # 2)) = true
          /\ np_lt (np_abs kurtosis) (Fin (1 # 2)) = true)
  /\ (skewness = NaN ->
      _assess_distribution_type skewness kurtosis = "approximately_normal").
Proof.
  unfold _assess_distribution_type.
  assert (Hexcl : np_lt (np_abs skewness) (Fin (1 # 2)) = true ->
                  np_gt skewness (Fin 1) = false
                  /\ np_lt skewness (Fin (- (1))) = false).
  { destruct skewness as [q | | |]; simpl; try discriminate.
    intros H. apply bool_decide_eq_true_1 in H. unfold np_gt. simpl.
    assert (Habs : - (1 # 2) < q /\ q < 1 # 2).
    { destruct (Qabs_Qlt_condition q (1 # 2)) as [Hc _]. now apply Hc. }
    destruct Habs. split; apply bool_decide_eq_false_2; lra. }
  assert (Hboth : np_gt skewness (Fin 1) = true ->
                  np_lt skewness (Fin (- (1))) = false).
  { destruct skewness as [q | | |]; unfold np_gt; simpl; try discriminate;
      try reflexivity.
    intros H. apply bool_decide_eq_true_1 in H. apply bool_decide_eq_false_2. lra. }
  destruct (np_lt (np_abs skewness) (Fin (1 # 2))) eqn:E1; cbn [andb].
  - destruct (Hexcl eq_refl) as [Hgt Hlt]. rewrite Hgt, Hlt.
    destruct (np_lt (np_abs kurtosis) (Fin (1 # 2))) eqn:E2; cbn [andb];
      repeat split; try discriminate; try tauto;
      try (intros (_ & ?); discriminate);
      try (intros ->; discriminate).
  - destruct (np_gt skewness (Fin 1)) eqn:Egt.
    + rewrite ?(Hboth eq_refl).
      repeat split; try discriminate; try tauto;
        try (intros (? & _); discriminate);
        try (intros ->; discriminate).
    + destruct (np_lt skewness (Fin (- (1)))) eqn:Elt;
        repeat split; try discriminate; try tauto;
        try (intros (? & _); discriminate);
        try (intros ->; discriminate).
Qed.

(** ** Highly correlated pairs *)

Lemma triangle_sum (k a : nat) :
  (2 * sum_list (map (fun i => a + k - (i + 1)) (seq a k)) + k = k * k)%nat.
Proof.
  revert a. induction k as [| k IH]; intros a; [reflexivity |].
  cbn [seq map].
  match goal with
  | |- context [sum_list (?x :: ?l)] =>
      change (sum_list (x :: l)) with (x + sum_list l)%nat
  end.
  assert (E : map (fun i => a + S k - (i + 1))%nat (seq (S a) k)
              = map (fun i => S a + k - (i + 1))%nat (seq (S a) k)).
  { apply map_ext. intros i. lia. }
  rewrite E. specialize (IH (S a)).
  replace (a + S k - (a + 1))%nat with k by lia.
  set (X := sum_list _) in *. clearbody X. clear E. nia.
Qed.

Lemma flat_map_length_le {A B} (f : A -> list B) (g : A -> nat) (l : list A) :
  (forall x, (length (f x) <= g x)%nat) ->
  (length (flat_map f l) <= sum_list (map g l))%nat.
Proof.
  intros H. induction l as [| x l IH]; simpl; [lia |].
  rewrite length_app. specialize (H x). lia.
Qed.

Lemma flat_map_length_le_length {A B} (f : A -> list B) (l : list A) :
  (forall x, (length (f x) <= 1)%nat) -> (length (flat_map f l) <= length l)%nat.
Proof.
  intros H. induction l as [| x l IH]; simpl; [lia |].
  rewrite length_app. specialize (H x). lia.
Qed.

(** X16. [_find_high_correlations] reports a pair for exactly the positions
    [i < j] of the upper triangle whose correlation is at least the
    threshold in absolute value, with the names at [i] and [j]: at most
    n(n-1)/2 entries, none whose correlation is NaN. With a positive
    threshold the tag is ["positive"] exactly for a correlation above 0 and
    ["negative"] exactly for one below 0. *)
Theorem high_correlations_upper_triangle (names : list string)
    (corr_matrix : nat -> nat -> np_float) (threshold : Q) :
  let found := _find_high_correlations names corr_matrix threshold in
  (forall h,
     h ∈ found
     <-> exists i j,
           (i < j)%nat /\ (j < length names)%nat
           /\ np_ge (np_abs (corr_matrix i j)) (Fin threshold) = true
           /\ h = mkHighCorrelation (nth i names "") (nth j names "") (corr_matrix i j)
                    (if np_gt (corr_matrix i j) (Fin 0) then "positive"
                     else "negative"))
  /\ (2 * length found <= length names * (length names - 1))%nat
  /\ (forall h, h ∈ found ->
        correlation h <> NaN
        /\ (0 < threshold ->
            (correlation_type h = "positive" <-> np_gt (correlation h) (Fin 0) = true)
            /\ (correlation_type h = "negative"
                <-> np_lt (correlation h) (Fin 0) = true))).
Proof.
  intros found.
  assert (Hmem : forall h,
             h ∈ found
             <-> exists i j,
                   (i < j)%nat /\ (j < length names)%nat
                   /\ np_ge (np_abs (corr_matrix i j)) (Fin threshold) = true
                   /\ h = mkHighCorrelation (nth i names "") (nth j names "")
                            (corr_matrix i j)
                            (if np_gt (corr_matrix i j) (Fin 0) then "positive"
                             else "negative")).
  { intros h. unfold found, _find_high_correlations.
    rewrite list_elem_of_In, in_flat_map. split.
    - intros (i & Hi & Hin). apply in_flat_map in Hin as (j & Hj & Hin).
      apply in_seq in Hi. apply in_seq in Hj.
      destruct (np_ge (np_abs (corr_matrix i j)) (Fin threshold)) eqn:E;
        [| contradiction].
      destruct Hin as [<- | []]. exists i, j.
      repeat split; try lia; try assumption.
    - intros (i & j & Hij & Hj & Hge & ->). exists i.
      split; [apply in_seq; lia |]. apply in_flat_map. exists j.
      split; [apply in_seq; lia |]. rewrite Hge. now left. }
  split; [exact Hmem |]. split.
  - pose proof (triangle_sum (length names) 0) as Htri.
    assert (Hlen : (length found
                    <= sum_list (map (fun i => 0 + length names - (i + 1))
                                     (seq 0 (length names))))%nat).
    { unfold found, _find_high_correlations.
      apply flat_map_length_le. intros i.
      etransitivity; [apply flat_map_length_le_length |].
      - intros j. cbv zeta. destruct (np_ge _ _); simpl; lia.
      - rewrite length_seq. lia. }
    rewrite Nat.mul_sub_distr_l, Nat.mul_1_r.
    set (bound := sum_list _) in *. clearbody bound found. lia.
  - intros h Hh. apply Hmem in Hh as (i & j & _ & _ & Hge & ->). simpl.
    unfold np_ge in Hge. split.
    + intros Hnan. rewrite Hnan in Hge. discriminate.
    + intros Ht. unfold np_gt.
      destruct (corr_matrix i j) as [q | | |]; simpl in *; try discriminate.
      * apply bool_decide_eq_true_1 in Hge.
        assert (Hq : ~ q == 0).
        { intros E. rewrite E in Hge. change (Qabs 0) with 0 in Hge. lra. }
        destruct (bool_decide_reflect (0 < q)) as [Hpos | Hneg];
          destruct (bool_decide_reflect (q < 0)) as [Hlt | Hnlt];
          (split; split; intros H; try discriminate; try reflexivity);
          exfalso; first [lra | apply Hq; lra].
      * repeat split; try discriminate; reflexivity.
      * repeat split; try discriminate; reflexivity.
Qed.

(** ** Recommendations *)

(** X17. [_generate_recommendations] returns no recommendation exactly when
    the missing percentage is not above 5, the duplicate percentage is not
    above 1 (a NaN percentage is neither), no row is in the combined outlier
    set and no column has a mixed-type issue. In particular a report whose
    two severities are ["low"] gives none for them, and there are never more
    than three recommendations besides one per column. *)
Theorem recommendations_none_iff (format_1f : np_float -> string)
    (str_of_nat : nat -> string) (analysis_results : AnalysisResults)
    (data_types : list (string * TypeAnalysis)) :
  let recommendations :=
    _generate_recommendations format_1f str_of_nat analysis_results data_types in
  let m := missing_percentage (missing_data analysis_results) in
  let d := exact_duplicate_pct (duplicates analysis_results) in
  let flagged_rows :=
    match get_combined (outliers analysis_results) with
    | Some combined => total_outliers combined
    | None => 0%nat
    end in
  let no_mixed_column := Forall (fun ca => mixed_types ca.2 = []) data_types in
  (recommendations = []
   <-> np_gt m (Fin 5) = false /\ np_gt d (Fin 1) = false
       /\ flagged_rows = 0%nat /\ no_mixed_column)
  /\ (_assess_missing_severity m = "low" -> _assess_duplicate_severity d = "low" ->
      flagged_rows = 0%nat -> no_mixed_column -> recommendations = [])
  /\ (length recommendations <= 3 + length data_types)%nat.
Proof.
  intros recommendations m d flagged_rows no_mixed_column.
  assert (Htypes : forall (f : string * TypeAnalysis -> string),
             flat_map (fun ca => match mixed_types ca.2 with
                                 | [] => []
                                 | _ => [f ca]
                                 end) data_types = []
             <-> no_mixed_column).
  { intros f. unfold no_mixed_column.
    induction data_types as [| ca l IH]; simpl.
    - split; [constructor | reflexivity].
    - rewrite Forall_cons, <- IH.
      destruct (mixed_types ca.2); simpl; split;
        try (intros [? ?]); try discriminate; try tauto; auto. }
  assert (Htypes_len : forall (f : string * TypeAnalysis -> string),
             (length (flat_map (fun ca => match mixed_types ca.2 with
                                          | [] => []
                                          | _ => [f ca]
                                          end) data_types)
              <= length data_types)%nat).
  { intros f. apply flat_map_length_le_length. intros ca.
    destruct (mixed_types ca.2); simpl; lia. }
  assert (Hiff : recommendations = []
                 <-> np_gt m (Fin 5) = false /\ np_gt d (Fin 1) = false
                     /\ flagged_rows = 0%nat /\ no_mixed_column).
  { unfold recommendations, _generate_recommendations.
    fold m. fold d. unfold flagged_rows.
    destruct (np_gt m (Fin 5)); [split; [discriminate | intros [? _]; discriminate] |].
    destruct (np_gt d (Fin 1));
      [split; [discriminate | intros (_ & ? & _); discriminate] |].
    cbn [app].
    destruct (get_combined (outliers analysis_results)) as [combined |].
    - destruct (bool_decide_reflect (0 < total_outliers combined)%nat) as [Hpos | Hzero].
      + split; [discriminate | intros (_ & _ & H & _); exfalso; lia].
      + cbn [app]. rewrite Htypes. split; [intros H | tauto].
        repeat split; try reflexivity; [cbv beta iota; lia | exact H].
    - cbn [app]. rewrite Htypes. tauto. }
  split; [exact Hiff |]. split.
  - intros Hm Hd Hrows Hmixed. apply Hiff.
    unfold _assess_missing_severity in Hm. unfold _assess_duplicate_severity in Hd.
    assert (Hlow : forall x t, 0 <= t -> np_lt x (Fin t) = true ->
                               np_gt x (Fin t) = false).
    { intros [q | | |] t Ht; unfold np_gt; simpl; try discriminate; try reflexivity.
      intros H. apply bool_decide_eq_true_1 in H. apply bool_decide_eq_false_2. lra. }
    repeat split; try assumption.
    + apply Hlow; [lra |]. destruct (np_lt m (Fin 5)); [reflexivity |].
      destruct (np_lt m (Fin 20)); discriminate.
    + apply Hlow; [lra |]. destruct (np_lt d (Fin 1)); [reflexivity |].
      destruct (np_lt d (Fin 10)); discriminate.
  - unfold recommendations, _generate_recommendations.
    rewrite !length_app.
    assert (Hone : forall (c : bool) (x : string),
               (length (if c then [x] else []) <= 1)%nat)
      by (intros [] x; simpl; lia).
    match goal with
    | |- (length ?a + (length ?b + (length ?c + length ?t)) <= _)%nat =>
        assert (Ha : (length a <= 1)%nat) by apply Hone;
        assert (Hb : (length b <= 1)%nat) by apply Hone;
        assert (Hc : (length c <= 1)%nat)
          by (destruct (get_combined _); [apply Hone | simpl; lia]);
        assert (Ht : (length t <= length data_types)%nat) by apply Htypes_len;
        set (la := length a) in *; set (lb := length b) in *;
        set (lc := length c) in *; set (lt := length t) in *
    end.
    clearbody la lb lc lt. lia.
Qed.

(** ** The analyzer's IQR outliers and the cleaner's capping *)

Lemma dropna_values (labels : list nat) (v : list (option Q)) :
  (length v <= length labels)%nat -> map snd (dropna labels v) = omap id v.
Proof.
  revert v. induction labels as [| l labels IH]; intros [| c v] Hlen; simpl in *;
    try reflexivity; try lia.
  destruct c as [q |]; simpl; rewrite IH by lia; reflexivity.
Qed.

Lemma flagged_count (f : Q -> bool) (labels : list nat) (v : list (option Q)) :
  (length v <= length labels)%nat ->
  length (flagged f (dropna labels v))
  = count_true (map (fun c => match c with Some x => f x | None => false end) v).
Proof.
  unfold flagged. revert v.
  induction labels as [| l labels IH]; intros [| c v] Hlen; simpl in *;
    try reflexivity; try lia.
  destruct c as [q |]; cbn [map].
  - destruct (f q) eqn:E.
    + rewrite filter_cons_True by exact E. rewrite count_true_cons_true.
      cbn [map length]. f_equal. apply IH. lia.
    + rewrite filter_cons_False by (simpl; congruence).
      rewrite count_true_cons_false. apply IH. lia.
  - rewrite count_true_cons_false. apply IH. lia.
Qed.

(** X18. On the same column the analyzer and the cleaner agree: the IQR
    bounds reported by the analysis are the bounds the capping pass computes,
    and the number of IQR outliers reported is the number of cells the pass
    caps. *)
Theorem iqr_report_matches_capping (labels : list nat) (v : list (option Q)) :
  length labels = length v ->
  iqr_bounds (column_outliers (dropna labels v)) = iqr_fences (omap id v)
  /\ iqr_outliers (column_outliers (dropna labels v))
     = outliers_count (iqr_fences (omap id v)) v.
Proof.
  intros Hlen. unfold column_outliers. cbn [iqr_bounds iqr_outliers].
  rewrite dropna_values by lia. split; [reflexivity |].
  rewrite flagged_count by lia. reflexivity.
Qed.

Lemma iqr_report_matches_capping_witness :
  length [0; 1; 2; 3]%nat = length [Some 1; Some 2; None; Some 100]
  /\ iqr_outliers (column_outliers
                     (dropna [0; 1; 2; 3]%nat [Some 1; Some 2; None; Some 100]))
     = outliers_count (iqr_fences (omap id [Some 1; Some 2; None; Some 100]))
                      [Some 1; Some 2; None; Some 100].
Proof.
  split; [reflexivity |].
  exact (proj2 (iqr_report_matches_capping [0; 1; 2; 3]%nat
                  [Some 1; Some 2; None; Some 100] eq_refl)).
Defined.

(** ** The KNN method without a second numeric column *)

(** X19. When the column to impute is the only numeric column of the Table,
    the ["knn"] method does not consult the KNN imputer: it returns the
    column with every null filled with the median of its values, and leaves
    the Table as it is for the caller's assignment. *)
Theorem knn_falls_back_to_median (lib : Library) (r : loc) (s : store)
    (df : DataFrame) (col : string) (v : list (option Q)) :
  s !! r = Some df ->
  get_column df col = Some (NumericS v) ->
  numeric_columns df = [col] ->
  omap id v <> [] ->
  _apply_imputation lib r col "knn" s
  = (Ok (AsArray (NumericS (fillna (median (omap id v)) v))), s)
  /\ _apply_imputation lib r col "knn" s = _apply_imputation lib r col "median" s.
Proof.
  intros Hr Hcol Hnum Hdata.
  assert (Hmedian : _apply_imputation lib r col "median" s
                    = (Ok (AsArray (NumericS (fillna (median (omap id v)) v))), s)).
  { unfold _apply_imputation. simpl.
    unfold impute_numeric, mbind, M_bind, read. rewrite Hr. unfold or_raise.
    rewrite Hcol. unfold mret, M_ret, simple_imputer.
    destruct (omap id v); [contradiction | reflexivity]. }
  assert (Hknn : _apply_imputation lib r col "knn" s
                 = _apply_imputation lib r col "median" s).
  { unfold _apply_imputation. simpl.
    unfold mbind at 1, M_bind at 1, read at 1. rewrite Hr, Hnum. simpl.
    rewrite andb_false_r. reflexivity. }
  split; [rewrite Hknn; exact Hmedian | exact Hknn].
Qed.

Lemma knn_falls_back_to_median_witness :
  ([lonely_column] !! 0%nat = Some lonely_column
   /\ numeric_columns lonely_column = ["x"])
  /\ _apply_imputation example_library 0%nat "x" "knn" [lonely_column]
     = (Ok (AsArray (NumericS (fillna (median [4; 1; 3]) [Some 4; None; Some 1; Some 3]))),
        [lonely_column]).
Proof.
  split; [split; reflexivity |].
  exact (proj1 (knn_falls_back_to_median example_library 0%nat [lonely_column]
                  lonely_column "x" [Some 4; None; Some 1; Some 3]
                  eq_refl eq_refl eq_refl ltac:(discriminate))).
Defined.

(** ** A column holding one value *)

Section ConstantColumn.

Variable c : Q.

Lemma at_rank_all_equal (a : list Q) (i : nat) :
  all_equal_to c a -> (i < length a)%nat -> at_rank a i == c.
Proof.
  unfold all_equal_to, at_rank. rewrite Forall_forall. intros Hall Hi.
  apply Hall, list_elem_of_In, nth_In, Hi.
Qed.

Lemma sorted_all_equal (data : list Q) : all_equal_to c data -> all_equal_to c (sorted data).
Proof.
  unfold all_equal_to, sorted. rewrite !Forall_forall. intros Hall x Hx.
  apply Hall. now rewrite merge_sort_Permutation in Hx.
Qed.

Lemma quantile_all_equal (q : Q) (data : list Q) :
  data <> [] -> 0 <= q -> q <= 1 -> all_equal_to c data -> quantile q data == c.
Proof.
  intros Hne H0 H1 Hall. unfold quantile.
  assert (Hlen : 1 <= Qlen data).
  { unfold Qlen. change 1 with (inject_Z 1). rewrite <- Zle_Qle.
    destruct data; [contradiction | simpl; lia]. }
  assert (Hq0 : 0 <= q * (Qlen data - 1)) by (apply Qmult_le_0_compat; lra).
  assert (Hq1 : q * (Qlen data - 1) <= 1 * (Qlen data - 1))
    by (apply Qmult_le_compat_r; lra).
  assert (Hn : q * (Qlen data - 1) <= Qnat (length (sorted data)) - 1).
  { rewrite sorted_length. unfold Qnat, Qlen in *. lra. }
  destruct (lerp_rank_between (sorted data) _ (sorted_is_sorted data) Hq0 Hn)
    as [Hlo Hhi].
  destruct (floor_ceiling_ranks _ _ Hq0 Hn) as (Hfc & Hcn & _).
  pose proof (sorted_all_equal data Hall) as Hs.
  rewrite (at_rank_all_equal _ _ Hs) in Hlo by lia.
  rewrite (at_rank_all_equal _ _ Hs) in Hhi by lia.
  lra.
Qed.

Lemma median_all_equal (data : list Q) :
  data <> [] -> all_equal_to c data -> median data == c.
Proof.
  intros Hne Hall. unfold median.
  pose proof (sorted_all_equal data Hall) as Hs.
  assert (Hpos : (0 < length data)%nat) by (destruct data; [contradiction | simpl; lia]).
  assert (Hhalf : (length data / 2 < length data)%nat)
    by (apply Nat.div_lt; lia).
  destruct (Nat.even (length data)).
  - rewrite !(at_rank_all_equal _ _ Hs) by (rewrite sorted_length; lia). field.
  - apply (at_rank_all_equal _ _ Hs). rewrite sorted_length. lia.
Qed.

Lemma Qsum_all_equal (l : list Q) : all_equal_to c l -> Qsum l == Qlen l * c.
Proof.
  unfold all_equal_to, Qsum, Qlen. induction 1 as [| x l Hx _ IH]; simpl foldr.
  - simpl. ring.
  - rewrite IH, Hx. cbn [length]. rewrite Nat2Z.inj_succ. unfold Z.succ.
    rewrite inject_Z_succ. ring.
Qed.

Lemma Qlen_positive (l : list Q) : l <> [] -> 0 < Qlen l.
Proof.
  intros Hne. unfold Qlen. change 0 with (inject_Z 0). rewrite <- Zlt_Qlt.
  destruct l; [contradiction | simpl; lia].
Qed.

Lemma average_all_equal (l : list Q) : l <> [] -> all_equal_to c l -> average l == c.
Proof.
  intros Hne Hall. unfold average. rewrite (Qsum_all_equal l Hall).
  pose proof (Qlen_positive l Hne). field. lra.
Qed.

End ConstantColumn.

Lemma variance_all_equal (c : Q) (l : list Q) :
  l <> [] -> all_equal_to c l -> variance l == 0.
Proof.
  intros Hne Hall. unfold variance.
  pose proof (average_all_equal c l Hne Hall) as Hm.
  assert (Hsq : all_equal_to 0 (map (fun x => (x - average l) * (x - average l)) l)).
  { unfold all_equal_to in *. rewrite Forall_map. eapply Forall_impl; [exact Hall |].
    intros x Hx. cbv beta in *. rewrite Hx, Hm. ring. }
  rewrite (Qsum_all_equal 0 _ Hsq). pose proof (Qlen_positive l Hne).
  unfold Qlen in *. rewrite length_map. field. lra.
Qed.

Lemma mad_all_equal (c : Q) (l : list Q) :
  l <> [] -> all_equal_to c l -> mad l == 0.
Proof.
  intros Hne Hall. unfold mad.
  pose proof (median_all_equal c l Hne Hall) as Hm.
  apply median_all_equal.
  - destruct l; [contradiction | discriminate].
  - unfold all_equal_to in *. rewrite Forall_map. eapply Forall_impl; [exact Hall |].
    intros x Hx. cbv beta in *.
    assert (E : x - median l == 0) by (rewrite Hx, Hm; ring).
    rewrite E. reflexivity.
Qed.

Lemma flagged_none (f : Q -> bool) (col_data : list (nat * Q)) :
  Forall (fun lx => f lx.2 = false) col_data -> flagged f col_data = [].
Proof.
  unfold flagged. induction 1 as [| lx l Hx _ IH]; [reflexivity |].
  rewrite filter_cons_False by congruence. exact IH.
Qed.

(** X20. A column whose values are all the same number has no statistical
    outlier: the IQR fences collapse onto that number, and none of the three
    detectors (IQR, z-score, modified z-score) flags a row, although the
    standard deviation and the MAD are zero. *)
Theorem constant_column_has_no_outliers (col_data : list (nat * Q)) (c : Q) :
  col_data <> [] ->
  Forall (fun lx => lx.2 == c) col_data ->
  ((iqr_bounds (column_outliers col_data)).1 == c
   /\ (iqr_bounds (column_outliers col_data)).2 == c)
  /\ iqr_outliers (column_outliers col_data) = 0%nat
  /\ zscore_outliers (column_outliers col_data) = 0%nat
  /\ modified_zscore_outliers (column_outliers col_data) = 0%nat
  /\ outlier_indices (column_outliers col_data)
     = [("iqr", []); ("zscore", []); ("modified_zscore", [])].
Proof.
  intros Hne Hall.
  set (vals := map snd col_data).
  assert (Hvals : all_equal_to c vals).
  { unfold all_equal_to, vals. rewrite Forall_map. exact Hall. }
  assert (Hvne : vals <> []).
  { unfold vals. destruct col_data; [contradiction | discriminate]. }
  assert (Hq1 : quantile (1 # 4) vals == c)
    by (apply quantile_all_equal; [exact Hvne | lra | lra | exact Hvals]).
  assert (Hq3 : quantile (3 # 4) vals == c)
    by (apply quantile_all_equal; [exact Hvne | lra | lra | exact Hvals]).
  assert (Hlo : (iqr_fences vals).1 == c) by (unfold iqr_fences; simpl; lra).
  assert (Hhi : (iqr_fences vals).2 == c) by (unfold iqr_fences; simpl; lra).
  assert (Hiqr : flagged (out_of_fences (iqr_fences vals)) col_data = []).
  { apply flagged_none. eapply Forall_impl; [exact Hall |].
    intros lx Hx. cbv beta in Hx. apply out_of_fences_false; lra. }
  assert (Hz : flagged (zscore_flag vals) col_data = []).
  { apply flagged_none. eapply Forall_impl; [exact Hall |].
    intros lx Hx. cbv beta in Hx. unfold zscore_flag.
    pose proof (average_all_equal c vals Hvne Hvals) as Hm.
    pose proof (variance_all_equal c vals Hvne Hvals) as Hv.
    apply bool_decide_eq_false_2. rewrite Hx, Hm, Hv.
    intros Hlt. ring_simplify in Hlt. lra. }
  assert (Hmz : flagged (modified_zscore_flag vals) col_data = []).
  { apply flagged_none. eapply Forall_impl; [exact Hall |].
    intros lx Hx. cbv beta in Hx. unfold modified_zscore_flag, modified_z_score, np_div.
    pose proof (median_all_equal c vals Hvne Hvals) as Hm.
    pose proof (mad_all_equal c vals Hvne Hvals) as Hmad.
    assert (E1 : Qsign (mad vals) = Eq) by (unfold Qsign; now apply Qeq_alt).
    assert (E2 : Qsign ((6745 # 10000) * (lx.2 - median vals)) = Eq).
    { unfold Qsign. apply Qeq_alt. rewrite Hx, Hm. ring. }
    rewrite E1, E2. reflexivity. }
  unfold column_outliers. fold vals.
  cbn [iqr_bounds iqr_outliers zscore_outliers modified_zscore_outliers outlier_indices].
  rewrite Hiqr, Hz, Hmz. repeat split; assumption.
Qed.

Lemma constant_column_has_no_outliers_witness :
  Forall (fun lx => lx.2 == 7) sevens
  /\ iqr_outliers (column_outliers sevens) = 0%nat.
Proof.
  assert (H : Forall (fun lx : nat * Q => lx.2 == 7) sevens)
    by (repeat constructor).
  split; [exact H |].
  exact (proj1 (proj2 (constant_column_has_no_outliers sevens 7
                         ltac:(discriminate) H))).
Defined.

(** ** The z-score detector on short columns *)

Lemma Qsquare_nonneg (x : Q) : 0 <= x * x.
Proof. nra. Qed.

Lemma Qlen_cons (x : Q) (l : list Q) : Qlen (x :: l) == Qlen l + 1.
Proof.
  unfold Qlen. cbn [length]. rewrite Nat2Z.inj_succ. unfold Z.succ.
  apply inject_Z_succ.
Qed.

Lemma Qlen_nonneg (l : list Q) : 0 <= Qlen l.
Proof.
  unfold Qlen. change 0 with (inject_Z 0). rewrite <- Zle_Qle. lia.
Qed.

Lemma Qsum_app (l1 l2 : list Q) : Qsum (l1 ++ l2) == Qsum l1 + Qsum l2.
Proof.
  unfold Qsum. induction l1 as [| x l1 IH]; simpl; [ring | rewrite IH; ring].
Qed.

Lemma Qlen_middle (l1 l2 : list Q) (x : Q) :
  Qlen (l1 ++ x :: l2) == Qlen (l1 ++ l2) + 1.
Proof.
  unfold Qlen. rewrite !length_app. cbn [length].
  rewrite <- inject_Z_succ. apply inject_Z_injective. lia.
Qed.

Lemma squares_nonneg (l : list Q) : 0 <= Qsum (squares l).
Proof.
  unfold Qsum, squares. induction l as [| x l IH]; simpl; [lra |].
  pose proof (Qsquare_nonneg x) as H. lra.
Qed.

Lemma square_distances_nonneg (a : Q) (l : list Q) :
  0 <= Qlen l * (a * a) - 2 * a * Qsum l + Qsum (squares l).
Proof.
  induction l as [| y l IH].
  - unfold Qlen, Qsum, squares. simpl. ring_simplify. lra.
  - rewrite Qlen_cons. unfold Qsum, squares in *. simpl foldr. cbn [map foldr].
    pose proof (Qsquare_nonneg (a - y)) as H.
    ring_simplify in H. ring_simplify in IH. ring_simplify. lra.
Qed.

(** The square of a sum against the sum of the squares. *)
Lemma square_of_sum (l : list Q) : Qsum l * Qsum l <= Qlen l * Qsum (squares l).
Proof.
  induction l as [| x l IH].
  - unfold Qlen, Qsum, squares. simpl. lra.
  - pose proof (square_distances_nonneg x l) as H.
    rewrite Qlen_cons. unfold Qsum, squares in *. cbn [map foldr].
    ring_simplify in H. ring_simplify in IH. ring_simplify. lra.
Qed.

Lemma Qsum_shift (k : Q) (l : list Q) :
  Qsum (map (fun x => x - k) l) == Qsum l - Qlen l * k.
Proof.
  induction l as [| x l IH].
  - unfold Qlen, Qsum. simpl. ring.
  - rewrite Qlen_cons. unfold Qsum in *. cbn [map foldr]. rewrite IH. ring.
Qed.

Lemma deviations_cancel (l : list Q) :
  l <> [] -> Qsum (map (fun x => x - average l) l) == 0.
Proof.
  intros Hne. rewrite Qsum_shift. unfold average.
  pose proof (Qlen_positive l Hne). field. lra.
Qed.

Lemma Qsum_middle (l1 l2 : list Q) (x : Q) :
  Qsum (l1 ++ x :: l2) == x + Qsum (l1 ++ l2).
Proof. rewrite !Qsum_app. unfold Qsum. simpl. ring. Qed.

Lemma Qlen_map (f : Q -> Q) (l : list Q) : Qlen (map f l) = Qlen l.
Proof. unfold Qlen. now rewrite length_map. Qed.

(** No squared deviation from the mean exceeds [n - 1] times the variance. *)
Lemma deviation_bound (l1 l2 : list Q) (x : Q) :
  Qlen (l1 ++ x :: l2) * ((x - average (l1 ++ x :: l2)) * (x - average (l1 ++ x :: l2)))
  <= (Qlen (l1 ++ x :: l2) - 1)
     * (variance (l1 ++ x :: l2) * Qlen (l1 ++ x :: l2)).
Proof.
  assert (Hne : l1 ++ x :: l2 <> []) by (destruct l1; discriminate).
  pose proof (Qlen_positive _ Hne) as Hpos.
  pose proof (deviations_cancel _ Hne) as Hzero.
  assert (Hvar : variance (l1 ++ x :: l2) * Qlen (l1 ++ x :: l2)
                 == Qsum (squares (map (fun y => y - average (l1 ++ x :: l2))
                                       (l1 ++ x :: l2)))).
  { unfold variance, squares. rewrite map_map. field. lra. }
  rewrite Hvar. clear Hvar.
  set (m := average (l1 ++ x :: l2)) in *. clearbody m.
  unfold squares in *. rewrite !map_app in *. cbn [map] in *.
  rewrite Qsum_middle in *. rewrite Qlen_middle in *.
  rewrite <- !map_app in *.
  pose proof (square_of_sum (map (fun y => y - m) (l1 ++ l2))) as Hcs.
  rewrite Qlen_map in Hcs. unfold squares in Hcs.
  set (K := Qlen (l1 ++ l2)) in *.
  set (S := Qsum (map (fun y => y - m) (l1 ++ l2))) in *.
  set (T := Qsum (map (fun y => y * y) (map (fun y => y - m) (l1 ++ l2)))) in *.
  set (D := x - m) in *. clearbody K S T D.
  assert (E : D * D == S * S) by (assert (D == - S) as -> by lra; ring).
  rewrite <- E in Hcs. ring_simplify. lra.
Qed.

(** X21. The z-score detector needs at least ten values: on a column with
    fewer than ten non-null values no score can exceed 3, so the detector
    reports no outlier whatever the values are. *)
Theorem zscore_silent_below_ten_values (col_data : list (nat * Q)) :
  (length col_data < 10)%nat ->
  zscore_outliers (column_outliers col_data) = 0%nat
  /\ ("zscore", []) ∈ outlier_indices (column_outliers col_data).
Proof.
  intros Hlen.
  assert (Hz : flagged (zscore_flag (map snd col_data)) col_data = []).
  { apply flagged_none. rewrite Forall_forall. intros lx Hin.
    assert (Hx : lx.2 ∈ map snd col_data).
    { apply list_elem_of_In, in_map, list_elem_of_In, Hin. }
    apply list_elem_of_split in Hx as (l1 & l2 & Hsplit).
    unfold zscore_flag. apply bool_decide_eq_false_2.
    pose proof (deviation_bound l1 l2 lx.2) as Hb. rewrite <- Hsplit in Hb.
    assert (Hne : map snd col_data <> []) by (rewrite Hsplit; destruct l1; discriminate).
    pose proof (Qlen_positive _ Hne) as Hpos.
    assert (Hten : Qlen (map snd col_data) <= 9).
    { unfold Qlen. rewrite length_map. change 9 with (inject_Z 9).
      rewrite <- Zle_Qle. lia. }
    assert (Hv : 0 <= variance (map snd col_data) * Qlen (map snd col_data)).
    { unfold variance.
      set (m := average _).
      assert (E : Qsum (map (fun x => (x - m) * (x - m)) (map snd col_data))
                    / Qlen (map snd col_data) * Qlen (map snd col_data)
                  == Qsum (squares (map (fun x => x - m) (map snd col_data)))).
      { unfold squares. rewrite (map_map (fun x => x - m)). field. lra. }
      rewrite E. apply squares_nonneg. }
    set (N := Qlen (map snd col_data)) in *.
    set (V := variance (map snd col_data)) in *.
    set (A := (lx.2 - average (map snd col_data))
              * (lx.2 - average (map snd col_data))) in *.
    clearbody N V A. intros Hlt. nra. }
  unfold column_outliers.
  cbn [zscore_outliers outlier_indices]. rewrite Hz.
  split; [reflexivity |]. apply list_elem_of_In. simpl. auto.
Qed.

Lemma zscore_silent_below_ten_values_witness :
  (length short_column < 10)%nat
  /\ zscore_outliers (column_outliers short_column) = 0%nat.
Proof.
  assert (H : (length short_column < 10)%nat) by (simpl; lia).
  split; [exact H |].
  exact (proj1 (zscore_silent_below_ten_values short_column H)).
Defined.

(** ** Text columns with many gaps *)







